(** * Trace normalisation and replay-context assembly of langfuse-gosdk

    A shallow embedding of the two programs that make up the pipeline:

    - [Fetch]: examples/fetch/main.go, which finds the first GENERATION
      observation of a trace and turns its untyped input and output into a
      flat list of message objects;
    - [Replay]: the replay-context builder ([ContextBuilder], [AddTurn],
      [Build]), the projection [ToOpenAIMessages] and the JSON codec
      ([ToJSON], and the [json.Unmarshal] its users are told to call).

    [Go] holds what both need from the Go runtime and its standard library:
    dynamic values, slices and their backing arrays, strings as byte
    sequences, instants, and the value-level behaviour of encoding/json. *)

Set Warnings "-register-all".
From Stdlib Require Import ZArith Lia Ascii String.
From Stdlib Require Import Floats.SpecFloat.
From stdpp Require Import gmap strings list fin_maps sorting pretty.

(* ===================================================================== *)
(** * The Go runtime                                                      *)
(* ===================================================================== *)

Module Go.

(** ** Numbers *)

(** A [float64] is an IEEE 754 binary64 datum. *)
Definition float64 : Type := spec_float.

Definition float64_zero : float64 := S754_zero false.

(** The literal [0.7]: 0x3FE6666666666666. *)
Definition float64_0_7 : float64 := S754_finite false 6305039478318694 (-53).

(** Whether a float is empty for [omitempty]: it compares equal to zero,
    which a zero of either sign does. *)
Definition float64_IsZero (f : float64) : bool :=
  match f with
  | S754_zero _ => true
  | _ => false
  end.

Definition float64_IsFinite (f : float64) : bool :=
  match f with
  | S754_zero _ | S754_finite _ _ _ => true
  | S754_infinity _ | S754_nan => false
  end.

(** The correctly rounded conversion of an integer (strconv.ParseFloat on an
    integer literal); the result is infinite when the integer is out of
    range. *)
Definition float64_of_Z (z : Z) : float64 := binary_normalize 53 1024 z 0 false.

(** The integer a float denotes, when it denotes one. *)
Definition float64_integer (f : float64) : option Z :=
  match f with
  | S754_zero _ => Some 0%Z
  | S754_finite s m e =>
      let sgn := if s then (-1)%Z else 1%Z in
      if (0 <=? e)%Z then Some (sgn * Z.pos m * 2 ^ e)%Z
      else if (Z.pos m mod 2 ^ (- e) =? 0)%Z then Some (sgn * (Z.pos m / 2 ^ (- e)))%Z
      else None
  | _ => None
  end.

(** Go's [int] and [int64] are 64-bit two's complement integers, held in [Z]. *)
Definition minInt64 : Z := (- 2 ^ 63)%Z.
Definition maxInt64 : Z := (2 ^ 63 - 1)%Z.

Definition is_int64 (z : Z) : bool := (minInt64 <=? z)%Z && (z <=? maxInt64)%Z.

(** Conversion to int64 with two's complement wrap-around. *)
Definition wrap64 (z : Z) : Z := ((z + 2 ^ 63) mod 2 ^ 64 - 2 ^ 63)%Z.

(** ** JSON documents

    The value a JSON text denotes.  [JInt z] is a number written as an
    integer literal, [JFloat f] the number literal strconv writes for the
    finite float [f]; a number written with an exponent that no float64
    holds, such as 1e999, is the [JInt] of its value.  An object maps each
    member name to one value. *)
Inductive json : Type :=
  | JNull
  | JBool (b : bool)
  | JInt (z : Z)
  | JFloat (f : float64)
  | JString (s : string)
  | JArray (l : list json)
  | JObject (m : gmap string json).

(** ** Dynamic values

    A value held in an [interface{}] ([any]).  The first six constructors
    are the dynamic types encoding/json produces when it decodes into [any].
    A value of any other type (a []string, an int, a struct, a json.Number)
    answers no type assertion the program makes and is only ever encoded: it
    is [AnyOther j] when json.Marshal writes it as the document [j], and
    [AnyOpaque] when json.Marshal rejects it (a channel, a function, a
    complex number). *)
Inductive any : Type :=
  | AnyNil
  | AnyBool (b : bool)
  | AnyFloat64 (f : float64)
  | AnyString (s : string)
  | AnySlice (l : list any)
  | AnyMap (m : gmap string any)
  | AnyOpaque
  | AnyOther (j : json).

(** ** Slices and maps as values

    A slice value read through its header: [None] is the nil slice, [Some l]
    a non-nil slice with elements [l].  Likewise for a [map[string]any]. *)
Definition slice (A : Type) : Type := option (list A).

Definition elems {A} (s : slice A) : list A := default [] s.

Definition len {A} (s : slice A) : nat := length (elems s).

Definition gomap : Type := option (gmap string any).

Definition maplen (m : gomap) : nat := from_option size 0 m.

(** ** Zero values *)
Class Zero (A : Type) := zero : A.
Global Hint Mode Zero ! : typeclass_instances.

Global Instance string_Zero : Zero string := "".
Global Instance Z_Zero : Zero Z := 0%Z.
Global Instance bool_Zero : Zero bool := false.
Global Instance float64_Zero : Zero float64 := float64_zero.
Global Instance slice_Zero {A} : Zero (slice A) := None.
Global Instance gomap_Zero : Zero gomap := None.

(** ** Backing arrays

    A slice header names a backing array, a length and a capacity.  The
    program never reslices, so every header starts at index 0 of its array.
    A memory is the list of the arrays allocated so far, an array being
    named by its position. *)
Record SliceHeader := { array : nat; hlen : nat; hcap : nat }.

Definition Slice : Type := option SliceHeader.

Global Instance Slice_Zero : Zero Slice := None.

Abbreviation memory A := (list (list A)).

(** The elements seen through a header. *)
Definition read {A} (mem : memory A) (s : Slice) : slice A :=
  match s with
  | None => None
  | Some h => Some (take (hlen h) (default [] (mem !! array h)))
  end.

Definition Slice_len (s : Slice) : nat := from_option hlen 0 s.
Definition Slice_cap (s : Slice) : nat := from_option hcap 0 s.

(** [make([]T, n)]: a fresh array of [n] zero values. *)
Definition make {A} `{!Zero A} (mem : memory A) (n : nat) : memory A * Slice :=
  (mem ++ [replicate n zero], Some {| array := length mem; hlen := n; hcap := n |}).

(** [s[i] = x] on an index in range. *)
Definition store {A} (mem : memory A) (s : Slice) (i : nat) (x : A) : memory A :=
  match s with
  | None => mem
  | Some h => alter (λ arr, <[i := x]> arr) (array h) mem
  end.

(** [append(s, x)].  When the capacity allows it the element is written in
    place, behind the current length, and the header only grows in length.
    Otherwise the elements are copied to a fresh array whose capacity is the
    needed length plus whatever [extra] the runtime's growth policy adds. *)
Definition append {A} `{!Zero A} (extra : nat → nat → nat)
    (mem : memory A) (s : Slice) (x : A) : memory A * Slice :=
  let n := Slice_len s in
  if decide (n < Slice_cap s) then
    match s with
    | Some h => (store mem s n x, Some {| array := array h; hlen := S n; hcap := hcap h |})
    | None => (mem, s)
    end
  else
    let newcap := S n + extra (Slice_cap s) (S n) in
    let old := elems (read mem s) in
    (mem ++ [old ++ x :: replicate (newcap - S n) zero],
     Some {| array := length mem; hlen := S n; hcap := newcap |}).

(** ** Strings

    A Go string is a sequence of bytes, here the characters of a [string]. *)
Definition byte (c : ascii) : N := N_of_ascii c.

Definition between (lo hi : N) (c : ascii) : bool :=
  (lo <=? byte c)%N && (byte c <=? hi)%N.

(** utf8.DecodeRuneInString, as far as its size result: the number of bytes
    of the well-formed encoding at the head of [s], and 0 when there is none
    (Go then returns RuneError with size 1). *)
Definition runeSize (s : string) : nat :=
  match s with
  | EmptyString => 0
  | String c0 r0 =>
      let b0 := byte c0 in
      if (b0 <? 128)%N then 1
      else if (b0 <? 194)%N then 0
      else if (b0 <? 224)%N then
        match r0 with
        | String c1 _ => if between 128 191 c1 then 2 else 0
        | _ => 0
        end
      else if (b0 <? 240)%N then
        match r0 with
        | String c1 (String c2 _) =>
            let lo := if (b0 =? 224)%N then 160%N else 128%N in
            let hi := if (b0 =? 237)%N then 159%N else 191%N in
            if between lo hi c1 && between 128 191 c2 then 3 else 0
        | _ => 0
        end
      else if (b0 <? 245)%N then
        match r0 with
        | String c1 (String c2 (String c3 _)) =>
            let lo := if (b0 =? 240)%N then 144%N else 128%N in
            let hi := if (b0 =? 244)%N then 143%N else 191%N in
            if between lo hi c1 && between 128 191 c2 && between 128 191 c3
            then 4 else 0
        | _ => 0
        end
      else 0
  end.

(** U+FFFD, the replacement character, in UTF-8. *)
Definition replacement : string :=
  String (ascii_of_nat 239) (String (ascii_of_nat 191) (String (ascii_of_nat 189) EmptyString)).

(** utf8.ValidString; [pending] bytes of the current encoding are still to
    be skipped. *)
Fixpoint validFrom (pending : nat) (s : string) : bool :=
  match s with
  | EmptyString => true
  | String c r =>
      match pending with
      | S k => validFrom k r
      | O =>
          match runeSize s with
          | O => false
          | S k => validFrom k r
          end
      end
  end.

Definition ValidString (s : string) : bool := validFrom 0 s.

(** The string a JSON string literal written by encoding/json denotes: the
    encoder copies well-formed encodings and writes U+FFFD for every byte
    that does not start one. *)
Fixpoint coerceFrom (pending : nat) (s : string) : string :=
  match s with
  | EmptyString => EmptyString
  | String c r =>
      match pending with
      | S k => String c (coerceFrom k r)
      | O =>
          match runeSize s with
          | O => replacement +:+ coerceFrom 0 r
          | S k => String c (coerceFrom k r)
          end
      end
  end.

Definition ToValidUTF8 (s : string) : string := coerceFrom 0 s.

(** ** Instants

    An instant has a wall-clock reading (nanoseconds since the Unix epoch)
    and, when it was read by time.Now, a monotonic reading. *)
Record Time := { wall : Z; mono : option Z }.

Global Instance Time_Zero : Zero Time := {| wall := 0; mono := None |}.

Definition maxDuration : Z := maxInt64.
Definition minDuration : Z := minInt64.

(** time.subMono on two int64 readings. *)
Definition subMono (t u : Z) : Z :=
  let d := wrap64 (t - u) in
  if (d <? 0)%Z && (u <? t)%Z then maxDuration
  else if (0 <? d)%Z && (t <? u)%Z then minDuration
  else d.

(** Time.Sub: the difference of the monotonic readings when both instants
    have one, the saturated difference of the wall clocks otherwise. *)
Definition Time_Sub (t u : Time) : Z :=
  match mono t, mono u with
  | Some a, Some b => subMono a b
  | _, _ =>
      let d := (wall t - wall u)%Z in
      if (maxDuration <? d)%Z then maxDuration
      else if (d <? minDuration)%Z then minDuration
      else d
  end.

(** Duration.Milliseconds: integer division truncating toward zero. *)
Definition Duration_Milliseconds (d : Z) : Z := Z.quot d 1000000.

(** What the embedding takes from the runtime without fixing it: the growth
    policy of append (the capacity added beyond the needed length, given the
    old capacity and the needed length), the RFC 3339 rendering of instants,
    and the JSON methods of time.Time (MarshalJSON fails for years outside
    0..9999). *)
Class Runtime := {
  growslice_extra : nat → nat → nat;
  Format_RFC3339Nano : Time → string;
  Time_MarshalJSON : Time → option string;
  Time_UnmarshalJSON : string → option Time
}.

(** ** Encoding and decoding *)

(** Strings are written coerced to valid UTF-8. *)
Definition marshalString (s : string) : json := JString (ToValidUTF8 s).

(** NaN and the infinities are unsupported values. *)
Definition marshalFloat64 (f : float64) : option json :=
  if float64_IsFinite f then Some (JFloat f) else None.

(** The members of a map are written in the order of their keys, each key
    coerced to valid UTF-8; should two keys coincide after coercion the text
    has the member twice and a reader keeps the later one. *)
Definition key_le {V} (p q : string * V) : Prop := String.le p.1 q.1.

Global Instance key_le_dec {V} : RelDecision (@key_le V).
Proof. intros p q. unfold key_le. apply _. Defined.

Definition marshalMembers {V} (m : gmap string V) : gmap string V :=
  foldl (λ acc kv, <[ToValidUTF8 kv.1 := kv.2]> acc) ∅
        (merge_sort key_le (map_to_list m)).

Definition all_Some {K} `{Countable K} {V} (m : gmap K (option V)) : bool :=
  bool_decide (map_Forall (λ _ o, is_Some o) m).

(** json.Marshal on a dynamic value. *)
Fixpoint marshalAny (v : any) : option json :=
  match v with
  | AnyNil => Some JNull
  | AnyBool b => Some (JBool b)
  | AnyFloat64 f => marshalFloat64 f
  | AnyString s => Some (marshalString s)
  | AnySlice l => JArray <$> mapM marshalAny l
  | AnyMap m =>
      let m' := marshalAny <$> m in
      if all_Some m' then Some (JObject (marshalMembers (default JNull <$> m')))
      else None
  | AnyOpaque => None
  | AnyOther j => Some j
  end.

(** json.Unmarshal into an [any]: numbers become float64, and an integer
    literal beyond the float64 range is an error. *)
Definition unmarshalNumber (j : json) : option float64 :=
  match j with
  | JInt z => let f := float64_of_Z z in if float64_IsFinite f then Some f else None
  | JFloat f => Some f
  | _ => None
  end.

Fixpoint unmarshalAny (j : json) : option any :=
  match j with
  | JNull => Some AnyNil
  | JBool b => Some (AnyBool b)
  | JInt _ | JFloat _ => AnyFloat64 <$> unmarshalNumber j
  | JString s => Some (AnyString s)
  | JArray l => AnySlice <$> mapM unmarshalAny l
  | JObject m =>
      let m' := unmarshalAny <$> m in
      if all_Some m' then Some (AnyMap (default AnyNil <$> m')) else None
  end.

(** The numbers of a document are ones a float64 holds: json.Unmarshal into
    an [any] fails on a document exactly when one is not. *)
Fixpoint inRange (j : json) : bool :=
  match j with
  | JInt z => float64_IsFinite (float64_of_Z z)
  | JArray l => forallb inRange l
  | JObject m => bool_decide (map_Forall (λ _ b, b = true) (inRange <$> m))
  | _ => true
  end.

(** A dynamic value that is written with such numbers only. *)
Fixpoint decodable (v : any) : bool :=
  match v with
  | AnySlice l => forallb decodable l
  | AnyMap m => bool_decide (map_Forall (λ _ b, b = true) (decodable <$> m))
  | AnyOther j => inRange j
  | _ => true
  end.

Definition decodableMap (m : gomap) : bool :=
  match m with
  | None => true
  | Some m => decodable (AnyMap m)
  end.

(** A [map[string]any] field: a nil map is written as null. *)
Definition marshalMap (m : gomap) : option json :=
  match m with
  | None => Some JNull
  | Some m => marshalAny (AnyMap m)
  end.

Definition unmarshalMap (j : json) : option gomap :=
  match j with
  | JNull => Some None
  | JObject _ =>
      match unmarshalAny j with
      | Some (AnyMap m) => Some (Some m)
      | _ => None
      end
  | _ => None
  end.

(** Scalar fields.  A null leaves the field at its zero value; a value of
    another kind is a type error. *)
Definition unmarshalString (j : json) : option string :=
  match j with
  | JNull => Some ""
  | JString s => Some s
  | _ => None
  end.

Definition unmarshalBool (j : json) : option bool :=
  match j with
  | JNull => Some false
  | JBool b => Some b
  | _ => None
  end.

Definition unmarshalInt (j : json) : option Z :=
  match j with
  | JNull => Some 0%Z
  | JInt z => if is_int64 z then Some z else None
  | JFloat f =>
      match float64_integer f with
      | Some z => if is_int64 z then Some z else None
      | None => None
      end
  | _ => None
  end.

Definition unmarshalFloat64 (j : json) : option float64 :=
  match j with
  | JNull => Some float64_zero
  | _ => unmarshalNumber j
  end.

Definition marshalTime `{!Runtime} (t : Time) : option json :=
  JString <$> Time_MarshalJSON t.

Definition unmarshalTime `{!Runtime} (j : json) : option Time :=
  match j with
  | JNull => Some zero
  | JString s => Time_UnmarshalJSON s
  | _ => None
  end.

(** Slices: a nil slice is written as null, any other as an array. *)
Definition marshalSlice {A} (f : A → option json) (s : slice A) : option json :=
  match s with
  | None => Some JNull
  | Some l => JArray <$> mapM f l
  end.

Definition unmarshalSlice {A} (f : json → option A) (j : json) : option (slice A) :=
  match j with
  | JNull => Some None
  | JArray l => Some <$> mapM f l
  | _ => None
  end.

(** Struct fields.  A member that is absent leaves its field at the zero
    value.  Members are found by their exact name, which is how the encoder
    writes them (json.Unmarshal would also take a name that differs in
    case). *)
Definition field {A} `{!Zero A} (f : json → option A) (name : string)
    (obj : gmap string json) : option A :=
  match obj !! name with
  | None => Some zero
  | Some j => f j
  end.

End Go.

(* ===================================================================== *)
(** * examples/fetch: from a fetched trace to context messages            *)
(* ===================================================================== *)

Module Fetch.
Import Go.

(** langfuse.ObservationDetails, with the fields the program reads.  [Input]
    and [Output] are untyped: whatever the JSON of the observation held. *)
Record ObservationDetails := {
  ID : string;
  Type_ : string;
  Name : option string;
  Model : option string;
  StartTime : string;
  EndTime : option string;
  Input : any;
  Output : any
}.

(** langfuse.TraceWithFullDetails, reduced to the observation list. *)
Record TraceWithFullDetails := {
  TraceID : string;
  Observations : list ObservationDetails
}.

(** A context message is a [map[string]any]. *)
Abbreviation Message := (gmap string any).

Definition isGeneration (o : ObservationDetails) : bool :=
  bool_decide (Type_ o = "GENERATION").

(** The scan [for i := 0; i < len(trace.Observations); i++] with its
    [break] at the first observation of type GENERATION. *)
Fixpoint firstGeneration (obs : list ObservationDetails) : option ObservationDetails :=
  match obs with
  | [] => None
  | o :: rest => if isGeneration o then Some o else firstGeneration rest
  end.

(** The element-wise loop over an array value: an element is appended when
    it asserts to [map[string]any], and skipped otherwise. *)
Fixpoint appendObjects (messages : list Message) (items : list any) : list Message :=
  match items with
  | [] => messages
  | AnyMap msgMap :: rest => appendObjects (messages ++ [msgMap]) rest
  | _ :: rest => appendObjects messages rest
  end.

(** The block that adds the input: nothing for nil, the object elements for
    a [[]any], and otherwise one user message around the value. *)
Definition addInput (contextMessages : list Message) (input : any) : list Message :=
  match input with
  | AnyNil => contextMessages
  | AnySlice inputArray => appendObjects contextMessages inputArray
  | _ =>
      contextMessages ++ [({[ "role" := AnyString "user"; "content" := input ]} : Message)]
  end.

(** The block that adds the output: nothing for nil, the object elements for
    a [[]any], the object itself for a [map[string]any], and otherwise one
    assistant message around the value. *)
Definition addOutput (contextMessages : list Message) (output : any) : list Message :=
  match output with
  | AnyNil => contextMessages
  | AnySlice outputArray => appendObjects contextMessages outputArray
  | AnyMap outputMap => contextMessages ++ [outputMap]
  | _ =>
      contextMessages ++ [({[ "role" := AnyString "assistant"; "content" := output ]} : Message)]
  end.

(** The two sides an observation value can come from. *)
Inductive FieldRole := InputField | OutputField.

(** Normalisation of one value: the messages its block adds to an empty
    context. *)
Definition normalize (value : any) (fieldRole : FieldRole) : list Message :=
  match fieldRole with
  | InputField => addInput [] value
  | OutputField => addOutput [] value
  end.

(** How the program ends as far as the context is concerned: with the
    context messages, or in [log.Fatalf("No generation found in trace")]. *)
Inductive Outcome :=
  | ContextMessages (messages : list Message)
  | NoGenerationFound.

(** Step 2 of [main]: find the first generation, then input, then output. *)
Definition assembleContext (trace : TraceWithFullDetails) : Outcome :=
  match firstGeneration (Observations trace) with
  | None => NoGenerationFound
  | Some g => ContextMessages (addOutput (addInput [] (Input g)) (Output g))
  end.

(** The object elements of a list, as the specification words it. *)
Definition objectsOf (items : list any) : list Message :=
  omap (λ v, match v with AnyMap m => Some m | _ => None end) items.

(** A scalar: a string, a number or a boolean. *)
Definition isScalar (v : any) : bool :=
  match v with
  | AnyBool _ | AnyFloat64 _ | AnyString _ => true
  | _ => false
  end.

Definition defaultRole (fieldRole : FieldRole) : string :=
  match fieldRole with
  | InputField => "user"
  | OutputField => "assistant"
  end.

End Fetch.

(* ===================================================================== *)
(** * The replay context: data model, builder, projection                 *)
(* ===================================================================== *)

Module Replay.
Import Go.

(** ** The data model

    One record per struct; a field [F] of struct [T] is the projection
    [T_F]. *)

Record ModelConfig := {
  ModelConfig_Model : string;
  ModelConfig_BaseURL : string;
  ModelConfig_Temperature : float64;
  ModelConfig_MaxTokens : Z;
  ModelConfig_TopP : float64;
  ModelConfig_FrequencyPenalty : float64;
  ModelConfig_PresencePenalty : float64;
  ModelConfig_ExtraParams : gomap
}.

Record SystemPrompt := {
  SystemPrompt_Content : string;
  SystemPrompt_Role : string;
  SystemPrompt_Metadata : gomap
}.

Record ToolDefinition := {
  ToolDefinition_Type : string;
  ToolDefinition_Function : gomap
}.

Record UserMessage := {
  UserMessage_Role : string;
  UserMessage_Content : string
}.

Record LLMResponse := {
  LLMResponse_Role : string;
  LLMResponse_Content : string;
  LLMResponse_ToolCalls : bool;
  LLMResponse_Reasoning : string;
  LLMResponse_FinishReason : string
}.

Record ToolCallExecution := {
  ToolCallExecution_ToolName : string;
  ToolCallExecution_ToolID : string;
  ToolCallExecution_Arguments : gomap;
  ToolCallExecution_Result : string;
  ToolCallExecution_StartTime : string;
  ToolCallExecution_EndTime : string;
  ToolCallExecution_DurationMs : Z;
  ToolCallExecution_Success : bool;
  ToolCallExecution_Error : string
}.

Record TokenUsage := {
  TokenUsage_PromptTokens : Z;
  TokenUsage_CompletionTokens : Z;
  TokenUsage_TotalTokens : Z
}.

(** The tool calls of a turn are the caller's slice; no operation of the
    builder writes to it, so a turn holds it by its elements. *)
Record ConversationTurn := {
  ConversationTurn_Round : Z;
  ConversationTurn_Timestamp : string;
  ConversationTurn_TurnID : string;
  ConversationTurn_UserInput : UserMessage;
  ConversationTurn_LLMResponse : LLMResponse;
  ConversationTurn_ToolCalls : slice ToolCallExecution;
  ConversationTurn_TokenUsage : TokenUsage
}.

Record SessionMetadata := {
  SessionMetadata_Environment : string;
  SessionMetadata_Tags : slice string;
  SessionMetadata_CustomFields : gomap;
  SessionMetadata_ResponseTimeMs : Z;
  SessionMetadata_TotalCost : float64;
  SessionMetadata_AdditionalInfo : gomap
}.

(** The struct [ReplayContext].  Its two slices of structs are shared with
    the builder that made it, so the record is given for both readings of a
    slice field: [S := λ _, Slice] is the struct as it lies in memory, with
    slice headers; [S := slice] is what a reader of those headers sees. *)
Record ReplayContextOf (S : Type → Type) := {
  ReplayContext_SessionID : string;
  ReplayContext_UserID : string;
  ReplayContext_TraceID : string;
  ReplayContext_Timestamp : Time;
  ReplayContext_ModelConfig : ModelConfig;
  ReplayContext_SystemPrompt : SystemPrompt;
  ReplayContext_Tools : S ToolDefinition;
  ReplayContext_ConversationHistory : S ConversationTurn;
  ReplayContext_Metadata : SessionMetadata
}.
Arguments ReplayContext_SessionID {S} _.
Arguments ReplayContext_UserID {S} _.
Arguments ReplayContext_TraceID {S} _.
Arguments ReplayContext_Timestamp {S} _.
Arguments ReplayContext_ModelConfig {S} _.
Arguments ReplayContext_SystemPrompt {S} _.
Arguments ReplayContext_Tools {S} _.
Arguments ReplayContext_ConversationHistory {S} _.
Arguments ReplayContext_Metadata {S} _.

Abbreviation ReplayContext := (ReplayContextOf slice).
Abbreviation ReplayContextRef := (ReplayContextOf (λ _, Slice)).

(** Zero values of the structs. *)
Global Instance ModelConfig_Zero : Zero ModelConfig :=
  {| ModelConfig_Model := zero; ModelConfig_BaseURL := zero;
     ModelConfig_Temperature := zero; ModelConfig_MaxTokens := zero;
     ModelConfig_TopP := zero; ModelConfig_FrequencyPenalty := zero;
     ModelConfig_PresencePenalty := zero; ModelConfig_ExtraParams := zero |}.

Global Instance SystemPrompt_Zero : Zero SystemPrompt :=
  {| SystemPrompt_Content := zero; SystemPrompt_Role := zero;
     SystemPrompt_Metadata := zero |}.

Global Instance ToolDefinition_Zero : Zero ToolDefinition :=
  {| ToolDefinition_Type := zero; ToolDefinition_Function := zero |}.

Global Instance UserMessage_Zero : Zero UserMessage :=
  {| UserMessage_Role := zero; UserMessage_Content := zero |}.

Global Instance LLMResponse_Zero : Zero LLMResponse :=
  {| LLMResponse_Role := zero; LLMResponse_Content := zero;
     LLMResponse_ToolCalls := zero; LLMResponse_Reasoning := zero;
     LLMResponse_FinishReason := zero |}.

Global Instance ToolCallExecution_Zero : Zero ToolCallExecution :=
  {| ToolCallExecution_ToolName := zero; ToolCallExecution_ToolID := zero;
     ToolCallExecution_Arguments := zero; ToolCallExecution_Result := zero;
     ToolCallExecution_StartTime := zero; ToolCallExecution_EndTime := zero;
     ToolCallExecution_DurationMs := zero; ToolCallExecution_Success := zero;
     ToolCallExecution_Error := zero |}.

Global Instance TokenUsage_Zero : Zero TokenUsage :=
  {| TokenUsage_PromptTokens := zero; TokenUsage_CompletionTokens := zero;
     TokenUsage_TotalTokens := zero |}.

Global Instance ConversationTurn_Zero : Zero ConversationTurn :=
  {| ConversationTurn_Round := zero; ConversationTurn_Timestamp := zero;
     ConversationTurn_TurnID := zero; ConversationTurn_UserInput := zero;
     ConversationTurn_LLMResponse := zero; ConversationTurn_ToolCalls := zero;
     ConversationTurn_TokenUsage := zero |}.

Global Instance SessionMetadata_Zero : Zero SessionMetadata :=
  {| SessionMetadata_Environment := zero; SessionMetadata_Tags := zero;
     SessionMetadata_CustomFields := zero; SessionMetadata_ResponseTimeMs := zero;
     SessionMetadata_TotalCost := zero; SessionMetadata_AdditionalInfo := zero |}.

Global Instance ReplayContext_Zero : Zero ReplayContext :=
  {| ReplayContext_SessionID := zero; ReplayContext_UserID := zero;
     ReplayContext_TraceID := zero; ReplayContext_Timestamp := zero;
     ReplayContext_ModelConfig := zero; ReplayContext_SystemPrompt := zero;
     ReplayContext_Tools := zero; ReplayContext_ConversationHistory := zero;
     ReplayContext_Metadata := zero |}.

(** ** go-openai: the types the program takes from the library *)

Record FunctionDefinition := {
  FunctionDefinition_Name : string;
  FunctionDefinition_Description : string;
  FunctionDefinition_Parameters : any
}.

(** [Function] is a pointer and may be nil. *)
Record Tool := {
  Tool_Type : string;
  Tool_Function : option FunctionDefinition
}.

(** openai.ChatCompletionMessage: the three fields the program sets; every
    literal in the program leaves the others at their zero values. *)
Record ChatCompletionMessage := {
  Role : string;
  Content : string;
  ToolCallID : string
}.

Definition ChatMessageRoleSystem : string := "system".
Definition ChatMessageRoleUser : string := "user".
Definition ChatMessageRoleAssistant : string := "assistant".
Definition ChatMessageRoleTool : string := "tool".

(** ** The builder

    Of the reference types the builder holds, only its two slices of structs
    are ever written through: [AddTurn] appends to the history and
    [SetTools] fills a fresh array.  Maps are only ever replaced as a whole,
    so a map is held by its contents. *)

Record ContextBuilder := {
  sessionID : string;
  userID : string;
  modelConfig : ModelConfig;
  systemPrompt : SystemPrompt;
  tools : Slice;
  conversationCtx : Slice;
  baseURL : string
}.

(** The arrays behind the two slices of structs. *)
Record Heap := {
  toolArrays : memory ToolDefinition;
  turnArrays : memory ConversationTurn
}.

(** The builder lives behind one pointer: a state is the heap and the
    current value of the builder's struct. *)
Record State := { heap : Heap; builder : ContextBuilder }.

Definition NewContextBuilder (h : Heap) (userID baseURL model : string) : State :=
  let '(turns, ctx) := make (turnArrays h) 0 in
  {| heap := {| toolArrays := toolArrays h; turnArrays := turns |};
     builder :=
       {| sessionID := zero;
          userID := userID;
          modelConfig :=
            {| ModelConfig_Model := model;
               ModelConfig_BaseURL := baseURL;
               ModelConfig_Temperature := float64_0_7;
               ModelConfig_MaxTokens := 2000;
               ModelConfig_TopP := zero;
               ModelConfig_FrequencyPenalty := zero;
               ModelConfig_PresencePenalty := zero;
               ModelConfig_ExtraParams := zero |};
          systemPrompt := zero;
          tools := zero;
          conversationCtx := ctx;
          baseURL := baseURL |} |}.

Definition SetSessionID (st : State) (sessionID : string) : State :=
  let b := builder st in
  {| heap := heap st;
     builder :=
       {| sessionID := sessionID; userID := userID b; modelConfig := modelConfig b;
          systemPrompt := systemPrompt b; tools := tools b;
          conversationCtx := conversationCtx b; baseURL := baseURL b |} |}.

Definition SetSystemPrompt (st : State) (content : string) (metadata : gomap) : State :=
  let b := builder st in
  {| heap := heap st;
     builder :=
       {| sessionID := sessionID b; userID := userID b; modelConfig := modelConfig b;
          systemPrompt :=
            {| SystemPrompt_Content := content;
               SystemPrompt_Role := "system";
               SystemPrompt_Metadata := metadata |};
          tools := tools b;
          conversationCtx := conversationCtx b; baseURL := baseURL b |} |}.

(** The definition [SetTools] stores for one tool. *)
Definition toolDefinition (tool : Tool) (fn : FunctionDefinition) : ToolDefinition :=
  {| ToolDefinition_Type := Tool_Type tool;
     ToolDefinition_Function :=
       Some {[ "name" := AnyString (FunctionDefinition_Name fn);
               "description" := AnyString (FunctionDefinition_Description fn);
               "parameters" := FunctionDefinition_Parameters fn ]} |}.

(** The loop of [SetTools] from index [i] on.  Reading [tool.Function.Name]
    of a tool without a function dereferences nil: the loop stops there, in
    a panic ([false]), with the earlier elements stored. *)
Fixpoint fillTools (mem : memory ToolDefinition) (dst : Slice) (i : nat)
    (tools : list Tool) : memory ToolDefinition * bool :=
  match tools with
  | [] => (mem, true)
  | tool :: rest =>
      match Tool_Function tool with
      | None => (mem, false)
      | Some fn => fillTools (store mem dst i (toolDefinition tool fn)) dst (S i) rest
      end
  end.

(** A call returns, or panics in the state it had reached. *)
Inductive Outcome :=
  | Returns (st : State)
  | Panics (st : State).

Definition stateOf (o : Outcome) : State :=
  match o with Returns st | Panics st => st end.

Definition SetTools (st : State) (tools_ : slice Tool) : Outcome :=
  let b := builder st in
  let '(mem, dst) := make (toolArrays (heap st)) (len tools_) in
  let '(mem', ok) := fillTools mem dst 0 (elems tools_) in
  let st' :=
    {| heap := {| toolArrays := mem'; turnArrays := turnArrays (heap st) |};
       builder :=
         {| sessionID := sessionID b; userID := userID b; modelConfig := modelConfig b;
            systemPrompt := systemPrompt b; tools := dst;
            conversationCtx := conversationCtx b; baseURL := baseURL b |} |} in
  if ok then Returns st' else Panics st'.

Definition SetModelParams (st : State) (temperature : float64) (maxTokens : Z) : State :=
  let b := builder st in
  let c := modelConfig b in
  {| heap := heap st;
     builder :=
       {| sessionID := sessionID b; userID := userID b;
          modelConfig :=
            {| ModelConfig_Model := ModelConfig_Model c;
               ModelConfig_BaseURL := ModelConfig_BaseURL c;
               ModelConfig_Temperature := temperature;
               ModelConfig_MaxTokens := maxTokens;
               ModelConfig_TopP := ModelConfig_TopP c;
               ModelConfig_FrequencyPenalty := ModelConfig_FrequencyPenalty c;
               ModelConfig_PresencePenalty := ModelConfig_PresencePenalty c;
               ModelConfig_ExtraParams := ModelConfig_ExtraParams c |};
          systemPrompt := systemPrompt b; tools := tools b;
          conversationCtx := conversationCtx b; baseURL := baseURL b |} |}.

(** The turn [AddTurn] builds; [now] is the reading of time.Now. *)
Definition newTurn `{!Runtime} (now : Time) (round : Z) (userMsg assistantResp : string)
    (toolCalls : slice ToolCallExecution) (tokenUsage : TokenUsage)
    (traceID : string) : ConversationTurn :=
  {| ConversationTurn_Round := round;
     ConversationTurn_Timestamp := Format_RFC3339Nano now;
     ConversationTurn_TurnID := traceID;
     ConversationTurn_UserInput :=
       {| UserMessage_Role := "user"; UserMessage_Content := userMsg |};
     ConversationTurn_LLMResponse :=
       {| LLMResponse_Role := "assistant";
          LLMResponse_Content := assistantResp;
          LLMResponse_ToolCalls := bool_decide (0 < len toolCalls);
          LLMResponse_Reasoning := zero;
          LLMResponse_FinishReason := zero |};
     ConversationTurn_ToolCalls := toolCalls;
     ConversationTurn_TokenUsage := tokenUsage |}.

Definition AddTurn `{!Runtime} (st : State) (now : Time) (round : Z)
    (userMsg assistantResp : string) (toolCalls : slice ToolCallExecution)
    (tokenUsage : TokenUsage) (traceID : string) : State :=
  let b := builder st in
  let turn := newTurn now round userMsg assistantResp toolCalls tokenUsage traceID in
  let '(mem, ctx) := append growslice_extra (turnArrays (heap st)) (conversationCtx b) turn in
  {| heap := {| toolArrays := toolArrays (heap st); turnArrays := mem |};
     builder :=
       {| sessionID := sessionID b; userID := userID b; modelConfig := modelConfig b;
          systemPrompt := systemPrompt b; tools := tools b;
          conversationCtx := ctx; baseURL := baseURL b |} |}.

(** [Build]: the struct it returns copies the builder's slice headers. *)
Definition Build (st : State) (now : Time) (traceID : string) : ReplayContextRef :=
  let b := builder st in
  {| ReplayContext_SessionID := sessionID b;
     ReplayContext_UserID := userID b;
     ReplayContext_TraceID := traceID;
     ReplayContext_Timestamp := now;
     ReplayContext_ModelConfig := modelConfig b;
     ReplayContext_SystemPrompt := systemPrompt b;
     ReplayContext_Tools := tools b;
     ReplayContext_ConversationHistory := conversationCtx b;
     ReplayContext_Metadata :=
       {| SessionMetadata_Environment := zero;
          SessionMetadata_Tags := Some ["replay"; "chat"];
          SessionMetadata_CustomFields := zero;
          SessionMetadata_ResponseTimeMs := zero;
          SessionMetadata_TotalCost := zero;
          SessionMetadata_AdditionalInfo := zero |} |}.

(** What a reader of the struct sees in a given heap. *)
Definition load (h : Heap) (r : ReplayContextRef) : ReplayContext :=
  {| ReplayContext_SessionID := ReplayContext_SessionID r;
     ReplayContext_UserID := ReplayContext_UserID r;
     ReplayContext_TraceID := ReplayContext_TraceID r;
     ReplayContext_Timestamp := ReplayContext_Timestamp r;
     ReplayContext_ModelConfig := ReplayContext_ModelConfig r;
     ReplayContext_SystemPrompt := ReplayContext_SystemPrompt r;
     ReplayContext_Tools := read (toolArrays h) (ReplayContext_Tools r);
     ReplayContext_ConversationHistory :=
       read (turnArrays h) (ReplayContext_ConversationHistory r);
     ReplayContext_Metadata := ReplayContext_Metadata r |}.

(** The history the builder has accumulated. *)
Definition history (st : State) : list ConversationTurn :=
  elems (read (turnArrays (heap st)) (conversationCtx (builder st))).

(** A call on the builder, and a sequence of calls run one after the other;
    a panic ends the run. *)
Inductive Call :=
  | CallSetSessionID (sessionID : string)
  | CallSetSystemPrompt (content : string) (metadata : gomap)
  | CallSetTools (tools : slice Tool)
  | CallSetModelParams (temperature : float64) (maxTokens : Z)
  | CallAddTurn (now : Time) (round : Z) (userMsg assistantResp : string)
      (toolCalls : slice ToolCallExecution) (tokenUsage : TokenUsage) (traceID : string).

Definition call `{!Runtime} (st : State) (c : Call) : Outcome :=
  match c with
  | CallSetSessionID s => Returns (SetSessionID st s)
  | CallSetSystemPrompt c m => Returns (SetSystemPrompt st c m)
  | CallSetTools ts => SetTools st ts
  | CallSetModelParams t m => Returns (SetModelParams st t m)
  | CallAddTurn now round u a tcs usage id => Returns (AddTurn st now round u a tcs usage id)
  end.

Fixpoint run `{!Runtime} (st : State) (calls : list Call) : Outcome :=
  match calls with
  | [] => Returns st
  | c :: rest =>
      match call st c with
      | Returns st' => run st' rest
      | Panics st' => Panics st'
      end
  end.

(** The arguments of one [AddTurn] apart from the round. *)
Record TurnArgs := {
  arg_now : Time;
  arg_userMsg : string;
  arg_assistantResp : string;
  arg_toolCalls : slice ToolCallExecution;
  arg_tokenUsage : TokenUsage;
  arg_traceID : string
}.

(** [AddTurn] called once per element, with rounds [first], [first+1], ... *)
Fixpoint addTurnsFrom `{!Runtime} (st : State) (first : Z) (args : list TurnArgs) : State :=
  match args with
  | [] => st
  | a :: rest =>
      addTurnsFrom
        (AddTurn st (arg_now a) first (arg_userMsg a) (arg_assistantResp a)
           (arg_toolCalls a) (arg_tokenUsage a) (arg_traceID a))
        (first + 1)%Z rest
  end.

(** ** The projection *)

Definition systemMessage (r : ReplayContext) : ChatCompletionMessage :=
  {| Role := ChatMessageRoleSystem;
     Content := SystemPrompt_Content (ReplayContext_SystemPrompt r);
     ToolCallID := zero |}.

Definition userMessage (turn : ConversationTurn) : ChatCompletionMessage :=
  {| Role := ChatMessageRoleUser;
     Content := UserMessage_Content (ConversationTurn_UserInput turn);
     ToolCallID := zero |}.

Definition assistantMessage (turn : ConversationTurn) : ChatCompletionMessage :=
  {| Role := ChatMessageRoleAssistant;
     Content := LLMResponse_Content (ConversationTurn_LLMResponse turn);
     ToolCallID := zero |}.

Definition toolMessage (tc : ToolCallExecution) : ChatCompletionMessage :=
  {| Role := ChatMessageRoleTool;
     Content := ToolCallExecution_Result tc;
     ToolCallID := ToolCallExecution_ToolID tc |}.

(** The body of the outer loop: two appends, then the inner loop. *)
Definition appendTurn (messages : list ChatCompletionMessage) (turn : ConversationTurn)
    : list ChatCompletionMessage :=
  let messages := messages ++ [userMessage turn] in
  let messages := messages ++ [assistantMessage turn] in
  foldl (λ messages tc, messages ++ [toolMessage tc]) messages
        (elems (ConversationTurn_ToolCalls turn)).

Definition ToOpenAIMessages (r : ReplayContext) : list ChatCompletionMessage :=
  foldl appendTurn [systemMessage r] (elems (ReplayContext_ConversationHistory r)).

(** The projection as the specification words it: a system message, then
    for each turn a user message, an assistant message and one tool message
    per tool call. *)
Definition turnMessages (turn : ConversationTurn) : list ChatCompletionMessage :=
  {| Role := "user";
     Content := UserMessage_Content (ConversationTurn_UserInput turn);
     ToolCallID := "" |}
  :: {| Role := "assistant";
        Content := LLMResponse_Content (ConversationTurn_LLMResponse turn);
        ToolCallID := "" |}
  :: map (λ tc, {| Role := "tool";
                   Content := ToolCallExecution_Result tc;
                   ToolCallID := ToolCallExecution_ToolID tc |})
         (elems (ConversationTurn_ToolCalls turn)).

Definition canonicalMessages (r : ReplayContext) : list ChatCompletionMessage :=
  {| Role := "system";
     Content := SystemPrompt_Content (ReplayContext_SystemPrompt r);
     ToolCallID := "" |}
  :: concat (map turnMessages (elems (ReplayContext_ConversationHistory r))).

Definition canonicalLength (r : ReplayContext) : nat :=
  1 + sum_list (map (λ turn, 2 + len (ConversationTurn_ToolCalls turn))
                    (elems (ReplayContext_ConversationHistory r))).

(** ** Recording a tool execution

    The struct literal the tool loop of [main] appends for one executed tool
    call: its name and id, the decoded arguments, the result, and the two
    clock readings taken around the execution. *)
Definition recordToolExecution `{!Runtime} (name id : string) (argsMap : gomap)
    (result : string) (toolStartTime toolEndTime : Time) : ToolCallExecution :=
  {| ToolCallExecution_ToolName := name;
     ToolCallExecution_ToolID := id;
     ToolCallExecution_Arguments := argsMap;
     ToolCallExecution_Result := result;
     ToolCallExecution_StartTime := Format_RFC3339Nano toolStartTime;
     ToolCallExecution_EndTime := Format_RFC3339Nano toolEndTime;
     ToolCallExecution_DurationMs :=
       Duration_Milliseconds (Time_Sub toolEndTime toolStartTime);
     ToolCallExecution_Success := true;
     ToolCallExecution_Error := zero |}.

(** One executed tool call of a round: what [executeTool] was given and
    returned, and the clock readings around it. *)
Record ToolRun := {
  run_name : string;
  run_id : string;
  run_argsMap : gomap;
  run_result : string;
  run_start : Time;
  run_end : Time
}.

(** The tool loop of [main] as far as [toolExecutions] goes: the variable is
    nil when the assistant asked for no tool, and otherwise gets one record
    appended per tool call, whatever the tool returned. *)
Definition recordToolExecutions `{!Runtime} (runs : list ToolRun) : slice ToolCallExecution :=
  match runs with
  | [] => None
  | _ =>
      Some (foldl (λ toolExecutions r,
                     toolExecutions
                     ++ [recordToolExecution (run_name r) (run_id r) (run_argsMap r)
                           (run_result r) (run_start r) (run_end r)])
                  [] runs)
  end.

End Replay.

(* ===================================================================== *)
(** * The replay context as a JSON document                               *)
(* ===================================================================== *)

(** [ToJSON] returns the indented text of a document; the embedding keeps the
    document the text denotes.  Each struct is written as an object with the
    member names of its json tags, and read back the way json.Unmarshal fills
    a struct: member by member, a missing member leaving the zero value. *)
Module Codec.
Import Go Replay.

(** A member with [omitempty]: when the field is empty the member is left
    out and its value is not even encoded. *)
Definition omitted (keep : bool) (name : string) (j : option json)
    (obj : gmap string json) : option (gmap string json) :=
  if keep then v ← j; Some (<[name := v]> obj) else Some obj.

(** A struct is read from an object; null leaves it at its zero value. *)
Definition unmarshalStruct {A} `{!Zero A} (f : gmap string json → option A)
    (j : json) : option A :=
  match j with
  | JNull => Some zero
  | JObject obj => f obj
  | _ => None
  end.

Definition marshalModelConfig (c : ModelConfig) : option json :=
  temperature ← marshalFloat64 (ModelConfig_Temperature c);
  topP ← marshalFloat64 (ModelConfig_TopP c);
  frequencyPenalty ← marshalFloat64 (ModelConfig_FrequencyPenalty c);
  presencePenalty ← marshalFloat64 (ModelConfig_PresencePenalty c);
  obj ← omitted (bool_decide (0 < maplen (ModelConfig_ExtraParams c)))
          "extra_params" (marshalMap (ModelConfig_ExtraParams c))
          {[ "model" := marshalString (ModelConfig_Model c);
             "base_url" := marshalString (ModelConfig_BaseURL c);
             "temperature" := temperature;
             "max_tokens" := JInt (ModelConfig_MaxTokens c);
             "top_p" := topP;
             "frequency_penalty" := frequencyPenalty;
             "presence_penalty" := presencePenalty ]};
  Some (JObject obj).

Definition unmarshalModelConfig : json → option ModelConfig :=
  unmarshalStruct (λ obj,
    model ← field unmarshalString "model" obj;
    baseURL ← field unmarshalString "base_url" obj;
    temperature ← field unmarshalFloat64 "temperature" obj;
    maxTokens ← field unmarshalInt "max_tokens" obj;
    topP ← field unmarshalFloat64 "top_p" obj;
    frequencyPenalty ← field unmarshalFloat64 "frequency_penalty" obj;
    presencePenalty ← field unmarshalFloat64 "presence_penalty" obj;
    extraParams ← field unmarshalMap "extra_params" obj;
    Some {| ModelConfig_Model := model;
            ModelConfig_BaseURL := baseURL;
            ModelConfig_Temperature := temperature;
            ModelConfig_MaxTokens := maxTokens;
            ModelConfig_TopP := topP;
            ModelConfig_FrequencyPenalty := frequencyPenalty;
            ModelConfig_PresencePenalty := presencePenalty;
            ModelConfig_ExtraParams := extraParams |}).

Definition marshalSystemPrompt (p : SystemPrompt) : option json :=
  obj ← omitted (bool_decide (0 < maplen (SystemPrompt_Metadata p)))
          "metadata" (marshalMap (SystemPrompt_Metadata p))
          {[ "content" := marshalString (SystemPrompt_Content p);
             "role" := marshalString (SystemPrompt_Role p) ]};
  Some (JObject obj).

Definition unmarshalSystemPrompt : json → option SystemPrompt :=
  unmarshalStruct (λ obj,
    content ← field unmarshalString "content" obj;
    role ← field unmarshalString "role" obj;
    metadata ← field unmarshalMap "metadata" obj;
    Some {| SystemPrompt_Content := content;
            SystemPrompt_Role := role;
            SystemPrompt_Metadata := metadata |}).

Definition marshalToolDefinition (d : ToolDefinition) : option json :=
  function ← marshalMap (ToolDefinition_Function d);
  Some (JObject {[ "type" := marshalString (ToolDefinition_Type d);
                   "function" := function ]}).

Definition unmarshalToolDefinition : json → option ToolDefinition :=
  unmarshalStruct (λ obj,
    type ← field unmarshalString "type" obj;
    function ← field unmarshalMap "function" obj;
    Some {| ToolDefinition_Type := type; ToolDefinition_Function := function |}).

Definition marshalUserMessage (m : UserMessage) : option json :=
  Some (JObject {[ "role" := marshalString (UserMessage_Role m);
                   "content" := marshalString (UserMessage_Content m) ]}).

Definition unmarshalUserMessage : json → option UserMessage :=
  unmarshalStruct (λ obj,
    role ← field unmarshalString "role" obj;
    content ← field unmarshalString "content" obj;
    Some {| UserMessage_Role := role; UserMessage_Content := content |}).

Definition marshalLLMResponse (m : LLMResponse) : option json :=
  obj ← omitted (bool_decide (LLMResponse_Reasoning m ≠ ""))
          "reasoning" (Some (marshalString (LLMResponse_Reasoning m)))
          {[ "role" := marshalString (LLMResponse_Role m);
             "content" := marshalString (LLMResponse_Content m);
             "tool_calls" := JBool (LLMResponse_ToolCalls m) ]};
  obj ← omitted (bool_decide (LLMResponse_FinishReason m ≠ ""))
          "finish_reason" (Some (marshalString (LLMResponse_FinishReason m))) obj;
  Some (JObject obj).

Definition unmarshalLLMResponse : json → option LLMResponse :=
  unmarshalStruct (λ obj,
    role ← field unmarshalString "role" obj;
    content ← field unmarshalString "content" obj;
    toolCalls ← field unmarshalBool "tool_calls" obj;
    reasoning ← field unmarshalString "reasoning" obj;
    finishReason ← field unmarshalString "finish_reason" obj;
    Some {| LLMResponse_Role := role;
            LLMResponse_Content := content;
            LLMResponse_ToolCalls := toolCalls;
            LLMResponse_Reasoning := reasoning;
            LLMResponse_FinishReason := finishReason |}).

Definition marshalToolCallExecution (e : ToolCallExecution) : option json :=
  arguments ← marshalMap (ToolCallExecution_Arguments e);
  obj ← omitted (bool_decide (ToolCallExecution_Error e ≠ ""))
          "error" (Some (marshalString (ToolCallExecution_Error e)))
          {[ "tool_name" := marshalString (ToolCallExecution_ToolName e);
             "tool_id" := marshalString (ToolCallExecution_ToolID e);
             "arguments" := arguments;
             "result" := marshalString (ToolCallExecution_Result e);
             "start_time" := marshalString (ToolCallExecution_StartTime e);
             "end_time" := marshalString (ToolCallExecution_EndTime e);
             "duration_ms" := JInt (ToolCallExecution_DurationMs e);
             "success" := JBool (ToolCallExecution_Success e) ]};
  Some (JObject obj).

Definition unmarshalToolCallExecution : json → option ToolCallExecution :=
  unmarshalStruct (λ obj,
    toolName ← field unmarshalString "tool_name" obj;
    toolID ← field unmarshalString "tool_id" obj;
    arguments ← field unmarshalMap "arguments" obj;
    result ← field unmarshalString "result" obj;
    startTime ← field unmarshalString "start_time" obj;
    endTime ← field unmarshalString "end_time" obj;
    durationMs ← field unmarshalInt "duration_ms" obj;
    success ← field unmarshalBool "success" obj;
    error ← field unmarshalString "error" obj;
    Some {| ToolCallExecution_ToolName := toolName;
            ToolCallExecution_ToolID := toolID;
            ToolCallExecution_Arguments := arguments;
            ToolCallExecution_Result := result;
            ToolCallExecution_StartTime := startTime;
            ToolCallExecution_EndTime := endTime;
            ToolCallExecution_DurationMs := durationMs;
            ToolCallExecution_Success := success;
            ToolCallExecution_Error := error |}).

Definition marshalTokenUsage (u : TokenUsage) : option json :=
  Some (JObject {[ "prompt_tokens" := JInt (TokenUsage_PromptTokens u);
                   "completion_tokens" := JInt (TokenUsage_CompletionTokens u);
                   "total_tokens" := JInt (TokenUsage_TotalTokens u) ]}).

Definition unmarshalTokenUsage : json → option TokenUsage :=
  unmarshalStruct (λ obj,
    promptTokens ← field unmarshalInt "prompt_tokens" obj;
    completionTokens ← field unmarshalInt "completion_tokens" obj;
    totalTokens ← field unmarshalInt "total_tokens" obj;
    Some {| TokenUsage_PromptTokens := promptTokens;
            TokenUsage_CompletionTokens := completionTokens;
            TokenUsage_TotalTokens := totalTokens |}).

Definition marshalConversationTurn (t : ConversationTurn) : option json :=
  userInput ← marshalUserMessage (ConversationTurn_UserInput t);
  llmResponse ← marshalLLMResponse (ConversationTurn_LLMResponse t);
  tokenUsage ← marshalTokenUsage (ConversationTurn_TokenUsage t);
  obj ← omitted (bool_decide (0 < len (ConversationTurn_ToolCalls t)))
          "tool_calls"
          (marshalSlice marshalToolCallExecution (ConversationTurn_ToolCalls t))
          {[ "round" := JInt (ConversationTurn_Round t);
             "timestamp" := marshalString (ConversationTurn_Timestamp t);
             "turn_id" := marshalString (ConversationTurn_TurnID t);
             "user_input" := userInput;
             "llm_response" := llmResponse;
             "token_usage" := tokenUsage ]};
  Some (JObject obj).

Definition unmarshalConversationTurn : json → option ConversationTurn :=
  unmarshalStruct (λ obj,
    round ← field unmarshalInt "round" obj;
    timestamp ← field unmarshalString "timestamp" obj;
    turnID ← field unmarshalString "turn_id" obj;
    userInput ← field unmarshalUserMessage "user_input" obj;
    llmResponse ← field unmarshalLLMResponse "llm_response" obj;
    toolCalls ← field (unmarshalSlice unmarshalToolCallExecution) "tool_calls" obj;
    tokenUsage ← field unmarshalTokenUsage "token_usage" obj;
    Some {| ConversationTurn_Round := round;
            ConversationTurn_Timestamp := timestamp;
            ConversationTurn_TurnID := turnID;
            ConversationTurn_UserInput := userInput;
            ConversationTurn_LLMResponse := llmResponse;
            ConversationTurn_ToolCalls := toolCalls;
            ConversationTurn_TokenUsage := tokenUsage |}).

Definition marshalSessionMetadata (m : SessionMetadata) : option json :=
  tags ← marshalSlice (λ s, Some (marshalString s)) (SessionMetadata_Tags m);
  obj ← omitted (bool_decide (0 < maplen (SessionMetadata_CustomFields m)))
          "custom_fields" (marshalMap (SessionMetadata_CustomFields m))
          {[ "environment" := marshalString (SessionMetadata_Environment m);
             "tags" := tags;
             "response_time_ms" := JInt (SessionMetadata_ResponseTimeMs m) ]};
  obj ← omitted (negb (float64_IsZero (SessionMetadata_TotalCost m)))
          "total_cost" (marshalFloat64 (SessionMetadata_TotalCost m)) obj;
  obj ← omitted (bool_decide (0 < maplen (SessionMetadata_AdditionalInfo m)))
          "additional_info" (marshalMap (SessionMetadata_AdditionalInfo m)) obj;
  Some (JObject obj).

Definition unmarshalSessionMetadata : json → option SessionMetadata :=
  unmarshalStruct (λ obj,
    environment ← field unmarshalString "environment" obj;
    tags ← field (unmarshalSlice unmarshalString) "tags" obj;
    customFields ← field unmarshalMap "custom_fields" obj;
    responseTimeMs ← field unmarshalInt "response_time_ms" obj;
    totalCost ← field unmarshalFloat64 "total_cost" obj;
    additionalInfo ← field unmarshalMap "additional_info" obj;
    Some {| SessionMetadata_Environment := environment;
            SessionMetadata_Tags := tags;
            SessionMetadata_CustomFields := customFields;
            SessionMetadata_ResponseTimeMs := responseTimeMs;
            SessionMetadata_TotalCost := totalCost;
            SessionMetadata_AdditionalInfo := additionalInfo |}).

(** [ToJSON]: json.MarshalIndent of the context, [None] when it returns an
    error. *)
Definition ToJSON `{!Runtime} (r : ReplayContext) : option json :=
  timestamp ← marshalTime (ReplayContext_Timestamp r);
  modelConfig ← marshalModelConfig (ReplayContext_ModelConfig r);
  systemPrompt ← marshalSystemPrompt (ReplayContext_SystemPrompt r);
  tools ← marshalSlice marshalToolDefinition (ReplayContext_Tools r);
  conversationHistory ←
    marshalSlice marshalConversationTurn (ReplayContext_ConversationHistory r);
  metadata ← marshalSessionMetadata (ReplayContext_Metadata r);
  Some (JObject
    {[ "session_id" := marshalString (ReplayContext_SessionID r);
       "user_id" := marshalString (ReplayContext_UserID r);
       "trace_id" := marshalString (ReplayContext_TraceID r);
       "timestamp" := timestamp;
       "model_config" := modelConfig;
       "system_prompt" := systemPrompt;
       "tools" := tools;
       "conversation_history" := conversationHistory;
       "metadata" := metadata ]}).

(** [json.Unmarshal(doc, &replayCtx)] on a fresh [ReplayContext], [None]
    when it returns an error. *)
Definition FromJSON `{!Runtime} : json → option ReplayContext :=
  unmarshalStruct (λ obj,
    sessionID ← field unmarshalString "session_id" obj;
    userID ← field unmarshalString "user_id" obj;
    traceID ← field unmarshalString "trace_id" obj;
    timestamp ← field unmarshalTime "timestamp" obj;
    modelConfig ← field unmarshalModelConfig "model_config" obj;
    systemPrompt ← field unmarshalSystemPrompt "system_prompt" obj;
    tools ← field (unmarshalSlice unmarshalToolDefinition) "tools" obj;
    conversationHistory ←
      field (unmarshalSlice unmarshalConversationTurn) "conversation_history" obj;
    metadata ← field unmarshalSessionMetadata "metadata" obj;
    Some {| ReplayContext_SessionID := sessionID;
            ReplayContext_UserID := userID;
            ReplayContext_TraceID := traceID;
            ReplayContext_Timestamp := timestamp;
            ReplayContext_ModelConfig := modelConfig;
            ReplayContext_SystemPrompt := systemPrompt;
            ReplayContext_Tools := tools;
            ReplayContext_ConversationHistory := conversationHistory;
            ReplayContext_Metadata := metadata |}).

(** ** What the round trip needs of a context *)

(** The integers of a context are Go integers, and its maps are written
    with numbers a float64 holds. *)
Definition readableToolCall (e : ToolCallExecution) : bool :=
  is_int64 (ToolCallExecution_DurationMs e)
  && decodableMap (ToolCallExecution_Arguments e).

Definition readableTurn (t : ConversationTurn) : bool :=
  is_int64 (ConversationTurn_Round t)
  && is_int64 (TokenUsage_PromptTokens (ConversationTurn_TokenUsage t))
  && is_int64 (TokenUsage_CompletionTokens (ConversationTurn_TokenUsage t))
  && is_int64 (TokenUsage_TotalTokens (ConversationTurn_TokenUsage t))
  && forallb readableToolCall (elems (ConversationTurn_ToolCalls t)).

Definition wellTyped (r : ReplayContext) : bool :=
  is_int64 (ModelConfig_MaxTokens (ReplayContext_ModelConfig r))
  && is_int64 (SessionMetadata_ResponseTimeMs (ReplayContext_Metadata r))
  && forallb readableTurn (elems (ReplayContext_ConversationHistory r))
  && decodableMap (ModelConfig_ExtraParams (ReplayContext_ModelConfig r))
  && decodableMap (SystemPrompt_Metadata (ReplayContext_SystemPrompt r))
  && forallb (λ d, decodableMap (ToolDefinition_Function d)) (elems (ReplayContext_Tools r))
  && decodableMap (SessionMetadata_CustomFields (ReplayContext_Metadata r))
  && decodableMap (SessionMetadata_AdditionalInfo (ReplayContext_Metadata r)).

(** The strings the projection shows are valid UTF-8. *)
Definition validToolCall (e : ToolCallExecution) : bool :=
  ValidString (ToolCallExecution_Result e) && ValidString (ToolCallExecution_ToolID e).

Definition validTurn (t : ConversationTurn) : bool :=
  ValidString (UserMessage_Content (ConversationTurn_UserInput t))
  && ValidString (LLMResponse_Content (ConversationTurn_LLMResponse t))
  && forallb validToolCall (elems (ConversationTurn_ToolCalls t)).

Definition validProjection (r : ReplayContext) : bool :=
  ValidString (SystemPrompt_Content (ReplayContext_SystemPrompt r))
  && forallb validTurn (elems (ReplayContext_ConversationHistory r)).

(** A message with its strings coerced to valid UTF-8. *)
Definition coerceMessage (m : ChatCompletionMessage) : ChatCompletionMessage :=
  {| Role := ToValidUTF8 (Role m);
     Content := ToValidUTF8 (Content m);
     ToolCallID := ToValidUTF8 (ToolCallID m) |}.

(** ** Contexts to evaluate on *)

(** A runtime to evaluate the definitions with: append doubles the capacity,
    an instant is rendered by its wall-clock nanoseconds in decimal, and
    every rendering reads back as the epoch. *)
Definition evalRuntime : Runtime :=
  {| growslice_extra := λ oldcap _, oldcap;
     Format_RFC3339Nano := λ t, pretty (wall t);
     Time_MarshalJSON := λ t, Some (pretty (wall t));
     Time_UnmarshalJSON := λ _, Some zero |}.

Definition exampleTurn (round : Z) (userMsg assistantResp : string)
    (toolCalls : slice ToolCallExecution) : ConversationTurn :=
  {| ConversationTurn_Round := round;
     ConversationTurn_Timestamp := "";
     ConversationTurn_TurnID := "";
     ConversationTurn_UserInput :=
       {| UserMessage_Role := "user"; UserMessage_Content := userMsg |};
     ConversationTurn_LLMResponse :=
       {| LLMResponse_Role := "assistant";
          LLMResponse_Content := assistantResp;
          LLMResponse_ToolCalls := bool_decide (0 < len toolCalls);
          LLMResponse_Reasoning := "";
          LLMResponse_FinishReason := "" |};
     ConversationTurn_ToolCalls := toolCalls;
     ConversationTurn_TokenUsage := zero |}.

Definition noopCall : ToolCallExecution :=
  {| ToolCallExecution_ToolName := "noop";
     ToolCallExecution_ToolID := "t1";
     ToolCallExecution_Arguments := None;
     ToolCallExecution_Result := "ok";
     ToolCallExecution_StartTime := "";
     ToolCallExecution_EndTime := "";
     ToolCallExecution_DurationMs := 0;
     ToolCallExecution_Success := true;
     ToolCallExecution_Error := "" |}.

(** A context with a given system prompt and history, and nothing else. *)
Definition contextOf (systemPrompt : string) (tools : slice ToolDefinition)
    (history : slice ConversationTurn) : ReplayContext :=
  {| ReplayContext_SessionID := "";
     ReplayContext_UserID := "";
     ReplayContext_TraceID := "";
     ReplayContext_Timestamp := zero;
     ReplayContext_ModelConfig := zero;
     ReplayContext_SystemPrompt :=
       {| SystemPrompt_Content := systemPrompt;
          SystemPrompt_Role := "system";
          SystemPrompt_Metadata := None |};
     ReplayContext_Tools := tools;
     ReplayContext_ConversationHistory := history;
     ReplayContext_Metadata := zero |}.

(** The example of the specification: system prompt "sys", the tool
    get_weather, and two turns, the second with one tool call. *)
Definition exampleContext : ReplayContext :=
  contextOf "sys"
    (Some [ {| ToolDefinition_Type := "function";
               ToolDefinition_Function := Some {[ "name" := AnyString "get_weather" ]} |} ])
    (Some [ exampleTurn 1 "Hi" "Hello" None;
            exampleTurn 2 "Bye" "Goodbye" (Some [noopCall]) ]).

Definition exampleMessages : list ChatCompletionMessage :=
  [ {| Role := "system"; Content := "sys"; ToolCallID := "" |};
    {| Role := "user"; Content := "Hi"; ToolCallID := "" |};
    {| Role := "assistant"; Content := "Hello"; ToolCallID := "" |};
    {| Role := "user"; Content := "Bye"; ToolCallID := "" |};
    {| Role := "assistant"; Content := "Goodbye"; ToolCallID := "" |};
    {| Role := "tool"; Content := "ok"; ToolCallID := "t1" |} ].

(** A context whose system prompt is the single byte 0xFF, which is not
    valid UTF-8. *)
Definition invalidContext : ReplayContext :=
  contextOf (String (ascii_of_nat 255) EmptyString) None (Some []).

(** A context whose extra parameters hold the json.Number 1e999: a number
    json.Marshal writes as it is, and that no float64 holds. *)
Definition unreadableContext : ReplayContext :=
  {| ReplayContext_SessionID := "";
     ReplayContext_UserID := "";
     ReplayContext_TraceID := "";
     ReplayContext_Timestamp := zero;
     ReplayContext_ModelConfig :=
       {| ModelConfig_Model := "";
          ModelConfig_BaseURL := "";
          ModelConfig_Temperature := zero;
          ModelConfig_MaxTokens := 0;
          ModelConfig_TopP := zero;
          ModelConfig_FrequencyPenalty := zero;
          ModelConfig_PresencePenalty := zero;
          ModelConfig_ExtraParams := Some {[ "x" := AnyOther (JInt (10 ^ 999)) ]} |};
     ReplayContext_SystemPrompt :=
       {| SystemPrompt_Content := "sys";
          SystemPrompt_Role := "system";
          SystemPrompt_Metadata := None |};
     ReplayContext_Tools := None;
     ReplayContext_ConversationHistory := Some [];
     ReplayContext_Metadata := zero |}.

End Codec.

(* ===================================================================== *)
(** * examples/replay: configuration, tools and the rounds of [main]      *)
(* ===================================================================== *)

Module ReplayMain.
Import Go Replay.

(** ** Configuration *)

(** os.Getenv on an environment: a variable that is not set reads as the
    empty string. *)
Definition Getenv (environ : gmap string string) (key : string) : string :=
  default "" (environ !! key).

Definition getEnv (environ : gmap string string) (key defaultValue : string) : string :=
  let v := Getenv environ key in
  if bool_decide (v ≠ "") then v else defaultValue.

Record Config := {
  LangfusePublicKey : string;
  LangfuseSecretKey : string;
  LangfuseBaseURL : string;
  OpenAIKey : string;
  OpenAIBaseURL : string;
  OpenAIModel : string
}.

Definition LoadConfig (environ : gmap string string) : Config :=
  {| LangfusePublicKey :=
       getEnv environ "LANGFUSE_PUBLIC_KEY" "pk-lf-613f327a-210d-492d-9b0e-1d15ff456dba";
     LangfuseSecretKey :=
       getEnv environ "LANGFUSE_SECRET_KEY" "sk-lf-dd707fbc-d87d-497a-86c0-7a464af5cfca";
     LangfuseBaseURL := getEnv environ "LANGFUSE_BASE_URL" "http://192.168.0.55:3000";
     OpenAIKey := getEnv environ "OPENAI_API_KEY" "sk-04c945475f0b481faab28d27521b9192";
     OpenAIBaseURL := getEnv environ "OPENAI_BASE_URL" "https://api.deepseek.com/v1";
     OpenAIModel := getEnv environ "OPENAI_MODEL" "deepseek-chat" |}.

(** The condition of the first statement of [main], under which it stops in
    log.Fatal. *)
Definition keysMissing (cfg : Config) : bool :=
  bool_decide (LangfusePublicKey cfg = "")
  || bool_decide (LangfuseSecretKey cfg = "")
  || bool_decide (OpenAIKey cfg = "").

(** ** Tools *)

(** openai.ToolCall, with the fields the program reads. *)
Record FunctionCall := {
  FunctionCall_Name : string;
  FunctionCall_Arguments : string
}.

Record ToolCall := {
  ToolCall_ID : string;
  ToolCall_Function : FunctionCall
}.

(** What the embedding takes from encoding/json and fmt without fixing it:
    the map json.Unmarshal leaves in a nil [map[string]any] variable for a
    text (both callers drop its error), and the rendering of a float64 by
    the verb [%.2f]. *)
Class Text := {
  Unmarshal : string → gomap;
  Sprintf_2f : float64 → string
}.

(** Indexing a map: the zero value for a missing key, and for a nil map. *)
Definition index (m : gomap) (key : string) : any :=
  default AnyNil (m ≫= (.!! key)).

(** The type assertions [v.(string)] and [v.(float64)] in their two-valued
    form, the flag dropped: the zero value when the assertion fails. *)
Definition asString (v : any) : string :=
  match v with AnyString s => s | _ => "" end.

Definition asFloat64 (v : any) : float64 :=
  match v with AnyFloat64 f => f | _ => float64_zero end.

Definition weatherData : gmap string string :=
  {[ "北京" := "22°C, 晴天"; "上海" := "26°C, 多云"; "Tokyo" := "20°C, Rainy" ]}.

Definition executeTool `{!Text} (toolCall : ToolCall) : string :=
  let args := Unmarshal (FunctionCall_Arguments (ToolCall_Function toolCall)) in
  let name := FunctionCall_Name (ToolCall_Function toolCall) in
  if decide (name = "get_weather") then
    let city := asString (index args "city") in
    match weatherData !! city with
    | Some w => "Weather in " +:+ city +:+ ": " +:+ w
    | None => "Weather for " +:+ city +:+ ": unavailable"
    end
  else if decide (name = "calculator") then
    let op := asString (index args "operation") in
    let a := asFloat64 (index args "a") in
    let b := asFloat64 (index args "b") in
    if decide (op = "add") then Sprintf_2f (SFadd 53 1024 a b)
    else if decide (op = "subtract") then Sprintf_2f (SFsub 53 1024 a b)
    else if decide (op = "multiply") then Sprintf_2f (SFmul 53 1024 a b)
    else if decide (op = "divide") then
      if SFeqb b float64_zero then "Error: division by zero"
      else Sprintf_2f (SFdiv 53 1024 a b)
    else Sprintf_2f float64_zero
  else "Unknown tool: " +:+ name.

(** ** The rounds of [main] *)

Record Usage := {
  Usage_PromptTokens : Z;
  Usage_CompletionTokens : Z;
  Usage_TotalTokens : Z
}.

(** A message of the live conversation, which a literal of the program or
    the API has made: the three fields the program's literals set, the tool
    calls, and, of the fields of openai.ChatCompletionMessage the program
    never names (Name, Refusal, FunctionCall and the others the library
    has), those that are set, by name. *)
Record LiveMessage := {
  message : ChatCompletionMessage;
  ToolCalls : slice ToolCall;
  Others : gmap string any
}.

(** openai.ChatCompletionResponse: the message of each choice, and the
    usage. *)
Record ChatCompletionResponse := {
  Choices : list LiveMessage;
  ResponseUsage : Usage
}.

(** What the outside world does in one round: whether the trace is created
    and with which id, what the two completion requests return ([None] is an
    error), and the clock readings around each tool and in [AddTurn]. *)
Record RoundEvents := {
  traceCreated : option string;
  firstCompletion : option ChatCompletionResponse;
  toolClock : nat → Time * Time;
  secondCompletion : option ChatCompletionResponse;
  turnClock : Time
}.

Record Question := { question : string; category : string }.

(** The two variables the rounds share. *)
Record Loop := {
  messages : list LiveMessage;
  contextBuilder : State
}.

(** A round ends (normally or by [continue]), or panics on [Choices[0]] of
    a response without choices. *)
Inductive Round :=
  | Continues (l : Loop)
  | IndexPanics (l : Loop).

Definition loopOf (r : Round) : Loop :=
  match r with Continues l | IndexPanics l => l end.

Definition literal (role content toolCallID : string) : LiveMessage :=
  {| message := {| Role := role; Content := content; ToolCallID := toolCallID |};
     ToolCalls := None;
     Others := ∅ |}.

(** One pass of the tool loop, as far as [toolExecutions] goes. *)
Definition toolRun `{!Text} (tc : ToolCall) (clock : Time * Time) : ToolRun :=
  {| run_name := FunctionCall_Name (ToolCall_Function tc);
     run_id := ToolCall_ID tc;
     run_argsMap := Unmarshal (FunctionCall_Arguments (ToolCall_Function tc));
     run_result := executeTool tc;
     run_start := clock.1;
     run_end := clock.2 |}.

Definition toolRuns `{!Text} (toolCalls : list ToolCall) (clock : nat → Time * Time)
    : list ToolRun :=
  imap (λ j tc, toolRun tc (clock j)) toolCalls.

(** The end of a round: [AddTurn] with the usage of the first response. *)
Definition finishRound `{!Runtime} (i : nat) (qa : Question) (ev : RoundEvents)
    (traceID : string) (usage : Usage) (messages : list LiveMessage) (st : State)
    (finalAnswer : string) (toolExecutions : slice ToolCallExecution) : Round :=
  let tokenUsage :=
    {| TokenUsage_PromptTokens := Usage_PromptTokens usage;
       TokenUsage_CompletionTokens := Usage_CompletionTokens usage;
       TokenUsage_TotalTokens := Usage_TotalTokens usage |} in
  Continues
    {| messages := messages;
       contextBuilder :=
         AddTurn st (turnClock ev) (Z.of_nat i + 1) (question qa) finalAnswer
           toolExecutions tokenUsage traceID |}.

(** The body of the loop over the questions, for the question of index [i]. *)
Definition round `{!Runtime} `{!Text} (i : nat) (qa : Question) (ev : RoundEvents)
    (l : Loop) : Round :=
  match traceCreated ev with
  | None => Continues l
  | Some traceID =>
      let messages := messages l ++ [literal ChatMessageRoleUser (question qa) ""] in
      match firstCompletion ev with
      | None => Continues {| messages := messages; contextBuilder := contextBuilder l |}
      | Some resp =>
          match Choices resp with
          | [] => IndexPanics {| messages := messages; contextBuilder := contextBuilder l |}
          | assistantMsg :: _ =>
              let messages := messages ++ [assistantMsg] in
              let usage := ResponseUsage resp in
              if bool_decide (0 < len (ToolCalls assistantMsg)) then
                let toolExecutions :=
                  recordToolExecutions
                    (toolRuns (elems (ToolCalls assistantMsg)) (toolClock ev)) in
                let messages :=
                  foldl (λ messages tc,
                           messages
                           ++ [literal ChatMessageRoleTool (executeTool tc) (ToolCall_ID tc)])
                        messages (elems (ToolCalls assistantMsg)) in
                match secondCompletion ev with
                | None =>
                    Continues {| messages := messages; contextBuilder := contextBuilder l |}
                | Some resp2 =>
                    match Choices resp2 with
                    | [] =>
                        IndexPanics
                          {| messages := messages; contextBuilder := contextBuilder l |}
                    | finalMsg :: _ =>
                        finishRound i qa ev traceID usage (messages ++ [finalMsg])
                          (contextBuilder l) (Content (message finalMsg)) toolExecutions
                    end
                end
              else
                finishRound i qa ev traceID usage messages (contextBuilder l)
                  (Content (message assistantMsg)) None
          end
      end
  end.

(** The loop from index [i] on; [events i] is what happens in round [i]. *)
Fixpoint rounds `{!Runtime} `{!Text} (i : nat) (questions : list Question)
    (events : nat → RoundEvents) (l : Loop) : Round :=
  match questions with
  | [] => Continues l
  | qa :: rest =>
      match round i qa (events i) l with
      | Continues l' => rounds (S i) rest events l'
      | IndexPanics l' => IndexPanics l'
      end
  end.

(** What [main] sets up before the loop.  The lists of names in the
    parameters of the tools are of type []string. *)
Definition systemPromptText : string :=
  "Use get_weather for weather queries, calculator for math.".

Definition tools : slice Tool :=
  Some
    [ {| Tool_Type := "function";
         Tool_Function :=
           Some {| FunctionDefinition_Name := "get_weather";
                   FunctionDefinition_Description := "Get weather for a city";
                   FunctionDefinition_Parameters :=
                     AnyMap {[ "type" := AnyString "object";
                               "properties" :=
                                 AnyMap {[ "city" :=
                                   AnyMap {[ "type" := AnyString "string";
                                             "description" := AnyString "City name" ]} ]};
                               "required" := AnyOther (JArray [JString "city"]) ]} |} |};
      {| Tool_Type := "function";
         Tool_Function :=
           Some {| FunctionDefinition_Name := "calculator";
                   FunctionDefinition_Description :=
                     "Calculate: add, subtract, multiply, divide";
                   FunctionDefinition_Parameters :=
                     AnyMap {[ "type" := AnyString "object";
                               "properties" :=
                                 AnyMap {[ "operation" :=
                                   AnyMap {[ "type" := AnyString "string";
                                             "enum" :=
                                               AnyOther
                                                 (JArray [JString "add"; JString "subtract";
                                                          JString "multiply";
                                                          JString "divide"]) ]};
                                           "a" := AnyMap {[ "type" := AnyString "number" ]};
                                           "b" := AnyMap {[ "type" := AnyString "number" ]} ]};
                               "required" :=
                                 AnyOther (JArray [JString "operation"; JString "a";
                                                   JString "b"]) ]} |} |} ].

Definition questions : list Question :=
  [ {| question := "北京的天气怎么样？"; category := "weather" |};
    {| question := "1加1等于多少？"; category := "math" |};
    {| question := "今年是哪一年？"; category := "general" |} ].

Definition setup (h : Heap) (cfg : Config) (sessionID : string) : Outcome :=
  let st := NewContextBuilder h "user-replay-demo-123" (OpenAIBaseURL cfg) (OpenAIModel cfg) in
  let st := SetSessionID st sessionID in
  let st :=
    SetSystemPrompt st systemPromptText
      (Some {[ "version" := AnyString "1.0"; "purpose" := AnyString "tool-use-demo" ]}) in
  SetTools st tools.

Definition start (h : Heap) (cfg : Config) (sessionID : string) : Loop :=
  {| messages := [literal ChatMessageRoleSystem systemPromptText ""];
     contextBuilder := stateOf (setup h cfg sessionID) |}.

End ReplayMain.

(* ===================================================================== *)
(** * examples/fetch: the request sent to the replay API, and previews    *)
(* ===================================================================== *)

Module FetchMain.
Import Go Fetch.

(** How step 3 of [main] ends as far as the request body goes: with the
    document it posts, in log.Fatalf, or in the panic of an assignment to an
    entry of a nil map. *)
Inductive Prepared :=
  | RequestBody (doc : json)
  | FailedToParse
  | FailedToMarshal
  | NilMapPanics.

(** [contextMessages], a [[]map[string]any] that is never nil, as a value. *)
Definition historyValue (contextMessages : list Message) : any :=
  AnySlice (AnyMap <$> contextMessages).

(** From the template to the request body; [template] is the document the
    template file holds, [None] when the file is not JSON. *)
Definition prepareRequest (template : option json) (contextMessages : list Message)
    : Prepared :=
  match template ≫= unmarshalMap with
  | None => FailedToParse
  | Some None => NilMapPanics
  | Some (Some requestBody) =>
      let requestBody := <["history" := historyValue contextMessages]> requestBody in
      match marshalAny (AnyMap requestBody) with
      | None => FailedToMarshal
      | Some doc => RequestBody doc
      end
  end.

(** [truncateString]: slicing beyond the bounds of the string panics
    ([None]). *)
Definition truncateString (s : string) (maxLen : Z) : option string :=
  if (Z.of_nat (String.length s) <=? maxLen)%Z then Some s
  else if (maxLen <? 0)%Z then None
  else Some (substring 0 (Z.to_nat maxLen) s +:+ "...").

End FetchMain.

(* ===================================================================== *)
(** * examples/advanced: the report of failed events                      *)
(* ===================================================================== *)

Module Advanced.

(** The lines the report prints, by their format and arguments. *)
Inductive Line (A : Type) :=
  | Found (count : nat)
  | Failed (number : nat) (fe : A)
  | AndMore (count : Z)
  | NoFailedEvents.
Arguments Found {A}.
Arguments Failed {A}.
Arguments AndMore {A}.
Arguments NoFailedEvents {A}.

(** The loop over the failed events from index [i] on, with its [break]. *)
Fixpoint failedLines {A} (total : nat) (i : nat) (events : list A) : list (Line A) :=
  match events with
  | [] => []
  | fe :: rest =>
      if bool_decide (5 ≤ i) then [AndMore (Z.of_nat total - 5)]
      else Failed (i + 1) fe :: failedLines total (S i) rest
  end.

Definition failedEventsReport {A} (failedEvents : list A) : list (Line A) :=
  if bool_decide (0 < length failedEvents)
  then Found (length failedEvents) :: failedLines (length failedEvents) 0 failedEvents
  else [NoFailedEvents].

End Advanced.

(* ===================================================================== *)
(** * Properties of the fetch pipeline                                    *)
(* ===================================================================== *)

Section FetchProperties.
Import Go Fetch.

(** The element loop adds the object elements behind what it was given. *)
Lemma appendObjects_objectsOf (items : list any) (messages : list Message) :
  appendObjects messages items = messages ++ objectsOf items.
Proof.
  revert messages.
  induction items as [|v items IH]; intros messages; simpl.
  - by rewrite app_nil_r.
  - destruct v; rewrite IH; try done.
    by rewrite <- app_assoc.
Qed.





Lemma firstGeneration_some (obs : list ObservationDetails) (g : ObservationDetails) :
  firstGeneration obs = Some g →
  ∃ pre post, obs = pre ++ g :: post
    ∧ Forall (λ o, Type_ o ≠ "GENERATION") pre ∧ Type_ g = "GENERATION".
Proof.
  induction obs as [|o obs IH]; simpl; [done|].
  unfold isGeneration. case_bool_decide as Ho.
  - intros [= ->]. by exists [], obs.
  - intros (pre & post & -> & Hpre & Hg)%IH.
    exists (o :: pre), post. split; [done|]. split; [by constructor|done].
Qed.

(** The running example of the specification: a string, a message, a number
    and another message. *)
Definition exampleUser : Message :=
  {[ "role" := AnyString "user"; "content" := AnyString "hi" ]}.

Definition exampleTool : Message :=
  {[ "role" := AnyString "tool"; "content" := AnyString "x" ]}.

Definition exampleArray : any :=
  AnySlice [AnyString "a"; AnyMap exampleUser;
            AnyFloat64 (float64_of_Z 3); AnyMap exampleTool].

(** An object without a role. *)
Definition rolelessObject : Message := {[ "content" := AnyString "hi" ]}.

(** C3 (the code at the input that breaks the claim).  An object on the
    output side is emitted as it is, as one message.  The same object on the
    input side is not: the input block has no case for an object, so it
    wraps the object as the content of a message with role "user".  For the
    object [{"content": "hi"}], which has no role, the message emitted on
    the input side has a role, and is not the object. *)
Theorem normalize_object_input_is_wrapped :
  (∀ m : Message, normalize (AnyMap m) OutputField = [m])
  ∧ (∀ m : Message,
       normalize (AnyMap m) InputField
       = [ ({[ "role" := AnyString "user"; "content" := AnyMap m ]} : Message) ])
  ∧ normalize (AnyMap rolelessObject) InputField ≠ [rolelessObject]
  ∧ (∃ msg, normalize (AnyMap rolelessObject) InputField = [msg]
            ∧ msg !! "role" = Some (AnyString "user")
            ∧ rolelessObject !! "role" = None).
Proof.
  split; [done|]. split; [done|]. split.
  - intros H.
    apply (f_equal (λ l : list Message, l !! 0 ≫= λ m, m !! "role")) in H.
    vm_compute in H. discriminate.
  - eexists. split; [reflexivity|]. split; reflexivity.
Qed.


(** C7.  An array value, on either side, yields exactly its elements that
    are objects, in their order; the other elements are dropped. *)
Theorem normalize_array_keeps_objects (items : list any) (fieldRole : FieldRole) :
  normalize (AnySlice items) fieldRole = objectsOf items
  ∧ (∀ m, m ∈ normalize (AnySlice items) fieldRole ↔ AnyMap m ∈ items)
  ∧ normalize exampleArray fieldRole = [exampleUser; exampleTool].
Proof.
  assert (Heq : normalize (AnySlice items) fieldRole = objectsOf items).
  { destruct fieldRole; simpl; by rewrite appendObjects_objectsOf. }
  split; [done|]. split.
  - intros m. rewrite Heq. unfold objectsOf. rewrite list_elem_of_omap. split.
    + intros (v & Hv & Hm). destruct v; simplify_eq. done.
    + intros Hm. by exists (AnyMap m).
  - by destruct fieldRole.
Qed.

(** C8.  A scalar yields one synthesized message, with role "user" on the
    input side and "assistant" on the output side and the scalar as its
    content; nil yields no message; and normalisation is a total function:
    every value has a message list, of at most one message unless the value
    is an array. *)
Theorem normalize_scalar_nil_total (fieldRole : FieldRole) :
  (∀ v, isScalar v = true →
     normalize v fieldRole
     = [ ({[ "role" := AnyString (defaultRole fieldRole); "content" := v ]} : Message) ])
  ∧ normalize AnyNil fieldRole = []
  ∧ (∀ v, ∃ messages, normalize v fieldRole = messages
       ∧ ((∃ items, v = AnySlice items) ∨ length messages ≤ 1)).
Proof.
  split; [|split].
  - intros v Hv. destruct fieldRole, v; done.
  - by destruct fieldRole.
  - intros v. eexists. split; [done|].
    destruct fieldRole, v; simpl; eauto.
Qed.

(** The trace of the specification's example: a span, then a generation
    with input "Q" and output "A". *)
Definition spanObservation : ObservationDetails :=
  {| ID := "o1"; Type_ := "SPAN"; Name := None; Model := None;
     StartTime := ""; EndTime := None; Input := AnyNil; Output := AnyNil |}.

Definition generationObservation : ObservationDetails :=
  {| ID := "o2"; Type_ := "GENERATION"; Name := None; Model := None;
     StartTime := ""; EndTime := None;
     Input := AnyString "Q"; Output := AnyString "A" |}.

Definition exampleTrace : TraceWithFullDetails :=
  {| TraceID := "trace";
     Observations := [spanObservation; generationObservation] |}.


Lemma normalize_scalar_nil_total_witness :
  normalize (AnyString "Hello") InputField
  = [ ({[ "role" := AnyString "user"; "content" := AnyString "Hello" ]} : Message) ].
Proof.
  destruct (normalize_scalar_nil_total InputField) as [Hscalar _].
  apply (Hscalar (AnyString "Hello")). reflexivity.
Defined.

End FetchProperties.

(* ===================================================================== *)
(** * Slices over a shared memory                                         *)
(* ===================================================================== *)

Section MemoryProperties.
Import Go.
Context {A : Type} `{!Zero A}.
Implicit Types (mem : memory A) (s : Slice) (x : A).

(** A header is well formed in a memory when its array is there, has the
    header's capacity, and the length does not exceed the capacity. *)
Definition wfSlice mem s : Prop :=
  match s with
  | None => True
  | Some h => ∃ arr, mem !! array h = Some arr ∧ length arr = hcap h ∧ hlen h ≤ hcap h
  end.

Definition allocated mem s : Prop :=
  match s with
  | None => True
  | Some h => array h < length mem
  end.

(** [s0] lies behind [s]: if both name the same array, [s0] is no longer
    than [s], so that an append to [s] writes beyond what [s0] shows. *)
Definition behind (s0 s : Slice) : Prop :=
  match s0, s with
  | Some h0, Some h => array h0 = array h → hlen h0 ≤ hlen h
  | _, _ => True
  end.

Lemma wfSlice_allocated mem s : wfSlice mem s → allocated mem s.
Proof.
  destruct s as [h|]; simpl; [|done].
  intros (arr & Harr & _). by eapply lookup_lt_Some.
Qed.

Lemma behind_refl s : behind s s.
Proof. destruct s; simpl; auto. Qed.

Lemma make_wf mem n mem' s :
  make mem n = (mem', s) →
  wfSlice mem' s ∧ length mem' = S (length mem)
  ∧ (∀ k, k < length mem → mem' !! k = mem !! k)
  ∧ read mem' s = Some (replicate n zero)
  ∧ (∃ h, s = Some h ∧ array h = length mem ∧ hlen h = n).
Proof.
  unfold make. intros [= <- <-]. simpl.
  assert (Hnew : (mem ++ [replicate n zero]) !! length mem = Some (replicate n zero)).
  { by rewrite lookup_app_r, Nat.sub_diag by done. }
  split; [|split; [|split; [|split]]].
  - exists (replicate n zero). by rewrite length_replicate.
  - rewrite length_app. simpl. lia.
  - intros k Hk. by rewrite lookup_app_l.
  - rewrite Hnew. simpl. by rewrite take_ge by (by rewrite length_replicate).
  - by eexists.
Qed.

(** An append shows the old elements followed by the new one. *)
Lemma append_read extra mem s x mem' s' :
  wfSlice mem s →
  append extra mem s x = (mem', s') →
  read mem' s' = Some (elems (read mem s) ++ [x]) ∧ wfSlice mem' s'.
Proof.
  unfold append. intros Hwf. case_decide as Hcap.
  - destruct s as [h|]; simpl in *; [|lia].
    destruct Hwf as (arr & Harr & Hlen & Hle).
    intros [= <- <-]. simpl.
    rewrite list_lookup_alter_eq, Harr. simpl. split.
    + f_equal. erewrite take_S_r; [|by apply list_lookup_insert_eq; lia].
      by rewrite take_insert_ge by lia.
    + exists (<[hlen h:=x]> arr). by rewrite length_insert.
  - intros [= <- <-]. simpl.
    rewrite lookup_app_r, Nat.sub_diag by done. simpl.
    assert (Hold : length (elems (read mem s)) = Slice_len s).
    { destruct s as [h|]; simpl in *; [|done].
      destruct Hwf as (arr & -> & Hlen & Hle). simpl.
      rewrite length_take. lia. }
    split.
    + f_equal.
      rewrite (cons_middle x _ (replicate _ _)), app_assoc.
      apply take_app_length'. rewrite length_app. simpl. lia.
    + eexists. split; [done|]. simpl. split; [|lia].
      rewrite length_app. simpl. rewrite length_replicate. lia.
Qed.

(** An append does not change what a header behind it shows. *)
Lemma append_frame extra mem s x mem' s' s0 :
  allocated mem s → allocated mem s0 → behind s0 s →
  append extra mem s x = (mem', s') →
  read mem' s0 = read mem s0
  ∧ allocated mem' s0 ∧ allocated mem' s' ∧ behind s0 s'.
Proof.
  unfold append. intros Hs Hs0 Hb. case_decide as Hcap.
  - destruct s as [h|]; simpl in *; [|lia].
    intros [= <- <-]. split; [|split; [|split]].
    + destruct s0 as [h0|]; simpl in *; [|done]. f_equal.
      rewrite list_lookup_alter. case_decide as Heq; [|done].
      rewrite <- Heq. destruct (mem !! array h) as [arr|]; simpl; [|done].
      rewrite take_insert_ge; [done|]. by apply Hb.
    + destruct s0 as [h0|]; simpl in *; [|done]. by rewrite length_alter.
    + simpl. by rewrite length_alter.
    + destruct s0 as [h0|]; simpl in *; [|done]. intros Heq. specialize (Hb Heq). lia.
  - intros [= <- <-]. split; [|split; [|split]].
    + destruct s0 as [h0|]; simpl in *; [|done]. by rewrite lookup_app_l.
    + destruct s0 as [h0|]; simpl in *; [|done]. rewrite length_app. lia.
    + simpl. rewrite length_app. simpl. lia.
    + destruct s0 as [h0|]; simpl in *; [|done]. lia.
Qed.

(** A store changes one array only. *)
Lemma store_other mem s i x k :
  (∀ h, s = Some h → array h ≠ k) → store mem s i x !! k = mem !! k.
Proof.
  destruct s as [h|]; simpl; [|done].
  intros Hne. apply list_lookup_alter_ne. by apply Hne.
Qed.

Lemma store_length mem s i x : length (store mem s i x) = length mem.
Proof. destruct s; simpl; [apply length_alter|done]. Qed.

End MemoryProperties.

(* ===================================================================== *)
(** * Properties of the builder                                           *)
(* ===================================================================== *)

Section BuilderProperties.
Import Go Replay.
Context `{!Runtime}.

(** The invariant of a builder: its history header is well formed and its
    tools header names an allocated array. *)
Definition wfState (st : State) : Prop :=
  wfSlice (turnArrays (heap st)) (conversationCtx (builder st))
  ∧ allocated (toolArrays (heap st)) (tools (builder st)).

(** A snapshot's headers [t0] and [c0] keep showing the elements [vt] and
    [vc] in the state [st], and lie where later calls cannot reach them. *)
Definition keeps (t0 c0 : Slice) (vt : slice ToolDefinition)
    (vc : slice ConversationTurn) (st : State) : Prop :=
  allocated (toolArrays (heap st)) t0
  ∧ read (toolArrays (heap st)) t0 = vt
  ∧ allocated (turnArrays (heap st)) c0
  ∧ allocated (turnArrays (heap st)) (conversationCtx (builder st))
  ∧ behind c0 (conversationCtx (builder st))
  ∧ read (turnArrays (heap st)) c0 = vc.

(** The calls other than [SetSystemPrompt]. *)
Definition leavesSystemPrompt (c : Call) : bool :=
  match c with
  | CallSetSystemPrompt _ _ => false
  | _ => true
  end.

Lemma read_ext {A} (mem mem' : memory A) (s : Slice) :
  allocated mem s → (∀ k, k < length mem → mem' !! k = mem !! k) →
  read mem' s = read mem s.
Proof.
  destruct s as [h|]; simpl; [|done].
  intros Hh Hext. by rewrite Hext.
Qed.

Lemma allocated_mono {A} (mem mem' : memory A) (s : Slice) :
  allocated mem s → length mem ≤ length mem' → allocated mem' s.
Proof. destruct s; simpl; [lia|done]. Qed.

(** The loop of [SetTools] writes to the destination array only. *)
Lemma fillTools_frame (ts : list Tool) mem dst i mem' ok :
  fillTools mem dst i ts = (mem', ok) →
  length mem' = length mem
  ∧ ∀ k, (∀ h, dst = Some h → array h ≠ k) → mem' !! k = mem !! k.
Proof.
  revert mem i. induction ts as [|tool ts IH]; intros mem i; simpl.
  - by intros [= <- <-].
  - destruct (Tool_Function tool) as [fn|]; [|by intros [= <- <-]].
    intros [Hlen Hext]%IH. split.
    + by rewrite Hlen, store_length.
    + intros k Hk. by rewrite Hext, store_other.
Qed.

(** [SetTools] replaces the tools header by a fresh array and leaves every
    other array, and every other field of the builder, as it was. *)
Lemma SetTools_frame (st : State) (ts : slice Tool) :
  let st' := stateOf (SetTools st ts) in
  turnArrays (heap st') = turnArrays (heap st)
  ∧ conversationCtx (builder st') = conversationCtx (builder st)
  ∧ systemPrompt (builder st') = systemPrompt (builder st)
  ∧ modelConfig (builder st') = modelConfig (builder st)
  ∧ sessionID (builder st') = sessionID (builder st)
  ∧ length (toolArrays (heap st)) < length (toolArrays (heap st'))
  ∧ (∀ k, k < length (toolArrays (heap st)) →
       toolArrays (heap st') !! k = toolArrays (heap st) !! k)
  ∧ allocated (toolArrays (heap st')) (tools (builder st')).
Proof.
  unfold SetTools.
  destruct (make (toolArrays (heap st)) (len ts)) as [mem dst] eqn:Hmake.
  destruct (fillTools mem dst 0 (elems ts)) as [mem' ok] eqn:Hfill.
  apply make_wf in Hmake as (Hwf & Hlen & Hext & _ & (h & -> & Harr & _)).
  apply fillTools_frame in Hfill as [Hlen' Hext'].
  assert (Hgoal : ∀ st0, st0 = {|
      heap := {| toolArrays := mem'; turnArrays := turnArrays (heap st) |};
      builder := {| sessionID := sessionID (builder st); userID := userID (builder st);
                    modelConfig := modelConfig (builder st);
                    systemPrompt := systemPrompt (builder st); tools := Some h;
                    conversationCtx := conversationCtx (builder st);
                    baseURL := baseURL (builder st) |} |} →
    turnArrays (heap st0) = turnArrays (heap st)
    ∧ conversationCtx (builder st0) = conversationCtx (builder st)
    ∧ systemPrompt (builder st0) = systemPrompt (builder st)
    ∧ modelConfig (builder st0) = modelConfig (builder st)
    ∧ sessionID (builder st0) = sessionID (builder st)
    ∧ length (toolArrays (heap st)) < length (toolArrays (heap st0))
    ∧ (∀ k, k < length (toolArrays (heap st)) →
         toolArrays (heap st0) !! k = toolArrays (heap st) !! k)
    ∧ allocated (toolArrays (heap st0)) (tools (builder st0))).
  { intros st0 ->. simpl. repeat (split; [done || lia|]). split.
    - intros k Hk. rewrite Hext'; [by apply Hext|].
      intros h' [= <-]. lia.
    - lia. }
  destruct ok; exact (Hgoal _ eq_refl).
Qed.

Lemma NewContextBuilder_wf (h : Heap) (userID baseURL model : string) :
  wfState (NewContextBuilder h userID baseURL model).
Proof.
  unfold NewContextBuilder, wfState.
  destruct (make (turnArrays h) 0) as [mem ctx] eqn:Hmake.
  apply make_wf in Hmake as (Hwf & _). by simpl.
Qed.

Lemma NewContextBuilder_history (h : Heap) (userID baseURL model : string) :
  history (NewContextBuilder h userID baseURL model) = [].
Proof.
  unfold NewContextBuilder, history.
  destruct (make (turnArrays h) 0) as [mem ctx] eqn:Hmake.
  apply make_wf in Hmake as (_ & _ & _ & Hread & _). simpl. by rewrite Hread.
Qed.

(** [AddTurn] appends exactly the turn it builds. *)
Lemma AddTurn_history (st : State) now round userMsg assistantResp toolCalls tokenUsage traceID :
  wfState st →
  history (AddTurn st now round userMsg assistantResp toolCalls tokenUsage traceID)
  = history st
    ++ [newTurn now round userMsg assistantResp toolCalls tokenUsage traceID]
  ∧ wfState (AddTurn st now round userMsg assistantResp toolCalls tokenUsage traceID).
Proof.
  intros [Hwf Htools]. unfold AddTurn, history, wfState.
  destruct (append _ _ _ _) as [mem ctx] eqn:Happ.
  apply append_read in Happ as [Hread Hwf']; [|done].
  simpl. by rewrite Hread.
Qed.

Lemma call_wf (st : State) (c : Call) : wfState st → wfState (stateOf (call st c)).
Proof.
  intros Hwf. destruct c; simpl; try done.
  - pose proof (SetTools_frame st tools0) as (Hturns & Hctx & _ & _ & _ & _ & _ & Halloc).
    destruct Hwf as [Hwf _]. unfold wfState. by rewrite Hturns, Hctx.
  - by apply AddTurn_history.
Qed.

Lemma run_wf (calls : list Call) (st : State) :
  wfState st → wfState (stateOf (run st calls)).
Proof.
  revert st. induction calls as [|c calls IH]; intros st Hwf; simpl; [done|].
  pose proof (call_wf st c Hwf) as Hc.
  destruct (call st c); simpl in *; [by apply IH|done].
Qed.

(** Every state a builder can reach is well formed. *)
Lemma reachable_wf (h : Heap) (userID baseURL model : string) (calls : list Call) :
  wfState (stateOf (run (NewContextBuilder h userID baseURL model) calls)).
Proof. apply run_wf, NewContextBuilder_wf. Qed.

(** No call disturbs what a snapshot's headers show. *)
Lemma call_keeps t0 c0 vt vc (st : State) (c : Call) :
  keeps t0 c0 vt vc st → keeps t0 c0 vt vc (stateOf (call st c)).
Proof.
  intros (Ht & Hvt & Hc & Hcur & Hb & Hvc). destruct c; simpl; try done.
  - pose proof (SetTools_frame st tools0) as (Hturns & Hctx & _ & _ & _ & Hlen & Hext & _).
    unfold keeps. rewrite Hturns, Hctx. split; [|split; [|done]].
    + eapply allocated_mono; [done|lia].
    + by rewrite (read_ext _ _ _ Ht Hext).
  - unfold AddTurn, keeps.
    destruct (append _ _ _ _) as [mem ctx] eqn:Happ.
    eapply (append_frame _ _ _ _ _ _ c0) in Happ as (Hread & Hc' & Hcur' & Hb'); try done.
    simpl. by rewrite Hread.
Qed.

Lemma run_keeps t0 c0 vt vc (calls : list Call) (st : State) :
  keeps t0 c0 vt vc st → keeps t0 c0 vt vc (stateOf (run st calls)).
Proof.
  revert st. induction calls as [|c calls IH]; intros st Hk; simpl; [done|].
  pose proof (call_keeps _ _ _ _ st c Hk) as Hc.
  destruct (call st c); simpl in *; [by apply IH|done].
Qed.

(** A well-formed state keeps its own headers. *)
Lemma wfState_keeps (st : State) :
  wfState st →
  keeps (tools (builder st)) (conversationCtx (builder st))
        (read (toolArrays (heap st)) (tools (builder st)))
        (read (turnArrays (heap st)) (conversationCtx (builder st))) st.
Proof.
  intros [Hwf Htools]. unfold keeps.
  pose proof (wfSlice_allocated _ _ Hwf) as Halloc.
  repeat (split; [done|]). split; [apply behind_refl|done].
Qed.

(** Calls other than [SetSystemPrompt] leave the system prompt alone. *)
Lemma run_systemPrompt (calls : list Call) (st : State) :
  forallb leavesSystemPrompt calls = true →
  systemPrompt (builder (stateOf (run st calls))) = systemPrompt (builder st).
Proof.
  revert st. induction calls as [|c calls IH]; intros st; simpl; [done|].
  intros [Hc Hrest]%andb_prop.
  assert (Hcall : systemPrompt (builder (stateOf (call st c))) = systemPrompt (builder st)).
  { destruct c; simpl in *; try done.
    - by pose proof (SetTools_frame st tools0) as (_ & _ & -> & _).
    - unfold AddTurn. by destruct (append _ _ _ _). }
  destruct (call st c); simpl in *; [by rewrite IH|done].
Qed.

(** Turns added one after the other, with rounds counted from [first]. *)
Lemma addTurnsFrom_history (args : list TurnArgs) (st : State) (first : Z) :
  wfState st →
  history (addTurnsFrom st first args)
  = history st
    ++ imap (λ i a, newTurn (arg_now a) (first + Z.of_nat i) (arg_userMsg a)
                      (arg_assistantResp a) (arg_toolCalls a) (arg_tokenUsage a)
                      (arg_traceID a)) args.
Proof.
  revert st first. induction args as [|a args IH]; intros st first Hwf; simpl.
  - by rewrite app_nil_r.
  - destruct (AddTurn_history st (arg_now a) first (arg_userMsg a) (arg_assistantResp a)
                (arg_toolCalls a) (arg_tokenUsage a) (arg_traceID a) Hwf) as [Hh Hwf'].
    rewrite IH, Hh, <- app_assoc by done. simpl. rewrite Z.add_0_r.
    do 2 f_equal. apply imap_ext. intros i a' _. simpl.
    by replace (first + 1 + Z.of_nat i)%Z with (first + Z.of_nat (S i))%Z by lia.
Qed.

End BuilderProperties.

(* ===================================================================== *)
(** * Properties of the replay context                                    *)
(* ===================================================================== *)

Section ReplayProperties.
Import Go Replay.
Context `{!Runtime}.

Lemma toolMessages_foldl (tcs : list ToolCallExecution) (messages : list ChatCompletionMessage) :
  foldl (λ messages tc, messages ++ [toolMessage tc]) messages tcs
  = messages ++ map toolMessage tcs.
Proof.
  revert messages. induction tcs as [|tc tcs IH]; intros messages; simpl.
  - by rewrite app_nil_r.
  - by rewrite IH, <- app_assoc.
Qed.

Lemma appendTurn_turnMessages (messages : list ChatCompletionMessage) (turn : ConversationTurn) :
  appendTurn messages turn = messages ++ turnMessages turn.
Proof.
  unfold appendTurn, turnMessages. rewrite toolMessages_foldl.
  by rewrite <- !app_assoc.
Qed.

Lemma appendTurn_foldl (turns : list ConversationTurn) (messages : list ChatCompletionMessage) :
  foldl appendTurn messages turns = messages ++ concat (map turnMessages turns).
Proof.
  revert messages. induction turns as [|turn turns IH]; intros messages; simpl.
  - by rewrite app_nil_r.
  - by rewrite IH, appendTurn_turnMessages, <- app_assoc.
Qed.

Lemma ToOpenAIMessages_canonical (r : ReplayContext) :
  ToOpenAIMessages r = canonicalMessages r.
Proof. unfold ToOpenAIMessages. by rewrite appendTurn_foldl. Qed.

Lemma canonicalMessages_length (r : ReplayContext) :
  length (canonicalMessages r) = canonicalLength r.
Proof.
  unfold canonicalMessages, canonicalLength. simpl. f_equal.
  induction (elems (ReplayContext_ConversationHistory r)) as [|turn turns IH]; simpl; [done|].
  rewrite length_app, IH. simpl. rewrite length_map. done.
Qed.

(** C2.  The projection is exactly: one system message with the system
    prompt's content; then, turn by turn in stored order, a user message
    with the user input's content, an assistant message with the response's
    content, and one tool message per tool call in recorded order, with the
    call's result as content and its tool id as tool_call_id.  There is no
    other message: the length is 1 plus, over the turns, 2 plus the number of
    tool calls. *)
Theorem ToOpenAIMessages_emits_canonical (r : ReplayContext) :
  ToOpenAIMessages r = canonicalMessages r
  ∧ length (ToOpenAIMessages r) = canonicalLength r.
Proof.
  split; [apply ToOpenAIMessages_canonical|].
  rewrite ToOpenAIMessages_canonical. apply canonicalMessages_length.
Qed.

(** C5.  On a fresh builder, [AddTurn] called [n] times with the rounds 1, 2,
    ..., n leaves a history of length [n] whose element [i] has round [i+1].
    And the round is stored as given: in any state the builder can reach,
    [AddTurn] with any round appends exactly one turn, which carries that
    round. *)
Theorem AddTurn_rounds (h : Heap) (userID baseURL model : string)
    (args : list TurnArgs) (calls : list Call)
    (now : Time) (round : Z) (userMsg assistantResp : string)
    (toolCalls : slice ToolCallExecution) (tokenUsage : TokenUsage) (traceID : string) :
  let fresh := NewContextBuilder h userID baseURL model in
  (length (history (addTurnsFrom fresh 1 args)) = length args
   ∧ ∀ i turn, history (addTurnsFrom fresh 1 args) !! i = Some turn →
       ConversationTurn_Round turn = (Z.of_nat i + 1)%Z)
  ∧ (let st := stateOf (run fresh calls) in
     ∃ turn,
       history (AddTurn st now round userMsg assistantResp toolCalls tokenUsage traceID)
       = history st ++ [turn]
       ∧ ConversationTurn_Round turn = round).
Proof.
  intros fresh. split.
  - rewrite addTurnsFrom_history by apply NewContextBuilder_wf.
    unfold fresh. rewrite NewContextBuilder_history. simpl. split.
    + by rewrite length_imap.
    + intros i turn. rewrite list_lookup_imap.
      destruct (args !! i) as [a|]; simpl; [|done].
      intros [= <-]. simpl. lia.
  - intros st. eexists. split.
    + apply AddTurn_history. apply reachable_wf.
    + done.
Qed.

(** C6.  [Build] captures the builder's configuration and the whole history
    accumulated so far; and whatever calls are made on the builder
    afterwards, a reader of the snapshot sees what it saw before: the same
    tools and history, hence the same context and the same projection. *)
Theorem Build_snapshot_unaffected (h : Heap) (userID baseURL model : string)
    (before after : list Call) (now : Time) (traceID : string) :
  let st := stateOf (run (NewContextBuilder h userID baseURL model) before) in
  let snapshot := Build st now traceID in
  let st' := stateOf (run st after) in
  (ReplayContext_SessionID snapshot = sessionID (builder st)
   ∧ ReplayContext_TraceID snapshot = traceID
   ∧ ReplayContext_ModelConfig snapshot = modelConfig (builder st)
   ∧ ReplayContext_SystemPrompt snapshot = systemPrompt (builder st)
   ∧ ReplayContext_Tools (load (heap st) snapshot)
     = read (toolArrays (heap st)) (tools (builder st))
   ∧ elems (ReplayContext_ConversationHistory (load (heap st) snapshot)) = history st)
  ∧ load (heap st') snapshot = load (heap st) snapshot
  ∧ ToOpenAIMessages (load (heap st') snapshot)
    = ToOpenAIMessages (load (heap st) snapshot).
Proof.
  intros st snapshot st'.
  split; [done|].
  assert (Hload : load (heap st') snapshot = load (heap st) snapshot).
  { pose proof (reachable_wf h userID baseURL model before) as Hwf.
    fold st in Hwf.
    pose proof (run_keeps _ _ _ _ after st (wfState_keeps st Hwf))
      as (_ & Htools & _ & _ & _ & Hturns).
    fold st' in Htools, Hturns.
    unfold load, snapshot, Build. simpl. by rewrite Htools, Hturns. }
  split; [done|]. by rewrite Hload.
Qed.

Lemma subMono_exact (s e : Z) :
  (0 ≤ s)%Z → (s ≤ e)%Z → (e ≤ maxInt64)%Z → subMono e s = (e - s)%Z.
Proof.
  unfold maxInt64. intros Hs Hse He. unfold subMono, wrap64.
  rewrite Z.mod_small by lia.
  replace (e - s + 2 ^ 63 - 2 ^ 63)%Z with (e - s)%Z by lia.
  destruct (Z.ltb_spec (e - s) 0); [lia|].
  destruct (Z.ltb_spec e s); [lia|].
  by rewrite andb_false_r.
Qed.

(** The tool loop records every executed call. *)
Lemma recordToolExecutions_all (runs : list ToolRun) :
  elems (recordToolExecutions runs)
  = map (λ r, recordToolExecution (run_name r) (run_id r) (run_argsMap r)
                (run_result r) (run_start r) (run_end r)) runs.
Proof.
  assert (Hfold : ∀ acc,
    foldl (λ toolExecutions r,
             toolExecutions
             ++ [recordToolExecution (run_name r) (run_id r) (run_argsMap r)
                   (run_result r) (run_start r) (run_end r)]) acc runs
    = acc ++ map (λ r, recordToolExecution (run_name r) (run_id r) (run_argsMap r)
                         (run_result r) (run_start r) (run_end r)) runs).
  { induction runs as [|r runs IH]; intros acc; simpl.
    - by rewrite app_nil_r.
    - by rewrite IH, <- app_assoc. }
  destruct runs as [|r runs]; [done|].
  unfold recordToolExecutions, elems. cbn [default from_option]. by rewrite Hfold.
Qed.

(** C10.  The projection of any context begins with a system message, and
    has the canonical length.  For a context built by a builder on which
    [SetSystemPrompt] was never called, that first message is a system
    message with empty content. *)
Theorem ToOpenAIMessages_system_first (r : ReplayContext)
    (h : Heap) (userID baseURL model : string) (calls : list Call)
    (now : Time) (traceID : string) :
  (ToOpenAIMessages r !! 0
   = Some {| Role := "system";
             Content := SystemPrompt_Content (ReplayContext_SystemPrompt r);
             ToolCallID := "" |}
   ∧ length (ToOpenAIMessages r) = canonicalLength r)
  ∧ (forallb leavesSystemPrompt calls = true →
     let st := stateOf (run (NewContextBuilder h userID baseURL model) calls) in
     let built := load (heap st) (Build st now traceID) in
     ToOpenAIMessages built !! 0
     = Some {| Role := "system"; Content := ""; ToolCallID := "" |}
     ∧ length (ToOpenAIMessages built) = canonicalLength built).
Proof.
  assert (Hany : ∀ r : ReplayContext,
    ToOpenAIMessages r !! 0
    = Some {| Role := "system";
              Content := SystemPrompt_Content (ReplayContext_SystemPrompt r);
              ToolCallID := "" |}
    ∧ length (ToOpenAIMessages r) = canonicalLength r).
  { intros r'. rewrite ToOpenAIMessages_canonical. split; [done|].
    apply canonicalMessages_length. }
  split; [apply Hany|].
  intros Hcalls st built. destruct (Hany built) as [Hfirst Hlen].
  split; [|done]. rewrite Hfirst. unfold built, load, Build. simpl.
  unfold st. rewrite run_systemPrompt by done.
  unfold NewContextBuilder. by destruct (make _ _).
Qed.

End ReplayProperties.

(* ===================================================================== *)
(** * Properties of the JSON codec                                        *)
(* ===================================================================== *)

Section CodecProperties.
Import Go Replay Codec.
Context `{!Runtime}.

(** ** Strings *)

Lemma coerceFrom_valid (s : string) (pending : nat) :
  validFrom pending s = true → coerceFrom pending s = s.
Proof.
  revert pending. induction s as [|c s IH]; intros pending; [done|].
  destruct pending as [|k]; cbn [validFrom coerceFrom].
  - destruct (runeSize (String c s)); [done|]. intros Hv. by rewrite IH.
  - intros Hv. by rewrite IH.
Qed.

Lemma ToValidUTF8_valid (s : string) : ValidString s = true → ToValidUTF8 s = s.
Proof. apply coerceFrom_valid. Qed.

Fixpoint any_size (v : any) : nat :=
  match v with
  | AnySlice l => S (sum_list (any_size <$> l))
  | AnyMap m => S (map_fold (λ _ n acc, n + acc) 0 (any_size <$> m))
  | _ => 1
  end.

Lemma map_sum_lookup (M : gmap string nat) (k : string) (n : nat) :
  M !! k = Some n → n ≤ map_fold (λ _ n acc, n + acc) 0 M.
Proof.
  induction M as [|i x M Hi IH] using map_ind; [done|].
  rewrite map_fold_insert_L; [|intros; lia|done].
  rewrite lookup_insert. case_decide as Hk.
  - intros [= ->]. lia.
  - intros Hn. specialize (IH Hn). lia.
Qed.

Lemma sum_list_elem (l : list nat) (n : nat) : n ∈ l → n ≤ sum_list l.
Proof.
  induction 1 as [|x y l _ IH]; simpl; lia.
Qed.


Lemma any_ind' (P : any → Prop) :
  P AnyNil → (∀ b, P (AnyBool b)) → (∀ f, P (AnyFloat64 f)) →
  (∀ s, P (AnyString s)) →
  (∀ l, Forall P l → P (AnySlice l)) →
  (∀ m, map_Forall (λ _, P) m → P (AnyMap m)) →
  P AnyOpaque → (∀ j, P (AnyOther j)) → ∀ v, P v.
Proof.
  intros Hnil Hbool Hfloat Hstr Hslice Hmap Hop Hother v.
  remember (any_size v) as n eqn:Hn. revert v Hn.
  induction n as [n IH] using lt_wf_ind. intros v ->.
  destruct v as [| | | |l|m| |j]; auto.
  - apply Hslice, Forall_forall. intros x Hx.
    apply (IH (any_size x)); [|done]. simpl.
    assert (any_size x ≤ sum_list (any_size <$> l)); [|lia].
    by apply sum_list_elem, list_elem_of_fmap_2.
  - apply Hmap. intros k x Hk.
    apply (IH (any_size x)); [|done]. simpl.
    assert (any_size x ≤ map_fold (λ _ n acc, n + acc) 0 (any_size <$> m)); [|lia].
    apply (map_sum_lookup _ k). by rewrite lookup_fmap, Hk.
Qed.

Fixpoint json_size (j : json) : nat :=
  match j with
  | JArray l => S (sum_list (json_size <$> l))
  | JObject m => S (map_fold (λ _ n acc, n + acc) 0 (json_size <$> m))
  | _ => 1
  end.

Lemma json_ind' (P : json → Prop) :
  P JNull → (∀ b, P (JBool b)) → (∀ z, P (JInt z)) → (∀ f, P (JFloat f)) →
  (∀ s, P (JString s)) →
  (∀ l, Forall P l → P (JArray l)) →
  (∀ m, map_Forall (λ _, P) m → P (JObject m)) →
  ∀ j, P j.
Proof.
  intros Hnull Hbool Hint Hfloat Hstr Harr Hobj j.
  remember (json_size j) as n eqn:Hn. revert j Hn.
  induction n as [n IH] using lt_wf_ind. intros j ->.
  destruct j as [| | | | |l|m]; auto.
  - apply Harr, Forall_forall. intros x Hx.
    apply (IH (json_size x)); [|done]. simpl.
    assert (json_size x ≤ sum_list (json_size <$> l)); [|lia].
    by apply sum_list_elem, list_elem_of_fmap_2.
  - apply Hobj. intros k x Hk.
    apply (IH (json_size x)); [|done]. simpl.
    assert (json_size x ≤ map_fold (λ _ n acc, n + acc) 0 (json_size <$> m)); [|lia].
    apply (map_sum_lookup _ k). by rewrite lookup_fmap, Hk.
Qed.

Lemma all_Some_spec {V} (m : gmap string (option V)) :
  all_Some m = true ↔ map_Forall (λ _ o, is_Some o) m.
Proof. unfold all_Some. apply bool_decide_eq_true. Qed.

Lemma marshalMembers_Forall {V} (Q : V → Prop) (m : gmap string V) :
  map_Forall (λ _, Q) m → map_Forall (λ _, Q) (marshalMembers m).
Proof.
  intros Hm. unfold marshalMembers.
  assert (Hl : Forall (λ kv, Q kv.2) (merge_sort key_le (map_to_list m))).
  { rewrite merge_sort_Permutation. apply Forall_forall.
    intros [k v] Hkv%elem_of_map_to_list. by apply (Hm k). }
  assert (Hacc : map_Forall (λ _, Q) (∅ : gmap string V)) by apply map_Forall_empty.
  revert Hacc. generalize (∅ : gmap string V).
  induction Hl as [|kv l Hkv _ IH]; intros acc Hacc; simpl; [done|].
  apply IH. by apply map_Forall_insert_2.
Qed.

(** json.Unmarshal into an [any] reads every document whose numbers are in
    range. *)
Lemma unmarshalAny_inRange (j : json) : inRange j = true → is_Some (unmarshalAny j).
Proof.
  induction j as [|b|z|f|s|l IH|m IH] using json_ind';
    cbn [inRange unmarshalAny unmarshalNumber].
  - by eexists.
  - by eexists.
  - intros ->. by eexists.
  - by eexists.
  - by eexists.
  - intros Hl. apply fmap_is_Some, mapM_is_Some.
    rewrite forallb_forall in Hl. rewrite Forall_forall in IH |- *.
    intros x Hx. apply IH; [done|]. by apply Hl, list_elem_of_In.
  - intros Hm%bool_decide_eq_true. rewrite map_Forall_fmap in Hm.
    assert (all_Some (unmarshalAny <$> m) = true) as ->; [|by eexists].
    apply all_Some_spec, map_Forall_fmap. intros k x Hk. simpl.
    apply (IH k x Hk). by apply (Hm k x).
Qed.

Lemma unmarshalAny_marshalAny (v : any) (j : json) :
  decodable v = true → marshalAny v = Some j → is_Some (unmarshalAny j).
Proof.
  revert j. induction v as [|b|f|s|l IH|m IH| |j0] using any_ind'; intros j; simpl.
  - by intros _ [= <-].
  - by intros _ [= <-].
  - intros _. unfold marshalFloat64. destruct (float64_IsFinite f); [|done].
    by intros [= <-].
  - by intros _ [= <-].
  - intros Hdl. destruct (mapM marshalAny l) as [js|] eqn:Hjs; [|done].
    intros [= <-]. simpl.
    apply fmap_is_Some, mapM_is_Some.
    apply mapM_Some in Hjs.
    induction Hjs as [|x y l js Hxy _ IHjs]; [done|].
    apply Forall_cons in IH as [Hx Hl].
    simpl in Hdl. apply andb_prop in Hdl as [Hdx Hdl].
    constructor; [by apply Hx|by apply IHjs].
  - intros Hdm%bool_decide_eq_true. rewrite map_Forall_fmap in Hdm.
    destruct (all_Some (marshalAny <$> m)) eqn:Hall; [|done]. intros [= <-]. simpl.
    apply all_Some_spec in Hall.
    assert (Hdec : all_Some (unmarshalAny <$>
              marshalMembers (default JNull <$> (marshalAny <$> m))) = true).
    { apply all_Some_spec, map_Forall_fmap.
      apply (marshalMembers_Forall (λ j, is_Some (unmarshalAny j))).
      apply map_Forall_fmap. intros k o Hko. simpl.
      rewrite lookup_fmap in Hko.
      destruct (m !! k) as [x|] eqn:Hk; simplify_eq/=.
      destruct (Hall k (marshalAny x)) as [jx Hjx]; [by rewrite lookup_fmap, Hk|].
      rewrite Hjx. simpl. apply (IH k x Hk); [|done]. by apply (Hdm k x). }
    by rewrite Hdec.
  - done.
  - intros Hr [= <-]. by apply unmarshalAny_inRange.
Qed.

Lemma unmarshalMap_marshalMap (m : gomap) (j : json) :
  decodableMap m = true → marshalMap m = Some j → is_Some (unmarshalMap j).
Proof.
  destruct m as [m|]; simpl; [|by intros _ [= <-]].
  intros Hd Hj. pose proof (unmarshalAny_marshalAny (AnyMap m) j Hd Hj) as [v Hv].
  simpl in Hj. destruct (all_Some (marshalAny <$> m)); [|done].
  injection Hj as <-. unfold unmarshalMap. rewrite Hv.
  simpl in Hv. destruct (all_Some _); [|done]. by injection Hv as <-.
Qed.

(** ** Structs *)

Lemma omitted_Some keep name j obj obj' :
  omitted keep name j obj = Some obj' →
  (keep = true ∧ ∃ v, j = Some v ∧ obj' = <[name := v]> obj)
  ∨ (keep = false ∧ obj' = obj).
Proof.
  destruct keep; simpl.
  - destruct j as [v|]; simpl; [|done]. intros [= <-]. left. eauto.
  - intros [= <-]. by right.
Qed.

Ltac lookups := rewrite ?lookup_insert, ?lookup_singleton, ?lookup_empty; simpl.

Lemma unmarshalToolCallExecution_marshal (e : ToolCallExecution) (j : json) :
  readableToolCall e = true →
  marshalToolCallExecution e = Some j →
  ∃ e', unmarshalToolCallExecution j = Some e'
    ∧ ToolCallExecution_Result e' = ToValidUTF8 (ToolCallExecution_Result e)
    ∧ ToolCallExecution_ToolID e' = ToValidUTF8 (ToolCallExecution_ToolID e).
Proof.
  unfold readableToolCall, marshalToolCallExecution. intros [Hint Hdec]%andb_prop.
  destruct (marshalMap (ToolCallExecution_Arguments e)) as [ja|] eqn:Hargs; [|done].
  simpl.
  destruct (omitted _ _ _ _) as [obj|] eqn:Hobj; [|done]. intros [= <-].
  destruct (unmarshalMap_marshalMap _ _ Hdec Hargs) as [args Hargs'].
  unfold unmarshalToolCallExecution, unmarshalStruct, field.
  apply omitted_Some in Hobj as [(_ & v & [= <-] & ->)|[_ ->]].
  - lookups. rewrite Hargs', Hint. simpl. eauto.
  - lookups. rewrite Hargs', Hint. simpl. eauto.
Qed.

Lemma mapM_roundtrip {A B} (f : A → option json) (g : json → option B)
    (R : A → B → Prop) (l : list A) (js : list json) :
  (∀ x jx, x ∈ l → f x = Some jx → ∃ y, g jx = Some y ∧ R x y) →
  mapM f l = Some js →
  ∃ ys, mapM g js = Some ys ∧ Forall2 R l ys.
Proof.
  intros Hfg Hjs. apply mapM_Some in Hjs.
  induction Hjs as [|x jx l js Hx _ IH].
  - by exists [].
  - destruct (Hfg x jx) as (y & Hy & HR); [left|done|].
    destruct IH as (ys & Hys & HRs).
    { intros x' jx' Hin. apply Hfg. by right. }
    exists (y :: ys). split; [|by constructor].
    simpl. by rewrite Hy, Hys.
Qed.

Lemma unmarshalSlice_marshalSlice {A B} (f : A → option json) (g : json → option B)
    (R : A → B → Prop) (s : slice A) (j : json) :
  (∀ x jx, x ∈ elems s → f x = Some jx → ∃ y, g jx = Some y ∧ R x y) →
  marshalSlice f s = Some j →
  ∃ s', unmarshalSlice g j = Some s' ∧ Forall2 R (elems s) (elems s').
Proof.
  destruct s as [l|]; simpl.
  - intros Hfg. destruct (mapM f l) as [js|] eqn:Hjs; [|done]. intros [= <-].
    destruct (mapM_roundtrip f g R l js Hfg Hjs) as (ys & Hys & HR).
    exists (Some ys). simpl. by rewrite Hys.
  - intros _ [= <-]. by exists None.
Qed.

Lemma unmarshalFloat64_marshalFloat64 (f : float64) (j : json) :
  marshalFloat64 f = Some j → unmarshalFloat64 j = Some f.
Proof.
  unfold marshalFloat64. destruct (float64_IsFinite f); [|done]. by intros [= <-].
Qed.

Definition toolCallAgrees (e e' : ToolCallExecution) : Prop :=
  ToolCallExecution_Result e' = ToValidUTF8 (ToolCallExecution_Result e)
  ∧ ToolCallExecution_ToolID e' = ToValidUTF8 (ToolCallExecution_ToolID e).

Definition turnAgrees (t t' : ConversationTurn) : Prop :=
  UserMessage_Content (ConversationTurn_UserInput t')
  = ToValidUTF8 (UserMessage_Content (ConversationTurn_UserInput t))
  ∧ LLMResponse_Content (ConversationTurn_LLMResponse t')
    = ToValidUTF8 (LLMResponse_Content (ConversationTurn_LLMResponse t))
  ∧ Forall2 toolCallAgrees (elems (ConversationTurn_ToolCalls t))
                           (elems (ConversationTurn_ToolCalls t')).

Lemma unmarshalUserMessage_marshal (m : UserMessage) (j : json) :
  marshalUserMessage m = Some j →
  ∃ m', unmarshalUserMessage j = Some m'
    ∧ UserMessage_Content m' = ToValidUTF8 (UserMessage_Content m).
Proof.
  intros [= <-]. unfold unmarshalUserMessage, unmarshalStruct, field.
  lookups. eauto.
Qed.

Lemma unmarshalLLMResponse_marshal (m : LLMResponse) (j : json) :
  marshalLLMResponse m = Some j →
  ∃ m', unmarshalLLMResponse j = Some m'
    ∧ LLMResponse_Content m' = ToValidUTF8 (LLMResponse_Content m).
Proof.
  unfold marshalLLMResponse.
  destruct (omitted _ "reasoning" _ _) as [obj1|] eqn:Hobj1; [|done]. simpl.
  destruct (omitted _ "finish_reason" _ _) as [obj2|] eqn:Hobj2; [|done].
  intros [= <-]. unfold unmarshalLLMResponse, unmarshalStruct, field.
  apply omitted_Some in Hobj1 as [(_ & v1 & [= <-] & ->)|[_ ->]];
    apply omitted_Some in Hobj2 as [(_ & v2 & [= <-] & ->)|[_ ->]];
    lookups; eauto.
Qed.

Lemma unmarshalTokenUsage_marshal (u : TokenUsage) (j : json) :
  is_int64 (TokenUsage_PromptTokens u) = true →
  is_int64 (TokenUsage_CompletionTokens u) = true →
  is_int64 (TokenUsage_TotalTokens u) = true →
  marshalTokenUsage u = Some j → is_Some (unmarshalTokenUsage j).
Proof.
  intros H1 H2 H3 [= <-]. unfold unmarshalTokenUsage, unmarshalStruct, field.
  lookups. rewrite H1, H2, H3. simpl. eauto.
Qed.

Lemma unmarshalConversationTurn_marshal (t : ConversationTurn) (j : json) :
  readableTurn t = true →
  marshalConversationTurn t = Some j →
  ∃ t', unmarshalConversationTurn j = Some t' ∧ turnAgrees t t'.
Proof.
  unfold readableTurn, marshalConversationTurn.
  intros ((((Hround & Hp)%andb_prop & Hc)%andb_prop & Ht)%andb_prop & Htcs)%andb_prop.
  destruct (marshalUserMessage _) as [ju|] eqn:Hu; [|done].
  destruct (marshalLLMResponse _) as [jl|] eqn:Hl; [|done].
  destruct (marshalTokenUsage _) as [jt|] eqn:Htu; [|done].
  cbn [mbind option_bind].
  destruct (omitted _ _ _ _) as [obj|] eqn:Hobj; [|done]. intros [= <-].
  apply unmarshalUserMessage_marshal in Hu as (u' & Hu & Hu').
  apply unmarshalLLMResponse_marshal in Hl as (l' & Hl & Hl').
  apply unmarshalTokenUsage_marshal in Htu as (tu' & Htu); [|done..].
  unfold unmarshalConversationTurn, unmarshalStruct, field.
  apply omitted_Some in Hobj as [(Hkeep & v & Hv & ->)|[Hkeep ->]].
  - eapply (unmarshalSlice_marshalSlice _ unmarshalToolCallExecution toolCallAgrees)
      in Hv as (tcs' & Htcs' & Hagree).
    + lookups. rewrite Hround, Hu, Hl, Htcs', Htu. simpl.
      eexists. split; [done|]. by split.
    + intros e je He Hje. apply unmarshalToolCallExecution_marshal; [|done].
      rewrite forallb_forall in Htcs. by apply Htcs, list_elem_of_In.
  - lookups. rewrite Hround, Hu, Hl, Htu. simpl.
    eexists. split; [done|]. split; [done|]. split; [done|]. simpl.
    apply bool_decide_eq_false in Hkeep. unfold len in Hkeep.
    destruct (elems (ConversationTurn_ToolCalls t)); [constructor|simpl in Hkeep; lia].
Qed.

Lemma unmarshalToolDefinition_marshal (d : ToolDefinition) (j : json) :
  decodableMap (ToolDefinition_Function d) = true →
  marshalToolDefinition d = Some j → is_Some (unmarshalToolDefinition j).
Proof.
  unfold marshalToolDefinition. intros Hdec.
  destruct (marshalMap _) as [jf|] eqn:Hf; [|done]. intros [= <-].
  destruct (unmarshalMap_marshalMap _ _ Hdec Hf) as [f' Hf'].
  unfold unmarshalToolDefinition, unmarshalStruct, field.
  lookups. rewrite Hf'. simpl. eauto.
Qed.

Lemma unmarshalSystemPrompt_marshal (p : SystemPrompt) (j : json) :
  decodableMap (SystemPrompt_Metadata p) = true →
  marshalSystemPrompt p = Some j →
  ∃ p', unmarshalSystemPrompt j = Some p'
    ∧ SystemPrompt_Content p' = ToValidUTF8 (SystemPrompt_Content p).
Proof.
  unfold marshalSystemPrompt. intros Hdec.
  destruct (omitted _ _ _ _) as [obj|] eqn:Hobj; [|done]. intros [= <-].
  unfold unmarshalSystemPrompt, unmarshalStruct, field.
  apply omitted_Some in Hobj as [(_ & v & Hv & ->)|[_ ->]].
  - destruct (unmarshalMap_marshalMap _ _ Hdec Hv) as [m' Hm'].
    lookups. rewrite Hm'. simpl. eauto.
  - lookups. eauto.
Qed.

Lemma unmarshalModelConfig_marshal (c : ModelConfig) (j : json) :
  is_int64 (ModelConfig_MaxTokens c) = true →
  decodableMap (ModelConfig_ExtraParams c) = true →
  marshalModelConfig c = Some j → is_Some (unmarshalModelConfig j).
Proof.
  unfold marshalModelConfig. intros Hint Hdec.
  destruct (marshalFloat64 (ModelConfig_Temperature c)) as [j1|] eqn:H1; [|done].
  destruct (marshalFloat64 (ModelConfig_TopP c)) as [j2|] eqn:H2; [|done].
  destruct (marshalFloat64 (ModelConfig_FrequencyPenalty c)) as [j3|] eqn:H3; [|done].
  destruct (marshalFloat64 (ModelConfig_PresencePenalty c)) as [j4|] eqn:H4; [|done].
  cbn [mbind option_bind].
  destruct (omitted _ _ _ _) as [obj|] eqn:Hobj; [|done]. intros [= <-].
  apply unmarshalFloat64_marshalFloat64 in H1, H2, H3, H4.
  unfold unmarshalModelConfig, unmarshalStruct, field.
  apply omitted_Some in Hobj as [(_ & v & Hv & ->)|[_ ->]].
  - destruct (unmarshalMap_marshalMap _ _ Hdec Hv) as [m' Hm'].
    lookups. rewrite H1, H2, H3, H4, Hint, Hm'. simpl. eauto.
  - lookups. rewrite H1, H2, H3, H4, Hint. simpl. eauto.
Qed.

Lemma unmarshalSessionMetadata_marshal (m : SessionMetadata) (j : json) :
  is_int64 (SessionMetadata_ResponseTimeMs m) = true →
  decodableMap (SessionMetadata_CustomFields m) = true →
  decodableMap (SessionMetadata_AdditionalInfo m) = true →
  marshalSessionMetadata m = Some j → is_Some (unmarshalSessionMetadata j).
Proof.
  unfold marshalSessionMetadata. intros Hint Hdec1 Hdec3.
  destruct (marshalSlice _ (SessionMetadata_Tags m)) as [jtags|] eqn:Htags; [|done].
  cbn [mbind option_bind].
  destruct (omitted _ "custom_fields" _ _) as [obj1|] eqn:Hobj1; [|done].
  cbn [mbind option_bind].
  destruct (omitted _ "total_cost" _ _) as [obj2|] eqn:Hobj2; [|done].
  cbn [mbind option_bind].
  destruct (omitted _ "additional_info" _ _) as [obj3|] eqn:Hobj3; [|done].
  intros [= <-].
  eapply (unmarshalSlice_marshalSlice _ unmarshalString (λ _ _, True))
    in Htags as (tags' & Htags' & _);
    [|by intros x jx _ [= <-]; eexists].
  unfold unmarshalSessionMetadata, unmarshalStruct, field.
  apply omitted_Some in Hobj1 as [(_ & v1 & Hv1 & ->)|[_ ->]];
    apply omitted_Some in Hobj2 as [(_ & v2 & Hv2 & ->)|[_ ->]];
    apply omitted_Some in Hobj3 as [(_ & v3 & Hv3 & ->)|[_ ->]];
    try (destruct (unmarshalMap_marshalMap _ _ Hdec1 Hv1) as [m1 Hm1]);
    try (apply unmarshalFloat64_marshalFloat64 in Hv2);
    try (destruct (unmarshalMap_marshalMap _ _ Hdec3 Hv3) as [m3 Hm3]);
    lookups; rewrite Htags', Hint, ?Hm1, ?Hv2, ?Hm3; simpl; eauto.
Qed.

(** ** The whole context *)

(** Decoding an encoded context succeeds, given that decoding an encoded
    instant does; the decoded context has the system prompt and, turn by
    turn, the strings of the original, coerced to valid UTF-8. *)
Lemma FromJSON_ToJSON (r : ReplayContext) (doc : json) :
  (∀ t s, Time_MarshalJSON t = Some s → is_Some (Time_UnmarshalJSON s)) →
  wellTyped r = true →
  ToJSON r = Some doc →
  ∃ r', FromJSON doc = Some r'
    ∧ SystemPrompt_Content (ReplayContext_SystemPrompt r')
      = ToValidUTF8 (SystemPrompt_Content (ReplayContext_SystemPrompt r))
    ∧ Forall2 turnAgrees (elems (ReplayContext_ConversationHistory r))
                         (elems (ReplayContext_ConversationHistory r')).
Proof.
  unfold wellTyped, ToJSON.
  intros Htime Htyped.
  apply andb_prop in Htyped as [Htyped Hinfo].
  apply andb_prop in Htyped as [Htyped Hcustom].
  apply andb_prop in Htyped as [Htyped Hfuns].
  apply andb_prop in Htyped as [Htyped Hprompt].
  apply andb_prop in Htyped as [Htyped Hextra].
  apply andb_prop in Htyped as [[Hmax Hresp]%andb_prop Hturns].
  unfold marshalTime.
  destruct (Time_MarshalJSON (ReplayContext_Timestamp r)) as [ts|] eqn:Hts; [|done].
  destruct (marshalModelConfig _) as [jc|] eqn:Hc; [|done].
  destruct (marshalSystemPrompt _) as [jp|] eqn:Hp; [|done].
  destruct (marshalSlice marshalToolDefinition _) as [jtools|] eqn:Htools; [|done].
  destruct (marshalSlice marshalConversationTurn _) as [jh|] eqn:Hh; [|done].
  destruct (marshalSessionMetadata _) as [jm|] eqn:Hm; [|done].
  cbn [fmap option_fmap option_map mbind option_bind]. intros [= <-].
  destruct (Htime _ _ Hts) as [t' Ht'].
  apply unmarshalModelConfig_marshal in Hc as [c' Hc']; [|done..].
  apply unmarshalSystemPrompt_marshal in Hp as (p' & Hp' & Hcontent); [|done].
  eapply (unmarshalSlice_marshalSlice _ unmarshalToolDefinition (λ _ _, True))
    in Htools as (tools' & Htools' & _).
  2:{ intros d jd Hd Hjd.
      apply unmarshalToolDefinition_marshal in Hjd as [d' Hd']; [by exists d'|].
      rewrite forallb_forall in Hfuns. by apply Hfuns, list_elem_of_In. }
  eapply (unmarshalSlice_marshalSlice _ unmarshalConversationTurn turnAgrees)
    in Hh as (h' & Hh' & Hagree).
  2:{ intros t jt Hin Hjt. apply unmarshalConversationTurn_marshal; [|done].
      rewrite forallb_forall in Hturns. by apply Hturns, list_elem_of_In. }
  apply unmarshalSessionMetadata_marshal in Hm as [m' Hm']; [|done..].
  unfold FromJSON, unmarshalStruct, field. lookups.
  rewrite Ht', Hc', Hp', Htools', Hh', Hm'. simpl.
  eexists. split; [done|]. by split.
Qed.

Lemma turnAgrees_messages (t t' : ConversationTurn) :
  turnAgrees t t' → turnMessages t' = map coerceMessage (turnMessages t).
Proof.
  intros (Hu & Hl & Htcs). unfold turnMessages. simpl. rewrite Hu, Hl.
  do 2 f_equal. rewrite <- list_fmap_compose. 
  induction Htcs as [|e e' tcs tcs' [Hres Hid] _ IH]; simpl; [done|].
  by rewrite Hres, Hid, IH.
Qed.

Lemma canonicalMessages_agree (r r' : ReplayContext) :
  SystemPrompt_Content (ReplayContext_SystemPrompt r')
  = ToValidUTF8 (SystemPrompt_Content (ReplayContext_SystemPrompt r)) →
  Forall2 turnAgrees (elems (ReplayContext_ConversationHistory r))
                     (elems (ReplayContext_ConversationHistory r')) →
  canonicalMessages r' = map coerceMessage (canonicalMessages r).
Proof.
  intros Hsys Hturns. unfold canonicalMessages. cbn [map]. rewrite Hsys.
  unfold coerceMessage at 1. cbn [Role Content ToolCallID]. f_equal.
  induction Hturns as [|t t' ts ts' Ht _ IH]; cbn [map concat]; [done|].
  by rewrite map_app, (turnAgrees_messages t t' Ht), IH.
Qed.

Lemma coerceMessage_toolCalls (tcs : list ToolCallExecution) :
  forallb validToolCall tcs = true →
  map coerceMessage (map (λ tc, {| Role := "tool";
                                   Content := ToolCallExecution_Result tc;
                                   ToolCallID := ToolCallExecution_ToolID tc |}) tcs)
  = map (λ tc, {| Role := "tool";
                  Content := ToolCallExecution_Result tc;
                  ToolCallID := ToolCallExecution_ToolID tc |}) tcs.
Proof.
  induction tcs as [|tc tcs IH]; simpl; [done|].
  intros [[Hres Hid]%andb_prop Htcs]%andb_prop.
  rewrite IH by done. unfold coerceMessage at 1. simpl.
  by rewrite !ToValidUTF8_valid.
Qed.

Lemma coerceMessage_valid (r : ReplayContext) :
  validProjection r = true →
  map coerceMessage (canonicalMessages r) = canonicalMessages r.
Proof.
  unfold validProjection, canonicalMessages. intros [Hsys Hturns]%andb_prop.
  cbn [map]. unfold coerceMessage at 1. cbn [Role Content ToolCallID].
  rewrite (ToValidUTF8_valid _ Hsys). f_equal.
  induction (elems (ReplayContext_ConversationHistory r)) as [|t ts IH]; [done|].
  cbn [forallb] in Hturns. apply andb_prop in Hturns as [Ht Hts].
  apply andb_prop in Ht as [[Hu Hl]%andb_prop Htcs].
  cbn [map concat]. rewrite map_app, IH by done. f_equal.
  unfold turnMessages. cbn [map]. unfold coerceMessage at 1 2.
  cbn [Role Content ToolCallID].
  by rewrite !ToValidUTF8_valid, coerceMessage_toolCalls.
Qed.

(** C1, amended.  Provided time.Time decodes what it encodes: for a context
    (its integers being Go integers, and the numbers its maps are written
    with being ones a float64 holds) that [ToJSON] encodes, decoding the
    document succeeds, and the projection of the decoded context is the
    projection of the original with every string coerced to valid UTF-8,
    which is the same projection whenever the strings the projection shows
    are valid UTF-8.  The example context is encoded as soon as its timestamp
    is, and its projection and that of the decoded context are the same
    sequence of six messages. *)
Theorem roundtrip_preserves_projection :
  (∀ t s, Time_MarshalJSON t = Some s → is_Some (Time_UnmarshalJSON s)) →
  (∀ (r : ReplayContext) (doc : json),
     wellTyped r = true →
     ToJSON r = Some doc →
     ∃ r', FromJSON doc = Some r'
       ∧ ToOpenAIMessages r' = map coerceMessage (ToOpenAIMessages r)
       ∧ (validProjection r = true → ToOpenAIMessages r' = ToOpenAIMessages r))
  ∧ ToOpenAIMessages exampleContext = exampleMessages
  ∧ length exampleMessages = 6
  ∧ (∀ ts, Time_MarshalJSON (ReplayContext_Timestamp exampleContext) = Some ts →
       ∃ doc r', ToJSON exampleContext = Some doc
         ∧ FromJSON doc = Some r'
         ∧ ToOpenAIMessages r' = exampleMessages).
Proof.
  intros Htime.
  assert (Hany : ∀ (r : ReplayContext) doc,
    wellTyped r = true → ToJSON r = Some doc →
    ∃ r', FromJSON doc = Some r'
      ∧ ToOpenAIMessages r' = map coerceMessage (ToOpenAIMessages r)
      ∧ (validProjection r = true → ToOpenAIMessages r' = ToOpenAIMessages r)).
  { intros r doc Hwt Hdoc.
    destruct (FromJSON_ToJSON r doc Htime Hwt Hdoc) as (r' & Hr' & Hsys & Hturns).
    exists r'. split; [done|].
    rewrite !ToOpenAIMessages_canonical.
    rewrite (canonicalMessages_agree r r' Hsys Hturns). split; [done|].
    apply coerceMessage_valid. }
  split; [done|]. split; [reflexivity|]. split; [reflexivity|].
  intros ts Hts.
  assert (Hdoc : is_Some (ToJSON exampleContext)).
  { unfold ToJSON, marshalTime. rewrite Hts. by eexists. }
  destruct Hdoc as [doc Hdoc].
  destruct (Hany exampleContext doc eq_refl Hdoc) as (r' & Hr' & _ & Hsame).
  exists doc, r'. split; [done|]. split; [done|]. by rewrite Hsame.
Qed.

End CodecProperties.

(* ===================================================================== *)
(** * The theorems at concrete inputs                                     *)
(* ===================================================================== *)

Section Evaluations.
Import Go Replay Codec.

Definition emptyHeap : Heap := {| toolArrays := []; turnArrays := [] |}.

(** Calls that never set a system prompt. *)
Definition quietCalls : list Call :=
  [ CallSetSessionID "session";
    CallAddTurn zero 1 "Hi" "Hello" None zero "trace-1" ].

Definition toolStart : Time := {| wall := 0; mono := Some 1000000%Z |}.
Definition toolEnd : Time := {| wall := 2500000; mono := Some 3500000%Z |}.

(** C1 (the claim as stated fails).  The example context projects to six
    messages, not seven.  And a context whose system prompt is the byte 0xFF,
    which is not valid UTF-8, is encoded and decoded without error, but the
    decoded context projects differently: the encoder has replaced the byte
    by U+FFFD.  And a context with the json.Number 1e999 among its extra
    parameters is encoded, but its document is not decoded at all. *)
Lemma roundtrip_counterexample :
  (length (ToOpenAIMessages exampleContext) = 6
   ∧ ToOpenAIMessages exampleContext = exampleMessages)
  ∧ wellTyped invalidContext = true
  ∧ ToOpenAIMessages invalidContext
    = [ {| Role := "system";
           Content := String (ascii_of_nat 255) EmptyString;
           ToolCallID := "" |} ]
  ∧ (∃ doc r',
      @ToJSON evalRuntime invalidContext = Some doc
      ∧ @FromJSON evalRuntime doc = Some r'
      ∧ ToOpenAIMessages r'
        = [ {| Role := "system"; Content := replacement; ToolCallID := "" |} ]
      ∧ ToOpenAIMessages r' ≠ ToOpenAIMessages invalidContext)
  ∧ ∃ doc,
      @ToJSON evalRuntime unreadableContext = Some doc
      ∧ @FromJSON evalRuntime doc = None.
Proof.
  split; [by split|]. split; [done|]. split; [done|]. split.
  - eexists. eexists. split; [vm_compute; reflexivity|].
    split; [vm_compute; reflexivity|]. split; [vm_compute; reflexivity|].
    intros Heq. vm_compute in Heq. discriminate.
  - eexists. split; [vm_compute; reflexivity|]. vm_compute. reflexivity.
Qed.

Lemma roundtrip_preserves_projection_witness :
  ∃ doc, @ToJSON evalRuntime exampleContext = Some doc
    ∧ ∃ r', @FromJSON evalRuntime doc = Some r'
        ∧ ToOpenAIMessages r' = ToOpenAIMessages exampleContext.
Proof.
  destruct (@ToJSON evalRuntime exampleContext) as [doc|] eqn:Hdoc;
    [|vm_compute in Hdoc; discriminate].
  exists doc. split; [reflexivity|].
  destruct (@roundtrip_preserves_projection evalRuntime) as [Hany _].
  - intros t s _. eexists. reflexivity.
  - destruct (Hany exampleContext doc) as (r' & Hr' & _ & Hsame).
    + reflexivity.
    + exact Hdoc.
    + exists r'. split; [exact Hr'|]. apply Hsame. reflexivity.
Defined.

Lemma ToOpenAIMessages_system_first_witness :
  ToOpenAIMessages
    (load (heap (stateOf (@run evalRuntime (NewContextBuilder emptyHeap "u" "" "m") quietCalls)))
          (Build (stateOf (@run evalRuntime (NewContextBuilder emptyHeap "u" "" "m") quietCalls))
                 zero "trace-1")) !! 0
  = Some {| Role := "system"; Content := ""; ToolCallID := "" |}.
Proof.
  destruct (@ToOpenAIMessages_system_first evalRuntime exampleContext emptyHeap
              "u" "" "m" quietCalls zero "trace-1") as [_ Hbuilt].
  destruct (Hbuilt eq_refl) as [Hfirst _]. exact Hfirst.
Defined.

End Evaluations.

(* ===================================================================== *)
(** * The builder: histories, snapshots and settings                      *)
(* ===================================================================== *)

Section BuilderHistories.
Import Go Replay.
Context `{!Runtime}.

(** The turns a sequence of calls adds: one per [AddTurn], in order. *)
Definition turnsOf (calls : list Call) : list ConversationTurn :=
  omap (λ c, match c with
             | CallAddTurn now round userMsg assistantResp toolCalls tokenUsage traceID =>
                 Some (newTurn now round userMsg assistantResp toolCalls tokenUsage traceID)
             | _ => None
             end) calls.

Lemma turnsOf_cons (c : Call) (calls : list Call) :
  turnsOf (c :: calls) = turnsOf [c] ++ turnsOf calls.
Proof. by destruct c. Qed.

Lemma call_history (st : State) (c : Call) :
  wfState st → history (stateOf (call st c)) = history st ++ turnsOf [c].
Proof.
  intros Hwf. destruct c; simpl; rewrite ?app_nil_r; try done.
  - pose proof (SetTools_frame st tools0) as (Hturns & Hctx & _). simpl in *.
    unfold history. by rewrite Hturns, Hctx.
  - by apply AddTurn_history.
Qed.

(** Whatever a run reaches, its history is the old one followed by the turns
    of the calls it executed: all of them when the run returns. *)
Lemma run_history_executed (calls : list Call) (st : State) :
  wfState st →
  ∃ k, history (stateOf (run st calls)) = history st ++ turnsOf (take k calls)
       ∧ ((∃ st', run st calls = Returns st') → k = length calls).
Proof.
  revert st. induction calls as [|c calls IH]; intros st Hwf.
  - exists 0. simpl. by rewrite app_nil_r.
  - pose proof (call_history st c Hwf) as Hc.
    pose proof (call_wf st c Hwf) as Hwf'.
    cbn [run]. destruct (call st c) as [st1|st1] eqn:Hcall; cbn [stateOf] in *.
    + destruct (IH st1 Hwf') as (k & Hk & Hret).
      exists (S k). split.
      * rewrite Hk, Hc, <- app_assoc. f_equal.
        change (take (S k) (c :: calls)) with (c :: take k calls).
        by rewrite (turnsOf_cons c (take k calls)).
      * intros Hr. simpl. f_equal. by apply Hret.
    + exists 1. split.
      * change (take 1 (c :: calls)) with (c :: take 0 calls). by rewrite take_0.
      * by intros [st' [=]].
Qed.


(** X1.  Whatever calls a builder has run before, a further sequence of
    calls that returns leaves as history the earlier history followed by one
    turn per [AddTurn] of the sequence, in call order, each as [AddTurn]
    builds it: no other call adds, drops or reorders a turn. *)
Theorem run_history (h : Heap) (userID baseURL model : string)
    (before calls : list Call) (st' : State) :
  let st := stateOf (run (NewContextBuilder h userID baseURL model) before) in
  run st calls = Returns st' →
  history st' = history st ++ turnsOf calls.
Proof.
  intros st Hrun.
  destruct (run_history_executed calls st) as (k & Hk & Hret).
  { apply reachable_wf. }
  rewrite Hrun in Hk. simpl in Hk.
  rewrite Hret in Hk by eauto. by rewrite take_ge in Hk.
Qed.

(** What a snapshot shows of the history in a later heap is what the
    builder's history was when the snapshot was taken. *)
Lemma snapshot_history (st : State) (calls : list Call) (now : Time) (traceID : string) :
  wfState st →
  elems (ReplayContext_ConversationHistory
           (load (heap (stateOf (run st calls))) (Build st now traceID)))
  = history st.
Proof.
  intros Hwf.
  pose proof (run_keeps _ _ _ _ calls st (wfState_keeps st Hwf))
    as (_ & _ & _ & _ & _ & Hturns).
  unfold load, Build, history. simpl. by rewrite Hturns.
Qed.

Lemma run_app (calls1 calls2 : list Call) (st : State) :
  stateOf (run st (calls1 ++ calls2))
  = match run st calls1 with
    | Returns st1 => stateOf (run st1 calls2)
    | Panics st1 => st1
    end.
Proof.
  revert st. induction calls1 as [|c calls1 IH]; intros st; simpl; [done|].
  destruct (call st c); [apply IH|done].
Qed.

(** X2.  Of two snapshots of one builder, read after any further
    calls, the earlier one's history is a prefix of the later one's; and so
    is its projection, past the system message, of the later one's. *)
Theorem snapshots_grow (h : Heap) (userID baseURL model : string)
    (before between after : list Call) (now1 now2 : Time) (id1 id2 : string) :
  let st1 := stateOf (run (NewContextBuilder h userID baseURL model) before) in
  let snapshot1 := Build st1 now1 id1 in
  let st2 := stateOf (run st1 between) in
  let snapshot2 := Build st2 now2 id2 in
  let st3 := stateOf (run st2 after) in
  elems (ReplayContext_ConversationHistory (load (heap st3) snapshot1))
    `prefix_of` elems (ReplayContext_ConversationHistory (load (heap st3) snapshot2))
  ∧ drop 1 (ToOpenAIMessages (load (heap st3) snapshot1))
      `prefix_of` drop 1 (ToOpenAIMessages (load (heap st3) snapshot2)).
Proof.
  intros st1 snapshot1 st2 snapshot2 st3.
  assert (Hwf1 : wfState st1) by apply reachable_wf.
  assert (Hwf2 : wfState st2) by by apply run_wf.
  assert (H2 : elems (ReplayContext_ConversationHistory (load (heap st3) snapshot2))
               = history st2) by by apply snapshot_history.
  assert (H1 : elems (ReplayContext_ConversationHistory (load (heap st3) snapshot1))
               = history st1).
  { pose proof (run_keeps _ _ _ _ between st1 (wfState_keeps st1 Hwf1)) as Hk.
    fold st2 in Hk.
    pose proof (run_keeps _ _ _ _ after st2 Hk) as (_ & _ & _ & _ & _ & Hturns).
    fold st3 in Hturns.
    unfold load, snapshot1, Build, history. simpl. by rewrite Hturns. }
  destruct (run_history_executed between st1 Hwf1) as (k & Hk & _). fold st2 in Hk.
  assert (Hpre : elems (ReplayContext_ConversationHistory (load (heap st3) snapshot1))
    `prefix_of` elems (ReplayContext_ConversationHistory (load (heap st3) snapshot2))).
  { rewrite H1, H2, Hk. by eexists. }
  split; [done|].
  destruct Hpre as [extra Hextra].
  rewrite !ToOpenAIMessages_canonical. unfold canonicalMessages. cbn [drop].
  rewrite Hextra, map_app, concat_app. by eexists.
Qed.

(** The definitions of the tools up to the first one without a function. *)
Fixpoint leadingDefinitions (ts : list Tool) : list ToolDefinition :=
  match ts with
  | [] => []
  | tool :: rest =>
      match Tool_Function tool with
      | Some fn => toolDefinition tool fn :: leadingDefinitions rest
      | None => []
      end
  end.

Lemma leadingDefinitions_length (ts : list Tool) :
  length (leadingDefinitions ts) ≤ length ts.
Proof.
  induction ts as [|t ts IH]; simpl; [done|].
  destruct (Tool_Function t); simpl; lia.
Qed.

Lemma leadingDefinitions_all (ts : list Tool) :
  length (leadingDefinitions ts) = length ts ↔ Forall (λ t, is_Some (Tool_Function t)) ts.
Proof.
  induction ts as [|t ts IH]; simpl; [by split|].
  pose proof (leadingDefinitions_length ts) as Hle.
  destruct (Tool_Function t) as [fn|] eqn:Hfn; simpl.
  - rewrite Forall_cons, <- IH, Hfn. split; [intros [= ->]; split; [by eexists|done]|].
    intros [_ ->]. done.
  - rewrite Forall_cons, Hfn. split; [done|]. intros [[? [=]] _].
Qed.

Lemma fillTools_contents (ts : list Tool) (mem : memory ToolDefinition)
    (hd : SliceHeader) (i : nat) (arr : list ToolDefinition) mem' ok :
  mem !! array hd = Some arr →
  i + length ts ≤ length arr →
  fillTools mem (Some hd) i ts = (mem', ok) →
  mem' !! array hd
  = Some (take i arr ++ leadingDefinitions ts
          ++ drop (i + length (leadingDefinitions ts)) arr)
  ∧ (ok = true ↔ length (leadingDefinitions ts) = length ts).
Proof.
  revert mem i arr. induction ts as [|t ts IH]; intros mem i arr Harr Hlen; simpl.
  - intros [= <- <-]. rewrite Nat.add_0_r, take_drop. by split.
  - destruct (Tool_Function t) as [fn|] eqn:Hfn; simpl.
    + intros Hfill.
      eapply (IH _ (S i) (<[i := toolDefinition t fn]> arr)) in Hfill as [Hmem Hok].
      * split; [|rewrite Hok; split; [by intros ->|by intros [= ->]]].
        rewrite Hmem. f_equal.
        rewrite (take_S_r _ i (toolDefinition t fn))
          by (apply list_lookup_insert_eq; simpl in Hlen; lia).
        rewrite take_insert_ge by lia. rewrite <- app_assoc. simpl.
        do 2 f_equal. rewrite drop_insert_lt by lia. by rewrite Nat.add_succ_r.
      * simpl. by rewrite list_lookup_alter_eq, Harr.
      * rewrite length_insert. simpl in Hlen. lia.
    + intros [= <- <-]. rewrite Nat.add_0_r, take_drop. by split.
Qed.

Lemma SetTools_read (st : State) (ts : slice Tool) :
  let st' := stateOf (SetTools st ts) in
  read (toolArrays (heap st')) (tools (builder st'))
  = Some (leadingDefinitions (elems ts)
          ++ replicate (len ts - length (leadingDefinitions (elems ts))) zero)
  ∧ ((∃ st'', SetTools st ts = Returns st'')
     ↔ Forall (λ t, is_Some (Tool_Function t)) (elems ts)).
Proof.
  unfold SetTools.
  destruct (make (toolArrays (heap st)) (len ts)) as [mem dst] eqn:Hmake.
  destruct (fillTools mem dst 0 (elems ts)) as [mem' ok] eqn:Hfill.
  unfold make in Hmake. injection Hmake as <- <-.
  set (hd := {| array := length (toolArrays (heap st)); hlen := len ts; hcap := len ts |})
    in *.
  assert (Harr : (toolArrays (heap st) ++ [replicate (len ts) zero]) !! array hd
                 = Some (replicate (len ts) (zero : ToolDefinition))).
  { by rewrite lookup_app_r, Nat.sub_diag by done. }
  apply (fillTools_contents _ _ _ _ _ _ _ Harr) in Hfill as [Hmem Hok];
    [|by rewrite length_replicate].
  assert (Hgoal :
    read mem' (Some hd)
    = Some (leadingDefinitions (elems ts)
            ++ replicate (len ts - length (leadingDefinitions (elems ts))) zero)).
  { unfold read. rewrite Hmem. simpl. f_equal.
    pose proof (leadingDefinitions_length (elems ts)) as Hle. fold (len ts) in Hle.
    rewrite drop_replicate.
    apply take_ge. rewrite length_app, length_replicate. lia. }
  split.
  - by destruct ok.
  - rewrite <- leadingDefinitions_all, <- Hok.
    destruct ok; split; try done; [by eexists|by intros [? [=]]].
Qed.

(** X3.  After [SetTools] the builder's tools are the definitions of the
    given tools up to the first tool without a function, followed by zero
    definitions up to the length given.  The call returns exactly when every
    tool has a function; otherwise it panics. *)
Theorem SetTools_contents (st : State) (ts : slice Tool) :
  let st' := stateOf (SetTools st ts) in
  read (toolArrays (heap st')) (tools (builder st'))
  = Some (leadingDefinitions (elems ts)
          ++ replicate (len ts - length (leadingDefinitions (elems ts))) zero)
  ∧ ((∃ st'', SetTools st ts = Returns st'')
     ↔ Forall (λ t, is_Some (Tool_Function t)) (elems ts)).
Proof. apply SetTools_read. Qed.

End BuilderHistories.

(* ===================================================================== *)
(** * The builder: what calls leave alone                                 *)
(* ===================================================================== *)

Section BuilderSettings.
Import Go Replay.
Context `{!Runtime}.

(** What no call touches: the user, the base URL, and the model
    configuration apart from temperature and token limit. *)
Definition identityOf (st : State) :=
  let b := builder st in
  let c := modelConfig b in
  (userID b, baseURL b, ModelConfig_Model c, ModelConfig_BaseURL c,
   ModelConfig_TopP c, ModelConfig_FrequencyPenalty c, ModelConfig_PresencePenalty c,
   ModelConfig_ExtraParams c).

Lemma call_identityOf (st : State) (c : Call) :
  identityOf (stateOf (call st c)) = identityOf st.
Proof.
  destruct c; simpl; try done.
  - unfold SetTools. destruct (make _ _) as [mem dst].
    destruct (fillTools _ _ _ _) as [mem' ok]. by destruct ok.
  - unfold AddTurn. by destruct (append _ _ _ _).
Qed.

Lemma run_identityOf (calls : list Call) (st : State) :
  identityOf (stateOf (run st calls)) = identityOf st.
Proof.
  revert st. induction calls as [|c calls IH]; intros st; simpl; [done|].
  pose proof (call_identityOf st c) as Hc.
  destruct (call st c); simpl in *; [by rewrite IH|done].
Qed.

(** X4.  Whatever calls ran, a snapshot has the user, the model and the
    base URL the builder was created with, zero top-p and penalties, no extra
    parameters, and the tags "replay" and "chat". *)
Theorem Build_identity (h : Heap) (userID baseURL model : string)
    (calls : list Call) (now : Time) (traceID : string) :
  let st := stateOf (run (NewContextBuilder h userID baseURL model) calls) in
  let snapshot := Build st now traceID in
  ReplayContext_UserID snapshot = userID
  ∧ ModelConfig_Model (ReplayContext_ModelConfig snapshot) = model
  ∧ ModelConfig_BaseURL (ReplayContext_ModelConfig snapshot) = baseURL
  ∧ ModelConfig_TopP (ReplayContext_ModelConfig snapshot) = float64_zero
  ∧ ModelConfig_FrequencyPenalty (ReplayContext_ModelConfig snapshot) = float64_zero
  ∧ ModelConfig_PresencePenalty (ReplayContext_ModelConfig snapshot) = float64_zero
  ∧ ModelConfig_ExtraParams (ReplayContext_ModelConfig snapshot) = None
  ∧ SessionMetadata_Tags (ReplayContext_Metadata snapshot) = Some ["replay"; "chat"].
Proof.
  intros st snapshot.
  pose proof (run_identityOf calls (NewContextBuilder h userID baseURL model)) as Hid.
  fold st in Hid. unfold identityOf, NewContextBuilder in Hid.
  destruct (make _ _) as [mem ctx]. simpl in Hid.
  injection Hid as Hu Hb Hm Hmb Ht Hf Hp He.
  unfold snapshot, Build. simpl. by rewrite Hu, Hm, Hmb, Ht, Hf, Hp, He.
Qed.

Definition leavesSessionID (c : Call) : bool :=
  match c with CallSetSessionID _ => false | _ => true end.

Definition leavesModelParams (c : Call) : bool :=
  match c with CallSetModelParams _ _ => false | _ => true end.

Lemma run_sessionID (calls : list Call) (st : State) :
  forallb leavesSessionID calls = true →
  sessionID (builder (stateOf (run st calls))) = sessionID (builder st).
Proof.
  revert st. induction calls as [|c calls IH]; intros st; simpl; [done|].
  intros [Hc Hrest]%andb_prop.
  assert (Hcall : sessionID (builder (stateOf (call st c))) = sessionID (builder st)).
  { destruct c; simpl in *; try done.
    - by pose proof (SetTools_frame st tools0) as (_ & _ & _ & _ & -> & _).
    - unfold AddTurn. by destruct (append _ _ _ _). }
  destruct (call st c); simpl in *; [by rewrite IH|done].
Qed.

Lemma run_modelParams (calls : list Call) (st : State) :
  forallb leavesModelParams calls = true →
  modelConfig (builder (stateOf (run st calls))) = modelConfig (builder st).
Proof.
  revert st. induction calls as [|c calls IH]; intros st; simpl; [done|].
  intros [Hc Hrest]%andb_prop.
  assert (Hcall : modelConfig (builder (stateOf (call st c))) = modelConfig (builder st)).
  { destruct c; simpl in *; try done.
    - by pose proof (SetTools_frame st tools0) as (_ & _ & _ & -> & _).
    - unfold AddTurn. by destruct (append _ _ _ _). }
  destruct (call st c); simpl in *; [by rewrite IH|done].
Qed.

(** X5.  A snapshot shows the system prompt (with the role "system"),
    the session id, and the temperature and token limit that were set last:
    calls of the other kinds in between do not disturb them. *)
Theorem setters_last_write_wins (st : State) (calls : list Call)
    (now : Time) (traceID : string)
    (content : string) (metadata : gomap) (session : string)
    (temperature : float64) (maxTokens : Z) :
  (forallb leavesSystemPrompt calls = true →
   ReplayContext_SystemPrompt
     (Build (stateOf (run (SetSystemPrompt st content metadata) calls)) now traceID)
   = {| SystemPrompt_Content := content;
        SystemPrompt_Role := "system";
        SystemPrompt_Metadata := metadata |})
  ∧ (forallb leavesSessionID calls = true →
     ReplayContext_SessionID
       (Build (stateOf (run (SetSessionID st session) calls)) now traceID)
     = session)
  ∧ (forallb leavesModelParams calls = true →
     let c := ReplayContext_ModelConfig
                (Build (stateOf (run (SetModelParams st temperature maxTokens) calls))
                       now traceID) in
     ModelConfig_Temperature c = temperature ∧ ModelConfig_MaxTokens c = maxTokens).
Proof.
  split; [|split].
  - intros Hcalls. simpl. by rewrite run_systemPrompt.
  - intros Hcalls. simpl. by rewrite run_sessionID.
  - intros Hcalls. simpl. by rewrite run_modelParams.
Qed.

(** X6.  [AddTurn] extends the projection of the builder's snapshot by
    the messages of the new turn and nothing else: a user message, an
    assistant message, and one tool message per tool call with its result and
    id. *)
Theorem AddTurn_extends_projection (h : Heap) (userID baseURL model : string)
    (calls : list Call) (now : Time) (round : Z) (userMsg assistantResp : string)
    (toolCalls : slice ToolCallExecution) (tokenUsage : TokenUsage) (traceID : string)
    (now1 now2 : Time) (id1 id2 : string) :
  let st := stateOf (run (NewContextBuilder h userID baseURL model) calls) in
  let st' := AddTurn st now round userMsg assistantResp toolCalls tokenUsage traceID in
  ToOpenAIMessages (load (heap st') (Build st' now2 id2))
  = ToOpenAIMessages (load (heap st) (Build st now1 id1))
    ++ {| Role := "user"; Content := userMsg; ToolCallID := "" |}
    :: {| Role := "assistant"; Content := assistantResp; ToolCallID := "" |}
    :: map (λ tc, {| Role := "tool";
                     Content := ToolCallExecution_Result tc;
                     ToolCallID := ToolCallExecution_ToolID tc |}) (elems toolCalls).
Proof.
  intros st st'.
  assert (Hwf : wfState st) by apply reachable_wf.
  destruct (AddTurn_history st now round userMsg assistantResp toolCalls tokenUsage
              traceID Hwf) as [Hh _].
  fold st' in Hh.
  rewrite !ToOpenAIMessages_canonical. unfold canonicalMessages.
  change (elems (ReplayContext_ConversationHistory (load (heap st') (Build st' now2 id2))))
    with (history st').
  change (elems (ReplayContext_ConversationHistory (load (heap st) (Build st now1 id1))))
    with (history st).
  rewrite Hh, map_app, concat_app. simpl. rewrite app_nil_r.
  assert (Hsys : systemPrompt (builder st') = systemPrompt (builder st)).
  { unfold st', AddTurn. by destruct (append _ _ _ _). }
  by rewrite Hsys.
Qed.

(** What [AddTurn] puts into every turn besides its arguments. *)
Definition builtTurn (t : ConversationTurn) : Prop :=
  UserMessage_Role (ConversationTurn_UserInput t) = "user"
  ∧ LLMResponse_Role (ConversationTurn_LLMResponse t) = "assistant"
  ∧ LLMResponse_ToolCalls (ConversationTurn_LLMResponse t)
    = bool_decide (0 < len (ConversationTurn_ToolCalls t))
  ∧ LLMResponse_Reasoning (ConversationTurn_LLMResponse t) = ""
  ∧ LLMResponse_FinishReason (ConversationTurn_LLMResponse t) = "".

Lemma turnsOf_built (calls : list Call) : Forall builtTurn (turnsOf calls).
Proof.
  induction calls as [|c calls IH]; [constructor|].
  rewrite turnsOf_cons. apply Forall_app. split; [|done].
  destruct c; simpl; constructor; [|constructor]. by repeat split.
Qed.

Lemma turnsOf_length (calls : list Call) : length (turnsOf calls) ≤ length calls.
Proof.
  induction calls as [|c calls IH]; [done|].
  rewrite turnsOf_cons, length_app. destruct c; simpl in *; lia.
Qed.

(** X7.  Every turn in the history of a builder, whatever calls ran,
    is as [AddTurn] builds it: the user input has the role "user", the
    response the role "assistant", no reasoning and no finish reason, and its
    tool-calls flag is set exactly when the turn has tool calls; and the
    history has at most one turn per call. *)
Theorem history_turns_built (h : Heap) (userID baseURL model : string)
    (calls : list Call) :
  let st := stateOf (run (NewContextBuilder h userID baseURL model) calls) in
  Forall builtTurn (history st) ∧ length (history st) ≤ length calls.
Proof.
  intros st.
  destruct (run_history_executed calls (NewContextBuilder h userID baseURL model))
    as (k & Hk & _); [apply NewContextBuilder_wf|].
  fold st in Hk. rewrite NewContextBuilder_history in Hk. cbn [app] in Hk.
  rewrite Hk. split; [apply turnsOf_built|].
  etrans; [apply turnsOf_length|]. rewrite length_take. lia.
Qed.

End BuilderSettings.

(* ===================================================================== *)
(** * The projection: what it shows                                       *)
(* ===================================================================== *)

Section ProjectionContents.
Import Go Replay.

(** What the projection shows of a context: the content of the system
    prompt and, per turn, the two contents and each tool call's result and
    id. *)
Definition shownOfTurn (turn : ConversationTurn) : string * string * list (string * string) :=
  (UserMessage_Content (ConversationTurn_UserInput turn),
   LLMResponse_Content (ConversationTurn_LLMResponse turn),
   map (λ tc, (ToolCallExecution_Result tc, ToolCallExecution_ToolID tc))
       (elems (ConversationTurn_ToolCalls turn))).

Definition shown (r : ReplayContext) : string * list (string * string * list (string * string)) :=
  (SystemPrompt_Content (ReplayContext_SystemPrompt r),
   map shownOfTurn (elems (ReplayContext_ConversationHistory r))).

Definition messagesOfShown (s : string * string * list (string * string))
    : list ChatCompletionMessage :=
  {| Role := "user"; Content := s.1.1; ToolCallID := "" |}
  :: {| Role := "assistant"; Content := s.1.2; ToolCallID := "" |}
  :: map (λ p, {| Role := "tool"; Content := p.1; ToolCallID := p.2 |}) s.2.

Lemma turnMessages_shown (turn : ConversationTurn) :
  turnMessages turn = messagesOfShown (shownOfTurn turn).
Proof.
  unfold turnMessages, messagesOfShown, shownOfTurn. simpl.
  by rewrite map_map.
Qed.

Lemma canonicalMessages_shown (r : ReplayContext) :
  canonicalMessages r
  = {| Role := "system"; Content := (shown r).1; ToolCallID := "" |}
    :: concat (map messagesOfShown (shown r).2).
Proof.
  unfold canonicalMessages, shown. simpl. f_equal. rewrite map_map.
  f_equal. apply map_ext. intros t. apply turnMessages_shown.
Qed.

Lemma toolMessages_split (tcs tcs' : list (string * string))
    (rest rest' : list ChatCompletionMessage) :
  (∀ m, head rest = Some m → Role m ≠ "tool") →
  (∀ m, head rest' = Some m → Role m ≠ "tool") →
  map (λ p, {| Role := "tool"; Content := p.1; ToolCallID := p.2 |}) tcs ++ rest
  = map (λ p, {| Role := "tool"; Content := p.1; ToolCallID := p.2 |}) tcs' ++ rest' →
  tcs = tcs' ∧ rest = rest'.
Proof.
  intros Hrest Hrest'. revert tcs'.
  induction tcs as [|[res id] tcs IH]; intros [|[res' id'] tcs']; simpl.
  - done.
  - intros ->. by destruct (Hrest _ eq_refl).
  - intros <-. by destruct (Hrest' _ eq_refl).
  - intros [= -> -> Heq]. destruct (IH _ Heq) as [-> ->]. done.
Qed.

Lemma messagesOfShown_head (l : list (string * string * list (string * string))) m :
  head (concat (map messagesOfShown l)) = Some m → Role m ≠ "tool".
Proof. destruct l as [|s l]; simpl; [done|]. by intros [= <-]. Qed.

Lemma messagesOfShown_inj (l l' : list (string * string * list (string * string))) :
  concat (map messagesOfShown l) = concat (map messagesOfShown l') → l = l'.
Proof.
  revert l'. induction l as [|[[u a] tcs] l IH]; intros [|[[u' a'] tcs'] l']; simpl;
    try done.
  intros [= -> -> Heq].
  apply toolMessages_split in Heq as [-> Heq]; try apply messagesOfShown_head.
  by rewrite (IH _ Heq).
Qed.

(** X8.  Two contexts project to the same messages exactly when they
    agree on the content of the system prompt and, turn by turn, on the user
    content, the assistant content and each tool call's result and id.  The
    projection determines these, and depends on nothing else. *)
Theorem ToOpenAIMessages_shows (r r' : ReplayContext) :
  ToOpenAIMessages r = ToOpenAIMessages r' ↔ shown r = shown r'.
Proof.
  rewrite !ToOpenAIMessages_canonical, !canonicalMessages_shown.
  destruct (shown r) as [sys turns], (shown r') as [sys' turns']. simpl. split.
  - intros [= -> Heq]. by rewrite (messagesOfShown_inj _ _ Heq).
  - by intros [= -> ->].
Qed.

End ProjectionContents.

(* ===================================================================== *)
(** * Encoding: when it succeeds                                          *)
(* ===================================================================== *)

Section EncoderSuccess.
Import Go Replay Codec.
Context `{!Runtime}.

(** A dynamic value json.Marshal accepts: no unsupported value and no NaN or
    infinity anywhere in it. *)
Fixpoint supported (v : any) : bool :=
  match v with
  | AnyFloat64 f => float64_IsFinite f
  | AnySlice l => forallb supported l
  | AnyMap m => bool_decide (map_Forall (λ _ b, b = true) (supported <$> m))
  | AnyOpaque => false
  | _ => true
  end.

Definition supportedMap (m : gomap) : bool :=
  match m with
  | None => true
  | Some m => supported (AnyMap m)
  end.

Lemma is_Some_Some {A} (x : A) : is_Some (Some x) ↔ True.
Proof. split; [done|by eexists]. Qed.

Lemma is_Some_None {A} : is_Some (@None A) ↔ False.
Proof. split; [by intros [? [=]]|done]. Qed.

Lemma marshalFloat64_is_Some (f : float64) :
  is_Some (marshalFloat64 f) ↔ float64_IsFinite f = true.
Proof.
  unfold marshalFloat64. destruct (float64_IsFinite f).
  - by rewrite is_Some_Some.
  - by rewrite is_Some_None.
Qed.

Lemma marshalAny_supported (v : any) : is_Some (marshalAny v) ↔ supported v = true.
Proof.
  induction v as [|b|f|s|l IH|m IH| |j0] using any_ind'; simpl.
  - by rewrite is_Some_Some.
  - by rewrite is_Some_Some.
  - apply marshalFloat64_is_Some.
  - by rewrite is_Some_Some.
  - rewrite fmap_is_Some, mapM_is_Some, forallb_forall, Forall_forall.
    rewrite Forall_forall in IH. split.
    + intros Hl v Hv%list_elem_of_In. apply IH; [done|]. by apply Hl.
    + intros Hl v Hv. apply IH; [done|]. by apply Hl, list_elem_of_In.
  - rewrite bool_decide_eq_true, map_Forall_fmap.
    destruct (all_Some (marshalAny <$> m)) eqn:Hall.
    + rewrite is_Some_Some.
      apply all_Some_spec, map_Forall_fmap in Hall. split; [|done].
      intros _ k v Hk. simpl. apply (IH k v Hk). by apply (Hall k v).
    + rewrite is_Some_None. split; [done|]. intros Hm.
      assert (all_Some (marshalAny <$> m) = true); [|congruence].
      apply all_Some_spec, map_Forall_fmap. intros k v Hk. simpl.
      apply (IH k v Hk). by apply (Hm k v).
  - by rewrite is_Some_None.
  - by rewrite is_Some_Some.
Qed.

Lemma marshalMap_supported (m : gomap) : is_Some (marshalMap m) ↔ supportedMap m = true.
Proof.
  destruct m as [m|]; simpl; [apply (marshalAny_supported (AnyMap m))|].
  by rewrite is_Some_Some.
Qed.

Lemma omitted_is_Some keep name j obj :
  is_Some (omitted keep name j obj) ↔ (keep = true → is_Some j).
Proof.
  destruct keep; simpl.
  - destruct j; simpl; rewrite ?is_Some_Some, ?is_Some_None; [done|].
    split; [done|]. intros Hj. by destruct (Hj eq_refl).
  - by rewrite is_Some_Some.
Qed.

(** A step of an encoder succeeds when its value is encoded and the rest
    succeeds, the rest not depending on the value for that. *)
Lemma bind_is_Some {A B} (a : option A) (k : A → option B) (P : Prop) :
  (∀ x, is_Some (k x) ↔ P) → (is_Some (a ≫= k) ↔ is_Some a ∧ P).
Proof.
  intros Hk. destruct a as [x|]; simpl.
  - specialize (Hk x). split.
    + intros HP%Hk. split; [by eexists|done].
    + intros [_ HP]. by apply Hk.
  - split; [by intros [? [=]]|by intros [[? [=]] _]].
Qed.

Lemma bind_omitted_is_Some {B} keep name j obj (k : gmap string json → option B) (P : Prop) :
  (∀ o, is_Some (k o) ↔ P) →
  (is_Some (omitted keep name j obj ≫= k) ↔ (keep = true → is_Some j) ∧ P).
Proof. intros Hk. by rewrite (bind_is_Some _ _ P Hk), omitted_is_Some. Qed.

Ltac encoder_steps :=
  repeat first [ apply bind_omitted_is_Some; intros ?
               | apply bind_is_Some; intros ?
               | apply is_Some_Some ].

Lemma supportedMap_empty (m : gomap) : maplen m = 0 → supportedMap m = true.
Proof.
  destruct m as [m|]; simpl; [|done].
  intros ->%map_size_empty_inv. by rewrite fmap_empty.
Qed.

Lemma kept_map_is_Some (m : gomap) :
  (bool_decide (0 < maplen m) = true → is_Some (marshalMap m))
  ↔ supportedMap m = true.
Proof.
  rewrite marshalMap_supported. split; [|done].
  intros Hm. case_bool_decide as Hlen; [by apply Hm|].
  apply supportedMap_empty. lia.
Qed.

Lemma marshalSlice_is_Some {A} (f : A → option json) (p : A → bool) (s : slice A) :
  (∀ x, is_Some (f x) ↔ p x = true) →
  is_Some (marshalSlice f s) ↔ forallb p (elems s) = true.
Proof.
  intros Hf. destruct s as [l|]; simpl; [|by rewrite is_Some_Some].
  rewrite fmap_is_Some, mapM_is_Some, forallb_forall, Forall_forall. split.
  - intros Hl x Hx%list_elem_of_In. apply Hf. by apply Hl.
  - intros Hl x Hx. apply Hf. by apply Hl, list_elem_of_In.
Qed.

Lemma kept_slice_is_Some {A} (f : A → option json) (p : A → bool) (s : slice A) :
  (∀ x, is_Some (f x) ↔ p x = true) →
  (bool_decide (0 < len s) = true → is_Some (marshalSlice f s))
  ↔ forallb p (elems s) = true.
Proof.
  intros Hf. rewrite (marshalSlice_is_Some f p s Hf). split; [|done].
  intros Hs. case_bool_decide as Hlen; [by apply Hs|].
  unfold len in Hlen. destruct (elems s); [done|simpl in Hlen; lia].
Qed.

Definition encodableModelConfig (c : ModelConfig) : bool :=
  float64_IsFinite (ModelConfig_Temperature c)
  && float64_IsFinite (ModelConfig_TopP c)
  && float64_IsFinite (ModelConfig_FrequencyPenalty c)
  && float64_IsFinite (ModelConfig_PresencePenalty c)
  && supportedMap (ModelConfig_ExtraParams c).

Definition encodableToolCall (e : ToolCallExecution) : bool :=
  supportedMap (ToolCallExecution_Arguments e).

Definition encodableTurn (t : ConversationTurn) : bool :=
  forallb encodableToolCall (elems (ConversationTurn_ToolCalls t)).

Definition encodableMetadata (m : SessionMetadata) : bool :=
  supportedMap (SessionMetadata_CustomFields m)
  && float64_IsFinite (SessionMetadata_TotalCost m)
  && supportedMap (SessionMetadata_AdditionalInfo m).

Definition encodable (r : ReplayContext) : bool :=
  encodableModelConfig (ReplayContext_ModelConfig r)
  && supportedMap (SystemPrompt_Metadata (ReplayContext_SystemPrompt r))
  && forallb (λ d, supportedMap (ToolDefinition_Function d)) (elems (ReplayContext_Tools r))
  && forallb encodableTurn (elems (ReplayContext_ConversationHistory r))
  && encodableMetadata (ReplayContext_Metadata r).

Lemma marshalModelConfig_is_Some (c : ModelConfig) :
  is_Some (marshalModelConfig c) ↔ encodableModelConfig c = true.
Proof.
  etrans; [unfold marshalModelConfig; encoder_steps|].
  unfold encodableModelConfig.
  rewrite !andb_true_iff, !marshalFloat64_is_Some, kept_map_is_Some. tauto.
Qed.

Lemma marshalSystemPrompt_is_Some (p : SystemPrompt) :
  is_Some (marshalSystemPrompt p) ↔ supportedMap (SystemPrompt_Metadata p) = true.
Proof.
  etrans; [unfold marshalSystemPrompt; encoder_steps|].
  rewrite kept_map_is_Some. tauto.
Qed.

Lemma marshalToolDefinition_is_Some (d : ToolDefinition) :
  is_Some (marshalToolDefinition d) ↔ supportedMap (ToolDefinition_Function d) = true.
Proof.
  etrans; [unfold marshalToolDefinition; encoder_steps|].
  rewrite marshalMap_supported. tauto.
Qed.

Lemma marshalToolCallExecution_is_Some (e : ToolCallExecution) :
  is_Some (marshalToolCallExecution e) ↔ encodableToolCall e = true.
Proof.
  etrans; [unfold marshalToolCallExecution; encoder_steps|].
  rewrite marshalMap_supported, is_Some_Some. unfold encodableToolCall. tauto.
Qed.

Lemma marshalLLMResponse_is_Some (m : LLMResponse) : is_Some (marshalLLMResponse m) ↔ True.
Proof.
  etrans; [unfold marshalLLMResponse; encoder_steps|].
  rewrite !is_Some_Some. tauto.
Qed.

Lemma marshalConversationTurn_is_Some (t : ConversationTurn) :
  is_Some (marshalConversationTurn t) ↔ encodableTurn t = true.
Proof.
  etrans; [unfold marshalConversationTurn; encoder_steps|].
  rewrite marshalLLMResponse_is_Some. unfold marshalUserMessage, marshalTokenUsage.
  rewrite !is_Some_Some,
    (kept_slice_is_Some _ encodableToolCall _ marshalToolCallExecution_is_Some).
  unfold encodableTurn. tauto.
Qed.

Lemma marshalSessionMetadata_is_Some (m : SessionMetadata) :
  is_Some (marshalSessionMetadata m) ↔ encodableMetadata m = true.
Proof.
  etrans; [unfold marshalSessionMetadata; encoder_steps|].
  rewrite (marshalSlice_is_Some _ (λ _, true)) by (intros x; by rewrite is_Some_Some).
  rewrite !kept_map_is_Some, marshalFloat64_is_Some.
  unfold encodableMetadata. rewrite !andb_true_iff.
  assert (Htags : forallb (λ _ : string, true) (elems (SessionMetadata_Tags m)) = true).
  { by induction (elems (SessionMetadata_Tags m)). }
  assert (Hcost : float64_IsZero (SessionMetadata_TotalCost m) = true →
                  float64_IsFinite (SessionMetadata_TotalCost m) = true).
  { by destruct (SessionMetadata_TotalCost m) as [[]| | |]. }
  destruct (float64_IsZero (SessionMetadata_TotalCost m)); simpl; [|tauto].
  specialize (Hcost eq_refl). tauto.
Qed.

Lemma ToJSON_is_Some (r : ReplayContext) :
  is_Some (ToJSON r)
  ↔ is_Some (Time_MarshalJSON (ReplayContext_Timestamp r)) ∧ encodable r = true.
Proof.
  etrans; [unfold ToJSON; encoder_steps|].
  unfold marshalTime. rewrite fmap_is_Some.
  rewrite marshalModelConfig_is_Some, marshalSystemPrompt_is_Some,
    (marshalSlice_is_Some _ _ _ marshalToolDefinition_is_Some),
    (marshalSlice_is_Some _ _ _ marshalConversationTurn_is_Some),
    marshalSessionMetadata_is_Some.
  unfold encodable. rewrite !andb_true_iff. tauto.
Qed.

(** X9.  [ToJSON] returns a document exactly when the timestamp can be
    rendered, every float of the model configuration and the total cost are
    finite, and every map of the context (extra parameters, prompt metadata,
    function definitions, tool arguments, custom fields, additional info)
    holds supported values only. *)
Theorem ToJSON_succeeds_iff (r : ReplayContext) :
  is_Some (ToJSON r)
  ↔ is_Some (Time_MarshalJSON (ReplayContext_Timestamp r)) ∧ encodable r = true.
Proof. apply ToJSON_is_Some. Qed.

End EncoderSuccess.

(* ===================================================================== *)
(** * Encoding: what a round trip keeps                                   *)
(* ===================================================================== *)

Section RoundTripFields.
Import Go Replay Codec.
Context `{!Runtime}.

Ltac lookups := rewrite ?lookup_insert, ?lookup_singleton, ?lookup_empty; simpl.

Definition coerceUserMessage (m : UserMessage) : UserMessage :=
  {| UserMessage_Role := ToValidUTF8 (UserMessage_Role m);
     UserMessage_Content := ToValidUTF8 (UserMessage_Content m) |}.

Definition coerceLLMResponse (m : LLMResponse) : LLMResponse :=
  {| LLMResponse_Role := ToValidUTF8 (LLMResponse_Role m);
     LLMResponse_Content := ToValidUTF8 (LLMResponse_Content m);
     LLMResponse_ToolCalls := LLMResponse_ToolCalls m;
     LLMResponse_Reasoning := ToValidUTF8 (LLMResponse_Reasoning m);
     LLMResponse_FinishReason := ToValidUTF8 (LLMResponse_FinishReason m) |}.

(** [e'] is [e] with its strings coerced, whatever its arguments. *)
Definition keptToolCall (e e' : ToolCallExecution) : Prop :=
  e' = {| ToolCallExecution_ToolName := ToValidUTF8 (ToolCallExecution_ToolName e);
          ToolCallExecution_ToolID := ToValidUTF8 (ToolCallExecution_ToolID e);
          ToolCallExecution_Arguments := ToolCallExecution_Arguments e';
          ToolCallExecution_Result := ToValidUTF8 (ToolCallExecution_Result e);
          ToolCallExecution_StartTime := ToValidUTF8 (ToolCallExecution_StartTime e);
          ToolCallExecution_EndTime := ToValidUTF8 (ToolCallExecution_EndTime e);
          ToolCallExecution_DurationMs := ToolCallExecution_DurationMs e;
          ToolCallExecution_Success := ToolCallExecution_Success e;
          ToolCallExecution_Error := ToValidUTF8 (ToolCallExecution_Error e) |}.

(** [t'] is [t] with its strings coerced and its tool calls kept one by one;
    the slice of tool calls is nil exactly when [t] had none. *)
Definition keptTurn (t t' : ConversationTurn) : Prop :=
  t' = {| ConversationTurn_Round := ConversationTurn_Round t;
          ConversationTurn_Timestamp := ToValidUTF8 (ConversationTurn_Timestamp t);
          ConversationTurn_TurnID := ToValidUTF8 (ConversationTurn_TurnID t);
          ConversationTurn_UserInput := coerceUserMessage (ConversationTurn_UserInput t);
          ConversationTurn_LLMResponse := coerceLLMResponse (ConversationTurn_LLMResponse t);
          ConversationTurn_ToolCalls := ConversationTurn_ToolCalls t';
          ConversationTurn_TokenUsage := ConversationTurn_TokenUsage t |}
  ∧ (ConversationTurn_ToolCalls t' = None ↔ len (ConversationTurn_ToolCalls t) = 0)
  ∧ Forall2 keptToolCall (elems (ConversationTurn_ToolCalls t))
                         (elems (ConversationTurn_ToolCalls t')).

Lemma omitted_string (s : string) name obj obj' :
  omitted (bool_decide (s ≠ "")) name (Some (marshalString s)) obj = Some obj' →
  (s ≠ "" ∧ obj' = <[name := marshalString s]> obj) ∨ (s = "" ∧ obj' = obj).
Proof.
  case_bool_decide as Hs; simpl; intros [= <-]; [by left|right].
  split; [|done]. by destruct (decide (s = "")).
Qed.

Lemma unmarshalSlice_marshalSlice_nil {A B} (f : A → option json) (g : json → option B)
    (R : A → B → Prop) (s : slice A) (j : json) :
  (∀ x jx, x ∈ elems s → f x = Some jx → ∃ y, g jx = Some y ∧ R x y) →
  marshalSlice f s = Some j →
  ∃ s', unmarshalSlice g j = Some s' ∧ Forall2 R (elems s) (elems s')
        ∧ (s' = None ↔ s = None).
Proof.
  destruct s as [l|]; simpl.
  - intros Hfg. destruct (mapM f l) as [js|] eqn:Hjs; [|done]. intros [= <-].
    destruct (mapM_roundtrip f g R l js Hfg Hjs) as (ys & Hys & HR).
    exists (Some ys). simpl. by rewrite Hys.
  - intros _ [= <-]. by exists None.
Qed.

Lemma unmarshalUserMessage_exact (m : UserMessage) (j : json) :
  marshalUserMessage m = Some j → unmarshalUserMessage j = Some (coerceUserMessage m).
Proof.
  intros [= <-]. unfold unmarshalUserMessage, unmarshalStruct, field. by lookups.
Qed.

Lemma unmarshalLLMResponse_exact (m : LLMResponse) (j : json) :
  marshalLLMResponse m = Some j → unmarshalLLMResponse j = Some (coerceLLMResponse m).
Proof.
  unfold marshalLLMResponse, coerceLLMResponse.
  destruct (omitted _ "reasoning" _ _) as [obj1|] eqn:Hobj1; [|done]. simpl.
  destruct (omitted _ "finish_reason" _ _) as [obj2|] eqn:Hobj2; [|done].
  intros [= <-]. unfold unmarshalLLMResponse, unmarshalStruct, field.
  apply omitted_string in Hobj1 as [[_ ->]|[-> ->]];
    apply omitted_string in Hobj2 as [[_ ->]|[-> ->]];
    by lookups.
Qed.

Lemma unmarshalTokenUsage_exact (u : TokenUsage) (j : json) :
  is_int64 (TokenUsage_PromptTokens u) = true →
  is_int64 (TokenUsage_CompletionTokens u) = true →
  is_int64 (TokenUsage_TotalTokens u) = true →
  marshalTokenUsage u = Some j → unmarshalTokenUsage j = Some u.
Proof.
  intros H1 H2 H3 [= <-]. unfold unmarshalTokenUsage, unmarshalStruct, field.
  lookups. rewrite H1, H2, H3. simpl. by destruct u.
Qed.

Lemma unmarshalToolCallExecution_exact (e : ToolCallExecution) (j : json) :
  readableToolCall e = true →
  marshalToolCallExecution e = Some j →
  ∃ e', unmarshalToolCallExecution j = Some e' ∧ keptToolCall e e'.
Proof.
  unfold readableToolCall, marshalToolCallExecution. intros [Hint Hdec]%andb_prop.
  destruct (marshalMap (ToolCallExecution_Arguments e)) as [ja|] eqn:Hargs; [|done].
  simpl.
  destruct (omitted _ _ _ _) as [obj|] eqn:Hobj; [|done]. intros [= <-].
  destruct (unmarshalMap_marshalMap _ _ Hdec Hargs) as [args Hargs'].
  unfold unmarshalToolCallExecution, unmarshalStruct, field, keptToolCall.
  apply omitted_string in Hobj as [[_ ->]|[Herr ->]].
  - lookups. rewrite Hargs', Hint. simpl. by eexists.
  - lookups. rewrite Hargs', Hint, Herr. simpl. by eexists.
Qed.

Lemma unmarshalConversationTurn_exact (t : ConversationTurn) (j : json) :
  readableTurn t = true →
  marshalConversationTurn t = Some j →
  ∃ t', unmarshalConversationTurn j = Some t' ∧ keptTurn t t'.
Proof.
  unfold readableTurn, marshalConversationTurn.
  intros ((((Hround & Hp)%andb_prop & Hc)%andb_prop & Ht)%andb_prop & Htcs)%andb_prop.
  destruct (marshalUserMessage _) as [ju|] eqn:Hu; [|done].
  destruct (marshalLLMResponse _) as [jl|] eqn:Hl; [|done].
  destruct (marshalTokenUsage _) as [jt|] eqn:Htu; [|done].
  cbn [mbind option_bind].
  destruct (omitted _ _ _ _) as [obj|] eqn:Hobj; [|done]. intros [= <-].
  apply unmarshalUserMessage_exact in Hu.
  apply unmarshalLLMResponse_exact in Hl.
  apply unmarshalTokenUsage_exact in Htu; [|done..].
  unfold unmarshalConversationTurn, unmarshalStruct, field, keptTurn.
  apply omitted_Some in Hobj as [(Hkeep & v & Hv & ->)|[Hkeep ->]].
  - eapply (unmarshalSlice_marshalSlice_nil _ unmarshalToolCallExecution keptToolCall)
      in Hv as (tcs' & Htcs' & Hagree & Hnil).
    + lookups. rewrite Hround, Hu, Hl, Htcs', Htu. simpl.
      eexists. split; [done|]. simpl. split; [done|]. split; [|done].
      apply bool_decide_eq_true in Hkeep. rewrite Hnil. split.
      * intros Hn. rewrite Hn in Hkeep. unfold len in Hkeep. simpl in Hkeep. lia.
      * intros Hn. lia.
    + intros e je He Hje. apply unmarshalToolCallExecution_exact; [|done].
      rewrite forallb_forall in Htcs. by apply Htcs, list_elem_of_In.
  - lookups. rewrite Hround, Hu, Hl, Htu. simpl.
    apply bool_decide_eq_false in Hkeep.
    assert (Hlen : len (ConversationTurn_ToolCalls t) = 0) by lia.
    eexists. split; [done|]. simpl. split; [done|]. split; [done|].
    unfold len in Hlen. destruct (elems (ConversationTurn_ToolCalls t)); [constructor|done].
Qed.


Definition keptModelConfig (c c' : ModelConfig) : Prop :=
  c' = {| ModelConfig_Model := ToValidUTF8 (ModelConfig_Model c);
          ModelConfig_BaseURL := ToValidUTF8 (ModelConfig_BaseURL c);
          ModelConfig_Temperature := ModelConfig_Temperature c;
          ModelConfig_MaxTokens := ModelConfig_MaxTokens c;
          ModelConfig_TopP := ModelConfig_TopP c;
          ModelConfig_FrequencyPenalty := ModelConfig_FrequencyPenalty c;
          ModelConfig_PresencePenalty := ModelConfig_PresencePenalty c;
          ModelConfig_ExtraParams := ModelConfig_ExtraParams c' |}.

Definition keptSystemPrompt (p p' : SystemPrompt) : Prop :=
  p' = {| SystemPrompt_Content := ToValidUTF8 (SystemPrompt_Content p);
          SystemPrompt_Role := ToValidUTF8 (SystemPrompt_Role p);
          SystemPrompt_Metadata := SystemPrompt_Metadata p' |}.

Definition keptToolDefinition (d d' : ToolDefinition) : Prop :=
  ToolDefinition_Type d' = ToValidUTF8 (ToolDefinition_Type d).

(** The total cost comes back as it was, but for a negative zero, which is
    left out and read as the positive one. *)
Definition keptMetadata (m m' : SessionMetadata) : Prop :=
  SessionMetadata_Environment m' = ToValidUTF8 (SessionMetadata_Environment m)
  ∧ (SessionMetadata_Tags m' = None ↔ SessionMetadata_Tags m = None)
  ∧ elems (SessionMetadata_Tags m') = map ToValidUTF8 (elems (SessionMetadata_Tags m))
  ∧ SessionMetadata_ResponseTimeMs m' = SessionMetadata_ResponseTimeMs m
  ∧ SessionMetadata_TotalCost m'
    = (if float64_IsZero (SessionMetadata_TotalCost m) then float64_zero
       else SessionMetadata_TotalCost m).

(** Everything of [r] but the instant and the contents of the maps is in
    [r'], strings coerced to valid UTF-8. *)
Definition keptContext (r r' : ReplayContext) : Prop :=
  ReplayContext_SessionID r' = ToValidUTF8 (ReplayContext_SessionID r)
  ∧ ReplayContext_UserID r' = ToValidUTF8 (ReplayContext_UserID r)
  ∧ ReplayContext_TraceID r' = ToValidUTF8 (ReplayContext_TraceID r)
  ∧ keptModelConfig (ReplayContext_ModelConfig r) (ReplayContext_ModelConfig r')
  ∧ keptSystemPrompt (ReplayContext_SystemPrompt r) (ReplayContext_SystemPrompt r')
  ∧ (ReplayContext_Tools r' = None ↔ ReplayContext_Tools r = None)
  ∧ Forall2 keptToolDefinition (elems (ReplayContext_Tools r)) (elems (ReplayContext_Tools r'))
  ∧ (ReplayContext_ConversationHistory r' = None
     ↔ ReplayContext_ConversationHistory r = None)
  ∧ Forall2 keptTurn (elems (ReplayContext_ConversationHistory r))
                     (elems (ReplayContext_ConversationHistory r'))
  ∧ keptMetadata (ReplayContext_Metadata r) (ReplayContext_Metadata r').

Lemma unmarshalToolDefinition_exact (d : ToolDefinition) (j : json) :
  decodableMap (ToolDefinition_Function d) = true →
  marshalToolDefinition d = Some j →
  ∃ d', unmarshalToolDefinition j = Some d' ∧ keptToolDefinition d d'.
Proof.
  unfold marshalToolDefinition. intros Hdec.
  destruct (marshalMap _) as [jf|] eqn:Hf; [|done]. intros [= <-].
  destruct (unmarshalMap_marshalMap _ _ Hdec Hf) as [f' Hf'].
  unfold unmarshalToolDefinition, unmarshalStruct, field.
  lookups. rewrite Hf'. simpl. by eexists.
Qed.

Lemma unmarshalSystemPrompt_exact (p : SystemPrompt) (j : json) :
  decodableMap (SystemPrompt_Metadata p) = true →
  marshalSystemPrompt p = Some j →
  ∃ p', unmarshalSystemPrompt j = Some p' ∧ keptSystemPrompt p p'.
Proof.
  unfold marshalSystemPrompt, keptSystemPrompt. intros Hdec.
  destruct (omitted _ _ _ _) as [obj|] eqn:Hobj; [|done]. intros [= <-].
  unfold unmarshalSystemPrompt, unmarshalStruct, field.
  apply omitted_Some in Hobj as [(_ & v & Hv & ->)|[_ ->]].
  - destruct (unmarshalMap_marshalMap _ _ Hdec Hv) as [m' Hm'].
    lookups. rewrite Hm'. simpl. by eexists.
  - lookups. by eexists.
Qed.

Lemma unmarshalModelConfig_exact (c : ModelConfig) (j : json) :
  is_int64 (ModelConfig_MaxTokens c) = true →
  decodableMap (ModelConfig_ExtraParams c) = true →
  marshalModelConfig c = Some j →
  ∃ c', unmarshalModelConfig j = Some c' ∧ keptModelConfig c c'.
Proof.
  unfold marshalModelConfig, keptModelConfig. intros Hint Hdec.
  destruct (marshalFloat64 (ModelConfig_Temperature c)) as [j1|] eqn:H1; [|done].
  destruct (marshalFloat64 (ModelConfig_TopP c)) as [j2|] eqn:H2; [|done].
  destruct (marshalFloat64 (ModelConfig_FrequencyPenalty c)) as [j3|] eqn:H3; [|done].
  destruct (marshalFloat64 (ModelConfig_PresencePenalty c)) as [j4|] eqn:H4; [|done].
  cbn [mbind option_bind].
  destruct (omitted _ _ _ _) as [obj|] eqn:Hobj; [|done]. intros [= <-].
  apply unmarshalFloat64_marshalFloat64 in H1, H2, H3, H4.
  unfold unmarshalModelConfig, unmarshalStruct, field.
  apply omitted_Some in Hobj as [(_ & v & Hv & ->)|[_ ->]].
  - destruct (unmarshalMap_marshalMap _ _ Hdec Hv) as [m' Hm'].
    lookups. rewrite H1, H2, H3, H4, Hint, Hm'. simpl. by eexists.
  - lookups. rewrite H1, H2, H3, H4, Hint. simpl. by eexists.
Qed.

Lemma mapM_strings (l : list string) :
  mapM unmarshalString (map marshalString l) = Some (map ToValidUTF8 l).
Proof. induction l as [|s l IH]; simpl; [done|]. by rewrite IH. Qed.

Lemma mapM_marshalString (l : list string) :
  mapM (λ s, Some (marshalString s)) l = Some (map marshalString l).
Proof. induction l as [|s l IH]; simpl; [done|]. by rewrite IH. Qed.

Lemma unmarshalSessionMetadata_exact (m : SessionMetadata) (j : json) :
  is_int64 (SessionMetadata_ResponseTimeMs m) = true →
  decodableMap (SessionMetadata_CustomFields m) = true →
  decodableMap (SessionMetadata_AdditionalInfo m) = true →
  marshalSessionMetadata m = Some j →
  ∃ m', unmarshalSessionMetadata j = Some m' ∧ keptMetadata m m'.
Proof.
  unfold marshalSessionMetadata, keptMetadata. intros Hint Hcustom Hinfo.
  destruct (marshalSlice _ (SessionMetadata_Tags m)) as [jtags|] eqn:Htags; [|done].
  cbn [mbind option_bind].
  destruct (omitted _ "custom_fields" _ _) as [obj1|] eqn:Hobj1; [|done].
  cbn [mbind option_bind].
  destruct (omitted _ "total_cost" _ _) as [obj2|] eqn:Hobj2; [|done].
  cbn [mbind option_bind].
  destruct (omitted _ "additional_info" _ _) as [obj3|] eqn:Hobj3; [|done].
  intros [= <-].
  assert (Htags' : ∃ tags', unmarshalSlice unmarshalString jtags = Some tags'
            ∧ (tags' = None ↔ SessionMetadata_Tags m = None)
            ∧ elems tags' = map ToValidUTF8 (elems (SessionMetadata_Tags m))).
  { destruct (SessionMetadata_Tags m) as [l|]; simpl in Htags.
    - rewrite mapM_marshalString in Htags. injection Htags as <-. simpl.
      rewrite mapM_strings. simpl. by eexists.
    - injection Htags as <-. by exists None. }
  destruct Htags' as (tags' & Htags' & Hnil & Helems).
  unfold unmarshalSessionMetadata, unmarshalStruct, field.
  apply omitted_Some in Hobj1 as [(_ & v1 & Hv1 & ->)|[_ ->]];
    apply omitted_Some in Hobj2 as [(Hz & v2 & Hv2 & ->)|[Hz ->]];
    apply omitted_Some in Hobj3 as [(_ & v3 & Hv3 & ->)|[_ ->]];
    try (destruct (unmarshalMap_marshalMap _ _ Hcustom Hv1) as [m1 Hm1]);
    try (apply unmarshalFloat64_marshalFloat64 in Hv2);
    try (destruct (unmarshalMap_marshalMap _ _ Hinfo Hv3) as [m3 Hm3]);
    destruct (float64_IsZero (SessionMetadata_TotalCost m)); try discriminate;
    lookups; rewrite Htags', Hint, ?Hm1, ?Hv2, ?Hm3; simpl; eexists;
    (split; [done|]); simpl; done.
Qed.

(** X10.  For a context with its integers in range and the numbers of
    its maps ones a float64 holds, decoding what [ToJSON] wrote succeeds and
    gives back every field but the instant and the contents of the maps:
    strings coerced to valid UTF-8, numbers and flags as they were (but for a
    total cost of negative zero, which is left out and comes back as the
    positive zero), tools and turns one for one, a nil slice exactly where
    one was; a turn's tool calls come back nil exactly when it had none. *)
Theorem roundtrip_keeps_fields (r : ReplayContext) (doc : json) :
  (∀ t s, Time_MarshalJSON t = Some s → is_Some (Time_UnmarshalJSON s)) →
  wellTyped r = true →
  ToJSON r = Some doc →
  ∃ r', FromJSON doc = Some r' ∧ keptContext r r'.
Proof.
  unfold wellTyped, ToJSON.
  intros Htime
    (((((((Hmax & Hresp)%andb_prop & Hturns)%andb_prop & Hextra)%andb_prop
        & Hprompt)%andb_prop & Hdefs)%andb_prop & Hcustom)%andb_prop & Hinfo)%andb_prop.
  unfold marshalTime.
  destruct (Time_MarshalJSON (ReplayContext_Timestamp r)) as [ts|] eqn:Hts; [|done].
  destruct (marshalModelConfig _) as [jc|] eqn:Hc; [|done].
  destruct (marshalSystemPrompt _) as [jp|] eqn:Hp; [|done].
  destruct (marshalSlice marshalToolDefinition _) as [jtools|] eqn:Htools; [|done].
  destruct (marshalSlice marshalConversationTurn _) as [jh|] eqn:Hh; [|done].
  destruct (marshalSessionMetadata _) as [jm|] eqn:Hm; [|done].
  cbn [fmap option_fmap option_map mbind option_bind]. intros [= <-].
  destruct (Htime _ _ Hts) as [t' Ht'].
  apply unmarshalModelConfig_exact in Hc as (c' & Hc' & Hkc); [|done..].
  apply unmarshalSystemPrompt_exact in Hp as (p' & Hp' & Hkp); [|done].
  eapply (unmarshalSlice_marshalSlice_nil _ unmarshalToolDefinition keptToolDefinition)
    in Htools as (tools' & Htools' & Hktools & Hniltools).
  2:{ intros d jd Hin Hjd. apply unmarshalToolDefinition_exact; [|done].
      rewrite forallb_forall in Hdefs. by apply Hdefs, list_elem_of_In. }
  eapply (unmarshalSlice_marshalSlice_nil _ unmarshalConversationTurn keptTurn)
    in Hh as (h' & Hh' & Hkh & Hnilh).
  2:{ intros t jt Hin Hjt. apply unmarshalConversationTurn_exact; [|done].
      rewrite forallb_forall in Hturns. by apply Hturns, list_elem_of_In. }
  apply unmarshalSessionMetadata_exact in Hm as (m' & Hm' & Hkm); [|done..].
  unfold FromJSON, unmarshalStruct, field. lookups.
  rewrite Ht', Hc', Hp', Htools', Hh', Hm'. simpl.
  eexists. split; [done|]. unfold keptContext. simpl. by repeat (split; [done|]).
Qed.

End RoundTripFields.

(* ===================================================================== *)
(** * Encoding: maps of dynamic values                                    *)
(* ===================================================================== *)

Section PayloadRoundTrip.
Import Go Replay Codec.











End PayloadRoundTrip.

(* ===================================================================== *)
(** * examples/replay: configuration and tools                            *)
(* ===================================================================== *)

Section MainProperties.
Import Go Replay ReplayMain.
Context `{!Runtime} `{!Text}.

Lemma getEnv_empty (environ : gmap string string) (key defaultValue : string) :
  getEnv environ key defaultValue = "" ↔ Getenv environ key = "" ∧ defaultValue = "".
Proof.
  unfold getEnv. case_bool_decide as Hv; split.
  - intros Hempty. by destruct Hv.
  - intros [Hempty _]. by destruct Hv.
  - intros ->. split; [|done]. by destruct (decide (Getenv environ key = "")).
  - by intros [_ ->].
Qed.

Lemma Getenv_set_empty (environ : gmap string string) (key k : string) :
  Getenv (<[key := ""]> environ) k = Getenv (delete key environ) k.
Proof.
  unfold Getenv. destruct (decide (key = k)) as [->|Hne].
  - by rewrite lookup_insert_eq, lookup_delete_eq.
  - by rewrite lookup_insert_ne, lookup_delete_ne.
Qed.

(** X12.  Whatever the environment, the configuration [LoadConfig]
    returns has its three keys non-empty, so the guard at the head of [main]
    never stops the program; and a variable set to the empty string counts
    as one that is not set. *)
Theorem LoadConfig_keys_present (environ : gmap string string) (key : string) :
  keysMissing (LoadConfig environ) = false
  ∧ LoadConfig (<[key := ""]> environ) = LoadConfig (delete key environ).
Proof.
  split.
  - unfold keysMissing, LoadConfig. simpl.
    rewrite !orb_false_iff, !bool_decide_eq_false, !getEnv_empty.
    split; [split|]; by intros [_ [=]].
  - unfold LoadConfig, getEnv. by rewrite !Getenv_set_empty.
Qed.

(** X13.  A calculator call with the operation "divide" is answered
    "Error: division by zero" whenever the argument b is a zero of either
    sign, is missing, or is not a number. *)
Theorem executeTool_division_by_zero (toolCall : ToolCall) :
  let args := Unmarshal (FunctionCall_Arguments (ToolCall_Function toolCall)) in
  FunctionCall_Name (ToolCall_Function toolCall) = "calculator" →
  index args "operation" = AnyString "divide" →
  (∀ b, index args "b" = AnyFloat64 b → SFeqb b float64_zero = true) →
  executeTool toolCall = "Error: division by zero".
Proof.
  intros args Hname Hop Hb. unfold executeTool. fold args.
  rewrite Hname, Hop. simpl.
  destruct (index args "b") as [| | b | | | | |] eqn:Hb'; simpl; try done.
  by rewrite (Hb b eq_refl).
Qed.

(** X14.  A call whose arguments leave the map nil is answered as a
    call without arguments, not refused: get_weather reports the empty city
    unavailable, calculator renders zero, any other name is an unknown
    tool. *)
Theorem executeTool_without_arguments (toolCall : ToolCall) :
  let name := FunctionCall_Name (ToolCall_Function toolCall) in
  Unmarshal (FunctionCall_Arguments (ToolCall_Function toolCall)) = None →
  executeTool toolCall
  = if decide (name = "get_weather") then "Weather for : unavailable"
    else if decide (name = "calculator") then Sprintf_2f float64_zero
    else "Unknown tool: " +:+ name.
Proof.
  intros name Hargs. unfold executeTool. fold name. rewrite Hargs.
  destruct (decide (name = "get_weather")); [done|].
  by destruct (decide (name = "calculator")).
Qed.

Lemma toolRuns_recorded (toolCalls : list ToolCall) (clock : nat → Time * Time) :
  elems (recordToolExecutions (toolRuns toolCalls clock))
  = imap (λ j tc,
            recordToolExecution (FunctionCall_Name (ToolCall_Function tc)) (ToolCall_ID tc)
              (Unmarshal (FunctionCall_Arguments (ToolCall_Function tc)))
              (executeTool tc) (clock j).1 (clock j).2) toolCalls.
Proof.
  rewrite recordToolExecutions_all. unfold toolRuns.
  revert clock. induction toolCalls as [|tc tcs IH]; intros clock; [done|].
  simpl. f_equal. apply (IH (clock ∘ S)).
Qed.

(** X15.  A call of a tool other than get_weather and calculator is
    recorded by the tool loop under its name with the result
    "Unknown tool: <name>", the success flag set and no error. *)
Theorem unknown_tool_recorded_as_success (toolCalls : list ToolCall)
    (clock : nat → Time * Time) (j : nat) (tc : ToolCall) :
  let name := FunctionCall_Name (ToolCall_Function tc) in
  toolCalls !! j = Some tc →
  name ≠ "get_weather" →
  name ≠ "calculator" →
  ∃ e, elems (recordToolExecutions (toolRuns toolCalls clock)) !! j = Some e
       ∧ ToolCallExecution_ToolName e = name
       ∧ ToolCallExecution_Result e = "Unknown tool: " +:+ name
       ∧ ToolCallExecution_Success e = true
       ∧ ToolCallExecution_Error e = "".
Proof.
  intros name Hj Hw Hc. rewrite toolRuns_recorded, list_lookup_imap, Hj. simpl.
  eexists. split; [done|]. simpl. split; [done|]. split; [|done].
  unfold executeTool. fold name.
  destruct (decide (name = "get_weather")); [done|].
  by destruct (decide (name = "calculator")).
Qed.

End MainProperties.

(* ===================================================================== *)
(** * examples/replay: the rounds of main                                 *)
(* ===================================================================== *)

Section RoundsProperties.
Import Go Replay ReplayMain.
Context `{!Runtime} `{!Text}.

Definition tokenUsageOf (usage : Usage) : TokenUsage :=
  {| TokenUsage_PromptTokens := Usage_PromptTokens usage;
     TokenUsage_CompletionTokens := Usage_CompletionTokens usage;
     TokenUsage_TotalTokens := Usage_TotalTokens usage |}.

(** The turn round [i] adds to the history when it gets as far as
    [AddTurn]: the trace was created, the first completion returned a
    choice, and so did the second if the first asked for tools. *)
Definition roundTurn (i : nat) (qa : Question) (ev : RoundEvents) : option ConversationTurn :=
  traceID ← traceCreated ev;
  resp ← firstCompletion ev;
  assistantMsg ← head (Choices resp);
  if bool_decide (0 < len (ToolCalls assistantMsg)) then
    resp2 ← secondCompletion ev;
    finalMsg ← head (Choices resp2);
    Some (newTurn (turnClock ev) (Z.of_nat i + 1) (question qa) (Content (message finalMsg))
            (recordToolExecutions (toolRuns (elems (ToolCalls assistantMsg)) (toolClock ev)))
            (tokenUsageOf (ResponseUsage resp)) traceID)
  else
    Some (newTurn (turnClock ev) (Z.of_nat i + 1) (question qa)
            (Content (message assistantMsg)) None
            (tokenUsageOf (ResponseUsage resp)) traceID).

Fixpoint turnsFrom (i : nat) (questions : list Question) (events : nat → RoundEvents)
    : list ConversationTurn :=
  match questions with
  | [] => []
  | qa :: rest => option_list (roundTurn i qa (events i)) ++ turnsFrom (S i) rest events
  end.

Lemma round_history (i : nat) (qa : Question) (ev : RoundEvents) (l : Loop) :
  wfState (contextBuilder l) →
  let l' := loopOf (round i qa ev l) in
  wfState (contextBuilder l')
  ∧ history (contextBuilder l')
    = history (contextBuilder l) ++ option_list (roundTurn i qa ev)
  ∧ systemPrompt (builder (contextBuilder l')) = systemPrompt (builder (contextBuilder l)).
Proof.
  intros Hwf.
  assert (Hadd : ∀ now round u a tcs usage id,
    let st' := AddTurn (contextBuilder l) now round u a tcs usage id in
    wfState st'
    ∧ history st' = history (contextBuilder l) ++ [newTurn now round u a tcs usage id]
    ∧ systemPrompt (builder st') = systemPrompt (builder (contextBuilder l))).
  { intros now rnd u a tcs usage id.
    destruct (AddTurn_history (contextBuilder l) now rnd u a tcs usage id Hwf) as [Hh Hwf'].
    split; [done|]. split; [done|]. unfold AddTurn. by destruct (append _ _ _ _). }
  unfold round, roundTurn.
  destruct (traceCreated ev) as [traceID|]; simpl; [|by rewrite app_nil_r].
  destruct (firstCompletion ev) as [resp|]; simpl; [|by rewrite app_nil_r].
  destruct (Choices resp) as [|assistantMsg choices]; simpl; [by rewrite app_nil_r|].
  case_bool_decide as Htools; simpl; [|apply Hadd].
  destruct (secondCompletion ev) as [resp2|]; simpl; [|by rewrite app_nil_r].
  destruct (Choices resp2) as [|finalMsg choices2]; simpl; [by rewrite app_nil_r|].
  apply Hadd.
Qed.

(** The history after the rounds that ran: all of them when no round
    panicked. *)
Lemma rounds_history (questions : list Question) (events : nat → RoundEvents)
    (i : nat) (l : Loop) :
  wfState (contextBuilder l) →
  let l' := loopOf (rounds i questions events l) in
  ∃ k, k ≤ length questions
    ∧ history (contextBuilder l')
      = history (contextBuilder l) ++ turnsFrom i (take k questions) events
    ∧ systemPrompt (builder (contextBuilder l')) = systemPrompt (builder (contextBuilder l))
    ∧ ((∃ l'', rounds i questions events l = Continues l'') → k = length questions).
Proof.
  revert i l. induction questions as [|qa rest IH]; intros i l Hwf; simpl.
  - exists 0. simpl. rewrite app_nil_r. repeat (split; [done|]). done.
  - destruct (round_history i qa (events i) l Hwf) as (Hwf' & Hh & Hsys).
    destruct (round i qa (events i) l) as [l1|l1] eqn:Hround; simpl in *.
    + destruct (IH (S i) l1 Hwf') as (k & Hk & Hh' & Hsys' & Hall).
      exists (S k). split; [lia|]. simpl.
      rewrite Hh', Hh, <- app_assoc. split; [done|]. split; [congruence|].
      intros Hc. f_equal. by apply Hall.
    + exists 1. split; [lia|]. simpl. rewrite ?take_0. simpl. rewrite ?app_nil_r.
      repeat (split; [done|]). by intros [? [=]].
Qed.

Lemma roundTurn_Some (i : nat) (qa : Question) (ev : RoundEvents) (t : ConversationTurn) :
  roundTurn i qa ev = Some t →
  ConversationTurn_Round t = (Z.of_nat i + 1)%Z
  ∧ UserMessage_Content (ConversationTurn_UserInput t) = question qa.
Proof.
  unfold roundTurn.
  destruct (traceCreated ev) as [traceID|]; simpl; [|done].
  destruct (firstCompletion ev) as [resp|]; simpl; [|done].
  destruct (head (Choices resp)) as [assistantMsg|]; simpl; [|done].
  case_bool_decide as Htools; [|by intros [= <-]].
  destruct (secondCompletion ev) as [resp2|]; simpl; [|done].
  destruct (head (Choices resp2)) as [finalMsg|]; simpl; [|done].
  by intros [= <-].
Qed.

Lemma turnsFrom_lookup (questions : list Question) (events : nat → RoundEvents)
    (i : nat) (t : ConversationTurn) :
  t ∈ turnsFrom i questions events
  ↔ ∃ k qa, questions !! k = Some qa ∧ roundTurn (i + k) qa (events (i + k)) = Some t.
Proof.
  revert i. induction questions as [|qa rest IH]; intros i; simpl.
  - split; [by intros ?%elem_of_nil|]. by intros (k & qa & Hk & _).
  - rewrite elem_of_app, IH. split.
    + intros [Ht|(k & qa' & Hk & Ht)].
      * exists 0, qa. rewrite Nat.add_0_r. split; [done|].
        destruct (roundTurn i qa (events i)); simpl in Ht; [|by apply elem_of_nil in Ht].
        by apply list_elem_of_singleton in Ht as ->.
      * exists (S k), qa'. split; [done|]. by rewrite Nat.add_succ_r.
    + intros ([|k] & qa' & Hk & Ht); simpl in Hk.
      * injection Hk as <-. rewrite Nat.add_0_r in Ht. left. rewrite Ht. simpl.
        by apply list_elem_of_singleton.
      * right. exists k, qa'. split; [done|]. by rewrite Nat.add_succ_r in Ht.
Qed.

Lemma turnsFrom_length (questions : list Question) (events : nat → RoundEvents) (i : nat) :
  length (turnsFrom i questions events) ≤ length questions.
Proof.
  revert i. induction questions as [|qa rest IH]; intros i; simpl; [done|].
  rewrite length_app. specialize (IH (S i)).
  destruct (roundTurn i qa (events i)); simpl; lia.
Qed.

Lemma turnsFrom_sorted (questions : list Question) (events : nat → RoundEvents) (i : nat) :
  StronglySorted (λ a b, (ConversationTurn_Round a < ConversationTurn_Round b)%Z)
    (turnsFrom i questions events).
Proof.
  revert i. induction questions as [|qa rest IH]; intros i; simpl; [constructor|].
  destruct (roundTurn i qa (events i)) as [t|] eqn:Ht; simpl; [|apply IH].
  constructor; [apply IH|].
  apply Forall_forall. intros t' (k & qa' & Hk & Ht')%turnsFrom_lookup.
  apply roundTurn_Some in Ht as [-> _]. apply roundTurn_Some in Ht' as [-> _]. lia.
Qed.

Lemma setup_reachable (h : Heap) (cfg : Config) (sessionID : string) :
  let st := contextBuilder (start h cfg sessionID) in
  wfState st
  ∧ history st = []
  ∧ systemPrompt (builder st)
    = {| SystemPrompt_Content := systemPromptText;
         SystemPrompt_Role := "system";
         SystemPrompt_Metadata :=
           Some {[ "version" := AnyString "1.0"; "purpose" := AnyString "tool-use-demo" ]} |}.
Proof.
  unfold start, setup. cbn [contextBuilder].
  set (st0 := NewContextBuilder h _ _ _).
  set (st2 := SetSystemPrompt (SetSessionID st0 sessionID) _ _).
  assert (Hwf0 : wfState st0) by apply NewContextBuilder_wf.
  assert (Hwf2 : wfState st2) by done.
  pose proof (call_wf st2 (CallSetTools tools) Hwf2) as Hwf3.
  pose proof (call_history st2 (CallSetTools tools) Hwf2) as Hh3.
  pose proof (SetTools_frame st2 tools) as (_ & _ & Hsys & _).
  simpl in *. split; [done|]. split; [|done].
  rewrite Hh3. rewrite ?app_nil_r.
  exact (NewContextBuilder_history h "user-replay-demo-123" (OpenAIBaseURL cfg)
           (OpenAIModel cfg)).
Qed.

(** X16.  However the rounds of [main] go (a trace not created, a
    completion failing, a response without choices), the history holds at
    most one turn per question, in strictly increasing round numbers, and
    each turn has the number (from one) and the text of its question. *)
Theorem main_history_rounds (h : Heap) (cfg : Config) (sessionID : string)
    (questions : list Question) (events : nat → RoundEvents) :
  let final := loopOf (rounds 0 questions events (start h cfg sessionID)) in
  let turns := history (contextBuilder final) in
  length turns ≤ length questions
  ∧ StronglySorted (λ a b, (ConversationTurn_Round a < ConversationTurn_Round b)%Z) turns
  ∧ Forall (λ t, ∃ k qa, questions !! k = Some qa
                   ∧ ConversationTurn_Round t = (Z.of_nat k + 1)%Z
                   ∧ UserMessage_Content (ConversationTurn_UserInput t) = question qa)
           turns.
Proof.
  intros final turns.
  destruct (setup_reachable h cfg sessionID) as (Hwf & Hh & _).
  destruct (rounds_history questions events 0 (start h cfg sessionID) Hwf)
    as (k & Hk & Hturns & _ & _).
  fold final in Hturns. fold turns in Hturns.
  rewrite Hh in Hturns. simpl in Hturns. rewrite Hturns.
  split; [|split].
  - etrans; [apply turnsFrom_length|]. rewrite length_take. lia.
  - apply turnsFrom_sorted.
  - apply Forall_forall. intros t (j & qa & Hj & Ht)%turnsFrom_lookup.
    apply roundTurn_Some in Ht as [Hround Hq].
    exists j, qa. split; [|done].
    apply lookup_take_Some in Hj as [Hj _]. done.
Qed.

(** X17.  When the loop of [main] ends without a panic, the history
    has a turn numbered k+1 exactly when round k got as far as [AddTurn]: a
    round left by [continue] leaves a gap in the round numbers. *)
Theorem main_history_completed (h : Heap) (cfg : Config) (sessionID : string)
    (questions : list Question) (events : nat → RoundEvents) (final : Loop) :
  rounds 0 questions events (start h cfg sessionID) = Continues final →
  ∀ k : nat,
    (∃ t, t ∈ history (contextBuilder final)
          ∧ ConversationTurn_Round t = (Z.of_nat k + 1)%Z)
    ↔ (∃ qa, questions !! k = Some qa ∧ is_Some (roundTurn k qa (events k))).
Proof.
  intros Hrounds k.
  destruct (setup_reachable h cfg sessionID) as (Hwf & Hh & _).
  destruct (rounds_history questions events 0 (start h cfg sessionID) Hwf)
    as (n & Hn & Hturns & _ & Hall).
  rewrite Hrounds in Hturns, Hall. cbn [loopOf] in Hturns.
  rewrite Hh, Hall, take_ge in Hturns by eauto. simpl in Hturns. rewrite Hturns.
  split.
  - intros (t & (j & qa & Hj & Ht)%turnsFrom_lookup & Hround). simpl in Ht.
    pose proof (roundTurn_Some _ _ _ _ Ht) as [Hround' _].
    assert (j = k) as -> by lia. exists qa. split; [done|]. by eexists.
  - intros (qa & Hk & [t Ht]). exists t. split.
    + apply turnsFrom_lookup. by exists k, qa.
    + by apply roundTurn_Some in Ht as [-> _].
Qed.

(** A message of the projection as a message of the conversation: none of
    the fields the projection leaves out is set. *)
Definition lifted (m : ChatCompletionMessage) : LiveMessage :=
  literal (Role m) (Content m) (ToolCallID m).

(** A round the model answers at once, in a message that has the role of an
    assistant and a content and nothing else: its tool calls are nil, and
    neither the tool call id nor any other field is set. *)
Definition plainAnswer (ev : RoundEvents) : bool :=
  match traceCreated ev, firstCompletion ev with
  | Some _, Some resp =>
      match Choices resp with
      | assistantMsg :: _ =>
          bool_decide (ToolCalls assistantMsg = None)
          && bool_decide (Role (message assistantMsg) = "assistant")
          && bool_decide (ToolCallID (message assistantMsg) = "")
          && bool_decide (Others assistantMsg = ∅)
      | [] => false
      end
  | _, _ => false
  end.

Lemma round_plainAnswer (i : nat) (qa : Question) (ev : RoundEvents) (l : Loop) :
  wfState (contextBuilder l) →
  plainAnswer ev = true →
  ∃ l' answer,
    round i qa ev l = Continues l'
    ∧ wfState (contextBuilder l')
    ∧ messages l'
      = messages l
        ++ (lifted <$> [ {| Role := "user"; Content := question qa; ToolCallID := "" |};
                         {| Role := "assistant"; Content := answer; ToolCallID := "" |} ])
    ∧ concat (map turnMessages (history (contextBuilder l')))
      = concat (map turnMessages (history (contextBuilder l)))
        ++ [ {| Role := "user"; Content := question qa; ToolCallID := "" |};
             {| Role := "assistant"; Content := answer; ToolCallID := "" |} ]
    ∧ systemPrompt (builder (contextBuilder l')) = systemPrompt (builder (contextBuilder l)).
Proof.
  intros Hwf Hplain.
  destruct (round_history i qa ev l Hwf) as (Hwf' & Hh & Hsys).
  revert Hwf' Hh Hsys. unfold round, roundTurn. unfold plainAnswer in Hplain.
  destruct (traceCreated ev) as [traceID|]; [|done].
  destruct (firstCompletion ev) as [resp|]; [|done].
  cbn [mbind option_bind].
  destruct (Choices resp) as [|assistantMsg choices]; [done|].
  apply andb_prop in Hplain as [[[Htools Hrole]%andb_prop Hid]%andb_prop Hothers].
  apply bool_decide_eq_true in Htools, Hrole, Hid, Hothers.
  cbn [head mbind option_bind]. rewrite Htools. simpl. intros Hwf' Hh Hsys.
  eexists _, (Content (message assistantMsg)). split; [done|]. simpl.
  split; [done|]. split; [|split; [|done]].
  - rewrite <- app_assoc. simpl. do 2 f_equal.
    destruct assistantMsg as [[role content id] tcs others]. simpl in *. by subst.
  - rewrite Hh, map_app, concat_app. simpl. by rewrite ?app_nil_r.
Qed.

Lemma rounds_plainAnswer (questions : list Question) (events : nat → RoundEvents)
    (i : nat) (l : Loop) :
  wfState (contextBuilder l) →
  (∀ k, k < length questions → plainAnswer (events (i + k)) = true) →
  ∃ l' added,
    rounds i questions events l = Continues l'
    ∧ messages l' = messages l ++ (lifted <$> added)
    ∧ concat (map turnMessages (history (contextBuilder l')))
      = concat (map turnMessages (history (contextBuilder l))) ++ added
    ∧ systemPrompt (builder (contextBuilder l')) = systemPrompt (builder (contextBuilder l)).
Proof.
  revert i l. induction questions as [|qa rest IH]; intros i l Hwf Hplain; simpl.
  - exists l, []. by rewrite !app_nil_r.
  - destruct (round_plainAnswer i qa (events i) l Hwf) as (l1 & answer & -> & Hwf1 & Hm & Hc & Hs).
    { specialize (Hplain 0). rewrite Nat.add_0_r in Hplain. apply Hplain. simpl. lia. }
    destruct (IH (S i) l1 Hwf1) as (l' & added & Hrounds & Hm' & Hc' & Hs').
    { intros k Hk. specialize (Hplain (S k)). rewrite Nat.add_succ_r in Hplain.
      apply Hplain. simpl. lia. }
    exists l'. eexists. split; [done|].
    rewrite Hm', Hc', Hm, Hc, Hs', Hs, <- !app_assoc, <- fmap_app. done.
Qed.

(** X18.  When every round is answered by its first completion in a
    message that has the role "assistant", a content and nothing else (its
    tool calls nil, no tool call id, and none of the other fields of the
    message type set), the loop ends normally and the conversation [main]
    held is the projection of a snapshot of the final builder, message for
    message and field for field: each message of the projection, with the
    fields the projection does not have unset. *)
Theorem plain_conversation_replayed (h : Heap) (cfg : Config) (sessionID : string)
    (questions : list Question) (events : nat → RoundEvents)
    (now : Time) (traceID : string) :
  (∀ k, k < length questions → plainAnswer (events k) = true) →
  ∃ final,
    rounds 0 questions events (start h cfg sessionID) = Continues final
    ∧ lifted <$> ToOpenAIMessages
                   (load (heap (contextBuilder final))
                         (Build (contextBuilder final) now traceID))
      = messages final.
Proof.
  intros Hplain.
  destruct (setup_reachable h cfg sessionID) as (Hwf & Hh & Hsys).
  destruct (rounds_plainAnswer questions events 0 (start h cfg sessionID) Hwf Hplain)
    as (final & added & Hrounds & Hm & Hc & Hs).
  exists final. split; [done|].
  rewrite ToOpenAIMessages_canonical. unfold canonicalMessages.
  change (elems (ReplayContext_ConversationHistory
                   (load (heap (contextBuilder final))
                         (Build (contextBuilder final) now traceID))))
    with (history (contextBuilder final)).
  rewrite Hc, Hm, Hh. cbn [load Build ReplayContext_SystemPrompt].
  rewrite Hs, Hsys. done.
Qed.

End RoundsProperties.

(* ===================================================================== *)
(** * examples/replay: recording tool executions                          *)
(* ===================================================================== *)

Section RecorderProperties.
Import Go Replay ReplayMain.
Context `{!Runtime} `{!Text}.

(** The tool loop leaves [toolExecutions] nil exactly when it ran no
    tool. *)
Lemma recordToolExecutions_nil (runs : list ToolRun) :
  recordToolExecutions runs = None ↔ runs = [].
Proof. by destruct runs. Qed.

(** C9.  For two readings of time.Now with the end not before the start,
    the recorded duration is the difference in whole milliseconds, and is not
    negative.  The record has success set and no error, so the relation
    between the two holds; its other fields are the name, the id, the
    arguments and the result it was given, and its start and end times are
    the renderings of the same two readings.  The tool loop appends exactly
    one such record per call it executed, in order, and leaves the list nil
    only when it executed none.  Nothing in the assembly depends on how a
    tool call went: [AddTurn] appends the turn with the tool calls it is
    given as they are, whatever their success flags, so a failed call is
    part of the turn.  And a round of [main] in which the assistant asks for
    tools and then answers ends in that [AddTurn]: the builder's history
    gains one turn, whose tool calls are the records of the calls of the
    round, one for one. *)
Theorem recordToolExecution_duration (name id : string) (argsMap : gomap)
    (result : string) (toolStartTime toolEndTime : Time) (s e : Z)
    (runs : list ToolRun)
    (h : Heap) (userID baseURL model : string) (calls : list Call)
    (now : Time) (number : Z) (userMsg assistantResp : string)
    (toolCalls : slice ToolCallExecution) (tokenUsage : TokenUsage) (traceID : string) :
  mono toolStartTime = Some s →
  mono toolEndTime = Some e →
  (0 ≤ s ∧ s ≤ e ∧ e ≤ maxInt64)%Z →
  let x := recordToolExecution name id argsMap result toolStartTime toolEndTime in
  let st := stateOf (run (NewContextBuilder h userID baseURL model) calls) in
  (ToolCallExecution_DurationMs x = ((e - s) / 1000000)%Z
   ∧ (0 ≤ ToolCallExecution_DurationMs x)%Z)
  ∧ (ToolCallExecution_Success x = true ∧ ToolCallExecution_Error x = ""
     ∧ (ToolCallExecution_Error x ≠ "" → ToolCallExecution_Success x = false))
  ∧ x = {| ToolCallExecution_ToolName := name;
           ToolCallExecution_ToolID := id;
           ToolCallExecution_Arguments := argsMap;
           ToolCallExecution_Result := result;
           ToolCallExecution_StartTime := Format_RFC3339Nano toolStartTime;
           ToolCallExecution_EndTime := Format_RFC3339Nano toolEndTime;
           ToolCallExecution_DurationMs := ((e - s) / 1000000)%Z;
           ToolCallExecution_Success := true;
           ToolCallExecution_Error := "" |}
  ∧ (elems (recordToolExecutions runs)
     = map (λ r, recordToolExecution (run_name r) (run_id r) (run_argsMap r)
                   (run_result r) (run_start r) (run_end r)) runs
     ∧ (recordToolExecutions runs = None ↔ runs = []))
  ∧ history (AddTurn st now number userMsg assistantResp toolCalls tokenUsage traceID)
    = history st
      ++ [newTurn now number userMsg assistantResp toolCalls tokenUsage traceID]
  ∧ ConversationTurn_ToolCalls
      (newTurn now number userMsg assistantResp toolCalls tokenUsage traceID)
    = toolCalls
  ∧ (∀ (i : nat) (qa : Question) (ev : RoundEvents) (conversation : list LiveMessage)
       (trace : string) (resp resp2 : ChatCompletionResponse)
       (assistantMsg finalMsg : LiveMessage) (others others2 : list LiveMessage),
       traceCreated ev = Some trace →
       firstCompletion ev = Some resp →
       Choices resp = assistantMsg :: others →
       0 < len (ToolCalls assistantMsg) →
       secondCompletion ev = Some resp2 →
       Choices resp2 = finalMsg :: others2 →
       ∃ l',
         round i qa ev {| messages := conversation; contextBuilder := st |} = Continues l'
         ∧ history (contextBuilder l')
           = history st
             ++ [newTurn (turnClock ev) (Z.of_nat i + 1) (question qa)
                   (Content (message finalMsg))
                   (Some (imap (λ j tc,
                                  recordToolExecution
                                    (FunctionCall_Name (ToolCall_Function tc))
                                    (ToolCall_ID tc)
                                    (Unmarshal (FunctionCall_Arguments (ToolCall_Function tc)))
                                    (executeTool tc)
                                    (toolClock ev j).1 (toolClock ev j).2)
                               (elems (ToolCalls assistantMsg))))
                   (tokenUsageOf (ResponseUsage resp)) trace]).
Proof.
  intros Hs He (Hzero & Hse & Hmax) x st.
  assert (Hduration : ToolCallExecution_DurationMs x = ((e - s) / 1000000)%Z).
  { unfold x, recordToolExecution, Time_Sub, Duration_Milliseconds. simpl.
    rewrite Hs, He, subMono_exact by done.
    by rewrite Z.quot_div_nonneg by lia. }
  split; [|split; [|split; [|split; [|split; [|split]]]]].
  - split; [done|]. rewrite Hduration. apply Z.div_pos; lia.
  - split; [done|]. split; [done|]. by intros [].
  - rewrite <- Hduration. done.
  - split; [apply recordToolExecutions_all|apply recordToolExecutions_nil].
  - apply AddTurn_history, reachable_wf.
  - done.
  - intros i qa ev conversation trace resp resp2 assistantMsg finalMsg others others2
      Htrace Hfirst Hchoices Hlen Hsecond Hchoices2.
    unfold round. rewrite Htrace, Hfirst, Hchoices.
    rewrite (bool_decide_eq_true_2 _ Hlen), Hsecond, Hchoices2.
    unfold finishRound. eexists. split; [reflexivity|]. cbn [contextBuilder].
    destruct (AddTurn_history st (turnClock ev) (Z.of_nat i + 1) (question qa)
                (Content (message finalMsg))
                (recordToolExecutions
                   (toolRuns (elems (ToolCalls assistantMsg)) (toolClock ev)))
                {| TokenUsage_PromptTokens := Usage_PromptTokens (ResponseUsage resp);
                   TokenUsage_CompletionTokens := Usage_CompletionTokens (ResponseUsage resp);
                   TokenUsage_TotalTokens := Usage_TotalTokens (ResponseUsage resp) |}
                trace (reachable_wf h userID baseURL model calls)) as [Hh _].
    fold st in Hh. rewrite Hh. do 3 f_equal.
    pose proof (toolRuns_recorded (elems (ToolCalls assistantMsg)) (toolClock ev)) as Hrec.
    unfold len in Hlen.
    destruct (elems (ToolCalls assistantMsg)) as [|tc tcs]; [simpl in Hlen; lia|].
    exact (f_equal Some Hrec).
Qed.

End RecorderProperties.

(* ===================================================================== *)
(** * examples/replay: encoding the final context                         *)
(* ===================================================================== *)

Section SummaryProperties.
Import Go Replay Codec ReplayMain.
Context `{!Runtime} `{!Text}.

(** What [AddTurn] leaves alone: every field of the builder but the
    history, and the arrays of the tools. *)
Definition settings (st : State) :=
  let b := builder st in
  (sessionID b, userID b, modelConfig b, systemPrompt b, Replay.tools b, baseURL b,
   toolArrays (heap st)).

Lemma round_settings (i : nat) (qa : Question) (ev : RoundEvents) (l : Loop) :
  settings (contextBuilder (loopOf (round i qa ev l))) = settings (contextBuilder l).
Proof.
  assert (Hadd : ∀ now round u a tcs usage id,
    settings (AddTurn (contextBuilder l) now round u a tcs usage id)
    = settings (contextBuilder l)).
  { intros. unfold AddTurn. by destruct (append _ _ _ _). }
  unfold round, finishRound.
  destruct (traceCreated ev) as [traceID|]; [|done].
  destruct (firstCompletion ev) as [resp|]; [|done].
  destruct (Choices resp) as [|assistantMsg choices]; [done|].
  case_bool_decide as Htools; [|apply Hadd].
  destruct (secondCompletion ev) as [resp2|]; [|done].
  destruct (Choices resp2) as [|finalMsg choices2]; [done|].
  apply Hadd.
Qed.

Lemma rounds_settings (questions : list Question) (events : nat → RoundEvents)
    (i : nat) (l : Loop) :
  settings (contextBuilder (loopOf (rounds i questions events l)))
  = settings (contextBuilder l).
Proof.
  revert i l. induction questions as [|qa rest IH]; intros i l; simpl; [done|].
  pose proof (round_settings i qa (events i) l) as Hround.
  destruct (round i qa (events i) l) as [l1|l1]; simpl in *; [|done].
  by rewrite IH.
Qed.

Lemma roundTurn_encodable (i : nat) (qa : Question) (ev : RoundEvents)
    (t : ConversationTurn) :
  (∀ text, supportedMap (Unmarshal text) = true) →
  roundTurn i qa ev = Some t → encodableTurn t = true.
Proof.
  intros Hdecoded. unfold roundTurn.
  destruct (traceCreated ev) as [traceID|]; simpl; [|done].
  destruct (firstCompletion ev) as [resp|]; simpl; [|done].
  destruct (head (Choices resp)) as [assistantMsg|]; simpl; [|done].
  case_bool_decide as Htools; [|by intros [= <-]].
  destruct (secondCompletion ev) as [resp2|]; simpl; [|done].
  destruct (head (Choices resp2)) as [finalMsg|]; simpl; [|done].
  intros [= <-]. unfold encodableTurn. cbn [newTurn ConversationTurn_ToolCalls].
  rewrite toolRuns_recorded, forallb_forall.
  intros e (j & tc & -> & _)%list_elem_of_In%elem_of_lookup_imap.
  apply Hdecoded.
Qed.

Lemma start_settings (h : Heap) (cfg : Config) (sessionID : string) :
  let st := contextBuilder (start h cfg sessionID) in
  encodableModelConfig (modelConfig (builder st)) = true
  ∧ forallb (λ d, supportedMap (ToolDefinition_Function d))
            (elems (read (toolArrays (heap st)) (Replay.tools (builder st)))) = true.
Proof.
  unfold start, setup. cbn [contextBuilder].
  set (st0 := NewContextBuilder h _ _ _).
  set (st2 := SetSystemPrompt (SetSessionID st0 sessionID) _ _).
  pose proof (SetTools_frame st2 tools) as (_ & _ & _ & Hconfig & _).
  pose proof (SetTools_read st2 tools) as [Hread _].
  cbn zeta in *. rewrite Hconfig, Hread. split.
  - unfold st2, st0, NewContextBuilder. by destruct (make _ _).
  - vm_compute. reflexivity.
Qed.

(** X19.  In [main], provided json.Unmarshal leaves only supported
    values in the argument maps, encoding a snapshot of the builder after the
    loop can fail on the timestamp only. *)
Theorem main_context_encodes (h : Heap) (cfg : Config) (sessionID : string)
    (questions : list Question) (events : nat → RoundEvents)
    (now : Time) (traceID : string) :
  (∀ text, supportedMap (Unmarshal text) = true) →
  let st := contextBuilder (loopOf (rounds 0 questions events (start h cfg sessionID))) in
  is_Some (ToJSON (load (heap st) (Build st now traceID)))
  ↔ is_Some (Time_MarshalJSON now).
Proof.
  intros Hdecoded st.
  rewrite ToJSON_is_Some.
  cut (encodable (load (heap st) (Build st now traceID)) = true).
  { intros ->. cbn [load Build ReplayContext_Timestamp]. tauto. }
  destruct (setup_reachable h cfg sessionID) as (Hwf & Hh & Hsys).
  destruct (start_settings h cfg sessionID) as [Hconfig Htools].
  pose proof (rounds_settings questions events 0 (start h cfg sessionID)) as Hsettings.
  fold st in Hsettings.
  pose proof (f_equal (λ p, p.1.1.1.1.2) Hsettings) as Hc.
  pose proof (f_equal (λ p, p.1.1.1.2) Hsettings) as Hs.
  pose proof (f_equal (λ p, p.1.1.2) Hsettings) as Ht.
  pose proof (f_equal (λ p, p.2) Hsettings) as Ha.
  cbn [settings fst snd] in Hc, Hs, Ht, Ha. clear Hsettings.
  destruct (rounds_history questions events 0 (start h cfg sessionID) Hwf)
    as (k & _ & Hturns & _ & _).
  fold st in Hturns. rewrite Hh in Hturns. cbn [app] in Hturns.
  unfold encodable.
  cbn [load Build ReplayContext_ModelConfig ReplayContext_SystemPrompt ReplayContext_Tools
       ReplayContext_ConversationHistory ReplayContext_Metadata].
  change (elems (read (turnArrays (heap st)) (conversationCtx (builder st))))
    with (history st).
  rewrite Hc, Hs, Ht, Ha, Hconfig, Hsys, Htools, Hturns.
  rewrite !andb_true_iff. split; [split; [split; [done|]|]|done].
  - done.
  - rewrite forallb_forall.
    intros t (j & qa & _ & Ht')%list_elem_of_In%turnsFrom_lookup.
    by apply (roundTurn_encodable _ _ _ _ Hdecoded Ht').
Qed.

End SummaryProperties.

(* ===================================================================== *)
(** * examples/replay: the conversation and its projection                *)
(* ===================================================================== *)

Section ProjectionLimits.
Import Go Replay Codec ReplayMain.
Context `{!Runtime} `{!Text}.

(** A round that leaves the conversation and its projection in step: no
    trace was created, or the first completion answered without a tool. *)
Definition quietRound (ev : RoundEvents) : bool :=
  match traceCreated ev with
  | None => true
  | Some _ =>
      match firstCompletion ev with
      | Some resp =>
          match Choices resp with
          | assistantMsg :: _ => bool_decide (len (ToolCalls assistantMsg) = 0)
          | [] => false
          end
      | None => false
      end
  end.

Definition projected (l : Loop) : nat :=
  length (concat (map turnMessages (history (contextBuilder l)))).

Lemma toolMessages_length (toolCalls : list ToolCall) (messages : list LiveMessage) :
  length (foldl (λ messages tc,
                   messages ++ [literal ChatMessageRoleTool (executeTool tc) (ToolCall_ID tc)])
                messages toolCalls)
  = length messages + length toolCalls.
Proof.
  revert messages. induction toolCalls as [|tc tcs IH]; intros messages; simpl; [lia|].
  rewrite IH, length_app. simpl. lia.
Qed.

Lemma round_lengths (i : nat) (qa : Question) (ev : RoundEvents) (l l' : Loop) :
  wfState (contextBuilder l) →
  round i qa ev l = Continues l' →
  ∃ d, length (messages l') + projected l = length (messages l) + projected l' + d
       ∧ (d = 0 ↔ quietRound ev = true).
Proof.
  intros Hwf.
  destruct (round_history i qa ev l Hwf) as (_ & Hh & _).
  revert Hh. unfold round, roundTurn, quietRound, finishRound, projected.
  destruct (traceCreated ev) as [traceID|]; cbn [mbind option_bind].
  2:{ intros _ [= <-]. exists 0. split; [lia|done]. }
  destruct (firstCompletion ev) as [resp|]; cbn [mbind option_bind].
  2:{ intros _ [= <-]. exists 1. cbn [messages contextBuilder]. rewrite length_app.
      simpl. split; [lia|done]. }
  destruct (Choices resp) as [|assistantMsg choices]; [done|].
  cbn [head mbind option_bind].
  case_bool_decide as Htools.
  - unfold len in Htools.
    destruct (secondCompletion ev) as [resp2|]; cbn [mbind option_bind].
    2:{ intros _ [= <-]. exists (2 + length (elems (ToolCalls assistantMsg))).
        cbn [messages contextBuilder].
        rewrite toolMessages_length, !length_app. simpl.
        split; [lia|]. rewrite bool_decide_eq_true. unfold len. lia. }
    destruct (Choices resp2) as [|finalMsg choices2]; [done|].
    cbn [head mbind option_bind loopOf contextBuilder option_list].
    intros Hh [= <-]. exists 1. cbn [messages contextBuilder].
    rewrite Hh, map_app, concat_app, !length_app, toolMessages_length, !length_app.
    cbn [option_list option_rect map concat]. rewrite app_nil_r. unfold turnMessages.
    cbn [length newTurn ConversationTurn_ToolCalls].
    rewrite length_map, toolRuns_recorded, length_imap.
    split; [lia|]. rewrite bool_decide_eq_true. unfold len. lia.
  - cbn [loopOf contextBuilder option_list].
    intros Hh [= <-]. exists 0. cbn [messages contextBuilder].
    rewrite Hh, map_app, concat_app, !length_app.
    cbn [option_list option_rect map concat]. rewrite app_nil_r. unfold turnMessages.
    cbn [length newTurn ConversationTurn_ToolCalls elems default map].
    split; [lia|]. rewrite bool_decide_eq_true. lia.
Qed.

Lemma rounds_lengths (questions : list Question) (events : nat → RoundEvents)
    (i : nat) (l l' : Loop) :
  wfState (contextBuilder l) →
  rounds i questions events l = Continues l' →
  ∃ d, length (messages l') + projected l = length (messages l) + projected l' + d
       ∧ (d = 0 ↔ ∀ k, k < length questions → quietRound (events (i + k)) = true).
Proof.
  revert i l. induction questions as [|qa rest IH]; intros i l Hwf; simpl.
  - intros [= <-]. exists 0. split; [lia|]. split; [intros _ k; lia|done].
  - destruct (round_history i qa (events i) l Hwf) as (Hwf' & _ & _).
    destruct (round i qa (events i) l) as [l1|l1] eqn:Hround; [|done].
    simpl in Hwf'. intros Hrounds.
    destruct (round_lengths _ _ _ _ _ Hwf Hround) as (d1 & Hd1 & Hq1).
    destruct (IH _ _ Hwf' Hrounds) as (d2 & Hd2 & Hq2).
    exists (d1 + d2). split; [lia|]. split.
    + intros Hd [|k] Hk.
      * rewrite Nat.add_0_r. apply Hq1. lia.
      * rewrite Nat.add_succ_r. apply Hq2; lia.
    + intros Hquiet.
      assert (d1 = 0) as ->.
      { apply Hq1. specialize (Hquiet 0). rewrite Nat.add_0_r in Hquiet.
        apply Hquiet. lia. }
      assert (d2 = 0) as ->; [|done].
      apply Hq2. intros k Hk. specialize (Hquiet (S k)).
      rewrite Nat.add_succ_r in Hquiet. apply Hquiet. lia.
Qed.

(** X20.  After a loop that ends without a panic, the projection of a
    snapshot is never longer than the conversation [main] held, and is as
    long exactly when every round either created no trace or was answered
    without a tool: an abandoned round and a round with tools leave messages
    in the conversation that the projection does not have. *)
Theorem projection_no_longer (h : Heap) (cfg : Config) (sessionID : string)
    (questions : list Question) (events : nat → RoundEvents) (final : Loop)
    (now : Time) (traceID : string) :
  rounds 0 questions events (start h cfg sessionID) = Continues final →
  let projection :=
    ToOpenAIMessages
      (load (heap (contextBuilder final)) (Build (contextBuilder final) now traceID)) in
  length projection ≤ length (messages final)
  ∧ (length projection = length (messages final)
     ↔ ∀ k, k < length questions → quietRound (events k) = true).
Proof.
  intros Hrounds projection.
  destruct (setup_reachable h cfg sessionID) as (Hwf & Hh & _).
  destruct (rounds_lengths questions events 0 _ _ Hwf Hrounds) as (d & Hd & Hquiet).
  assert (Hstart : projected (start h cfg sessionID) = 0).
  { unfold projected. by rewrite Hh. }
  assert (Hproj : length projection = 1 + projected final).
  { unfold projection. by rewrite ToOpenAIMessages_canonical. }
  rewrite Hstart in Hd. cbn [start messages length] in Hd.
  rewrite Hproj, <- Hquiet. lia.
Qed.

End ProjectionLimits.

(* ===================================================================== *)
(** * examples/fetch and examples/advanced: previews and reports          *)
(* ===================================================================== *)

Section PreviewProperties.
Import Go FetchMain Advanced.

Lemma length_append (a b : string) :
  String.length (a +:+ b) = String.length a + String.length b.
Proof. induction a as [|c a IH]; simpl; [done|]. by rewrite IH. Qed.

Lemma length_substring (n : nat) (s : string) :
  n ≤ String.length s → String.length (substring 0 n s) = n.
Proof.
  revert n. induction s as [|c s IH]; intros [|n]; simpl; try done; try lia.
  intros Hn. rewrite IH; [done|lia].
Qed.

Lemma substring_append (a b : string) : substring 0 (String.length a) (a +:+ b) = a.
Proof.
  induction a as [|c a IH]; simpl; [by destruct b|]. by rewrite IH.
Qed.

(** X21.  [truncateString] panics exactly for a negative bound.
    Otherwise a string within the bound is returned as it is, and a longer
    one cut to the bound and followed by three dots: the result may be three
    bytes longer than the bound and two longer than the string, and
    truncating it again changes nothing. *)
Theorem truncateString_bounds (s : string) (maxLen : Z) :
  (truncateString s maxLen = None ↔ (maxLen < 0)%Z)
  ∧ ∀ t, truncateString s maxLen = Some t →
      ((Z.of_nat (String.length s) ≤ maxLen)%Z → t = s)
      ∧ ((maxLen < Z.of_nat (String.length s))%Z →
         t = substring 0 (Z.to_nat maxLen) s +:+ "..."
         ∧ Z.of_nat (String.length t) = (maxLen + 3)%Z)
      ∧ String.length t ≤ String.length s + 2
      ∧ truncateString t maxLen = Some t.
Proof.
  unfold truncateString.
  destruct (Z.leb_spec (Z.of_nat (String.length s)) maxLen) as [Hle|Hgt].
  - split; [split; [done|lia]|].
    intros t [= <-]. split; [done|]. split; [lia|]. split; [lia|].
    destruct (Z.leb_spec (Z.of_nat (String.length s)) maxLen); [done|lia].
  - destruct (Z.ltb_spec maxLen 0) as [Hneg|Hpos]; [by split|].
    split; [split; [done|lia]|].
    intros t [= <-].
    assert (Hlen : String.length (substring 0 (Z.to_nat maxLen) s) = Z.to_nat maxLen).
    { apply length_substring. lia. }
    assert (Hlen' : String.length (substring 0 (Z.to_nat maxLen) s +:+ "...")
                    = Z.to_nat maxLen + 3).
    { by rewrite length_append, Hlen. }
    split; [lia|]. split; [split; [done|lia]|]. split; [lia|].
    destruct (Z.leb_spec
                (Z.of_nat (String.length (substring 0 (Z.to_nat maxLen) s +:+ "...")))
                maxLen) as [Hle'|_]; [lia|].
    destruct (Z.ltb_spec maxLen 0); [lia|].
    do 2 f_equal. rewrite <- Hlen at 1. apply substring_append.
Qed.

Lemma failedLines_shown {A} (total i : nat) (events : list A) :
  i ≤ 5 →
  failedLines total i events
  = imap (λ k fe, Failed (i + k + 1) fe) (take (5 - i) events)
    ++ (if bool_decide (5 - i < length events) then [AndMore (Z.of_nat total - 5)] else []).
Proof.
  revert i. induction events as [|fe rest IH]; intros i Hi.
  - rewrite take_nil. cbn [failedLines imap app length].
    case_bool_decide; [lia|done].
  - cbn [failedLines length]. case_bool_decide as Hfive.
    + replace (5 - i) with 0 by lia. cbn [take imap app].
      case_bool_decide; [done|lia].
    + replace (5 - i) with (S (5 - S i)) by lia. cbn [take imap app].
      rewrite IH by lia. rewrite Nat.add_0_r. f_equal. f_equal.
      * apply imap_ext. intros k fe' _. simpl. f_equal. lia.
      * rewrite (bool_decide_ext (5 - S i < length rest)
                  (S (5 - S i) < S (length rest))) by lia. done.
Qed.

(** X22.  The report of failed events is the single line "no failed
    events" for none, and otherwise the count, the first five events numbered
    from one, and, when there are more than five, the number of the
    remaining ones: seven lines at most. *)
Theorem failedEventsReport_shown {A} (failedEvents : list A) :
  let n := length failedEvents in
  failedEventsReport failedEvents
  = (if bool_decide (n = 0) then [NoFailedEvents]
     else Found n :: imap (λ k fe, Failed (k + 1) fe) (take 5 failedEvents)
                  ++ (if bool_decide (5 < n) then [AndMore (Z.of_nat n - 5)] else []))
  ∧ length (failedEventsReport failedEvents) ≤ 7.
Proof.
  intros n. unfold failedEventsReport. fold n.
  assert (Hreport :
    (if bool_decide (0 < n) then Found n :: failedLines n 0 failedEvents
     else [NoFailedEvents])
    = (if bool_decide (n = 0) then [NoFailedEvents]
       else Found n :: imap (λ k fe, Failed (k + 1) fe) (take 5 failedEvents)
                    ++ (if bool_decide (5 < n) then [AndMore (Z.of_nat n - 5)] else []))).
  { case_bool_decide as Hn.
    - rewrite bool_decide_eq_false_2 by lia. by rewrite failedLines_shown by lia.
    - by rewrite bool_decide_eq_true_2 by lia. }
  split; [done|]. rewrite Hreport.
  destruct (bool_decide (n = 0)); cbn [length]; [lia|].
  rewrite length_app, length_imap, length_take.
  destruct (bool_decide (5 < n)); cbn [length]; lia.
Qed.

End PreviewProperties.

(* ===================================================================== *)
(** * examples/fetch: the request body                                    *)
(* ===================================================================== *)

Section RequestProperties.
Import Go Fetch FetchMain.

(** A document as a JSON text denotes it: every number that is not an
    integer literal is finite. *)
Fixpoint finiteNumbers (j : json) : bool :=
  match j with
  | JFloat f => float64_IsFinite f
  | JArray l => forallb finiteNumbers l
  | JObject m => bool_decide (map_Forall (λ _ b, b = true) (finiteNumbers <$> m))
  | _ => true
  end.

(** Whatever json.Unmarshal decodes into an [any], json.Marshal accepts. *)
Lemma unmarshalAny_supported (j : json) (v : any) :
  finiteNumbers j = true → unmarshalAny j = Some v → supported v = true.
Proof.
  revert v. induction j as [|b|z|f|s|l IH|m IH] using json_ind'; intros v; simpl.
  - by intros _ [= <-].
  - by intros _ [= <-].
  - destruct (float64_IsFinite (float64_of_Z z)) eqn:Hz; simpl; [|done].
    by intros _ [= <-].
  - by intros Hf [= <-].
  - by intros _ [= <-].
  - intros Hl. destruct (mapM unmarshalAny l) as [vs|] eqn:Hvs; simpl; [|done].
    intros [= <-]. simpl. apply mapM_Some in Hvs.
    induction Hvs as [|x y l vs Hxy _ IHvs]; [done|].
    apply Forall_cons in IH as [Hx IHl]. simpl in Hl.
    apply andb_prop in Hl as [Hfx Hfl]. simpl.
    rewrite (Hx y Hfx Hxy). by apply IHvs.
  - intros Hm%bool_decide_eq_true. rewrite map_Forall_fmap in Hm.
    destruct (all_Some (unmarshalAny <$> m)) eqn:Hall; [|done].
    intros [= <-]. simpl. apply bool_decide_eq_true.
    apply all_Some_spec in Hall.
    intros k b. rewrite !lookup_fmap.
    destruct (m !! k) as [x|] eqn:Hk; [|done]. simpl. intros [= <-].
    destruct (Hall k (unmarshalAny x)) as [y Hy]; [by rewrite lookup_fmap, Hk|].
    rewrite Hy. simpl. apply (IH k x Hk y); [|done]. by apply (Hm k x).
Qed.

Lemma supported_map (m : gmap string any) :
  supported (AnyMap m) = true ↔ map_Forall (λ _ v, supported v = true) m.
Proof. simpl. by rewrite bool_decide_eq_true, map_Forall_fmap. Qed.

Lemma appendObjects_supported (items : list any) (messages : list Message) :
  Forall (λ m, supported (AnyMap m) = true) messages →
  forallb supported items = true →
  Forall (λ m, supported (AnyMap m) = true) (appendObjects messages items).
Proof.
  revert messages. induction items as [|v items IH]; intros messages Hm; [done|].
  cbn [forallb]. intros [Hv Hitems]%andb_prop.
  destruct v; cbn [appendObjects]; try by apply IH.
  apply IH; [|done]. apply Forall_app. split; [done|]. by constructor.
Qed.

Lemma wrapper_supported (role : string) (v : any) :
  supported v = true →
  supported (AnyMap {[ "role" := AnyString role; "content" := v ]}) = true.
Proof.
  intros Hv. apply supported_map.
  apply map_Forall_insert_2; [done|]. by apply map_Forall_singleton.
Qed.

Lemma assembleContext_supported (trace : TraceWithFullDetails) (msgs : list Message) :
  Forall (λ o, supported (Input o) = true ∧ supported (Output o) = true)
         (Observations trace) →
  assembleContext trace = ContextMessages msgs →
  Forall (λ m, supported (AnyMap m) = true) msgs.
Proof.
  intros Hobs. unfold assembleContext.
  destruct (firstGeneration (Observations trace)) as [g|] eqn:Hg; [|done].
  intros [= <-].
  assert (Hin : g ∈ Observations trace).
  { clear Hobs. induction (Observations trace) as [|o obs IH]; [done|].
    simpl in Hg. destruct (isGeneration o); [injection Hg as ->; by left|].
    right. by apply IH. }
  rewrite Forall_forall in Hobs. destruct (Hobs g Hin) as [Hi Ho].
  assert (Hinput : Forall (λ m, supported (AnyMap m) = true) (addInput [] (Input g))).
  { destruct (Input g) as [| | | |l|m| |j0] eqn:Hv; cbn [addInput app]; try done;
      try (by constructor; [apply wrapper_supported|]).
    by apply appendObjects_supported. }
  destruct (Output g) as [| | | |l|m| |j0] eqn:Hv; cbn [addOutput]; try done;
    try (apply Forall_app; split; [done|]; constructor; [|done]);
    try (by apply wrapper_supported).
  - by apply appendObjects_supported.
  - done.
Qed.

(** X23.  For the messages assembled from a trace whose inputs and
    outputs are supported values, as decoded ones are, step 3 of the fetch
    program panics on a template that is null, fails to parse a template
    that is not an object or holds a number it cannot decode, and otherwise
    gets a request body: marshalling it never fails. *)
Theorem prepareRequest_outcomes (template : json) (trace : TraceWithFullDetails)
    (contextMessages : list Message) :
  finiteNumbers template = true →
  Forall (λ o, supported (Input o) = true ∧ supported (Output o) = true)
         (Observations trace) →
  assembleContext trace = ContextMessages contextMessages →
  match template with
  | JNull => prepareRequest (Some template) contextMessages = NilMapPanics
  | JObject _ =>
      (unmarshalAny template = None
       ∧ prepareRequest (Some template) contextMessages = FailedToParse)
      ∨ ∃ doc, prepareRequest (Some template) contextMessages = RequestBody doc
  | _ => prepareRequest (Some template) contextMessages = FailedToParse
  end.
Proof.
  intros Hfinite Hobs Hcontext.
  pose proof (assembleContext_supported trace contextMessages Hobs Hcontext) as Hmsgs.
  destruct template as [| | | | | |members]; try done.
  unfold prepareRequest. cbn [mbind option_bind unmarshalMap].
  destruct (unmarshalAny (JObject members)) as [v|] eqn:Hv; [|by left].
  pose proof (unmarshalAny_supported _ _ Hfinite Hv) as Hsupported.
  assert (∃ requestBody, v = AnyMap requestBody) as [requestBody ->].
  { simpl in Hv. destruct (all_Some _); [|done]. injection Hv as <-. by eexists. }
  right.
  assert (Hbody : supported (AnyMap (<["history" := historyValue contextMessages]>
                                       requestBody)) = true).
  { apply supported_map. apply map_Forall_insert_2; [|by apply supported_map].
    unfold historyValue. simpl. rewrite forallb_forall.
    intros v (m & -> & Hm)%list_elem_of_In%list_elem_of_fmap.
    rewrite Forall_forall in Hmsgs. by apply Hmsgs. }
  apply marshalAny_supported in Hbody as [doc Hdoc].
  rewrite Hdoc. by eexists.
Qed.

End RequestProperties.

(* ===================================================================== *)
(** * Further theorems at concrete inputs                                 *)
(* ===================================================================== *)

Section FurtherEvaluations.
Import Go Fetch Replay Codec ReplayMain FetchMain.

(** A decoder and a formatter to evaluate the definitions with: the text
    "divide" decodes to a division without its second operand, the text
    "Tokyo" to that city, any other text leaves the map nil; every number is
    rendered as 0.00. *)
Definition evalText : Text :=
  {| Unmarshal := λ text,
       if decide (text = "divide")
       then Some {[ "operation" := AnyString "divide"; "a" := AnyFloat64 (float64_of_Z 1) ]}
       else if decide (text = "Tokyo") then Some {[ "city" := AnyString "Tokyo" ]}
       else None;
     Sprintf_2f := λ _, "0.00" |}.

Definition divideCall : ToolCall :=
  {| ToolCall_ID := "call-1";
     ToolCall_Function :=
       {| FunctionCall_Name := "calculator"; FunctionCall_Arguments := "divide" |} |}.

Definition emptyCall : ToolCall :=
  {| ToolCall_ID := "call-2";
     ToolCall_Function :=
       {| FunctionCall_Name := "calculator"; FunctionCall_Arguments := "" |} |}.

Definition unknownCall : ToolCall :=
  {| ToolCall_ID := "call-3";
     ToolCall_Function :=
       {| FunctionCall_Name := "search"; FunctionCall_Arguments := "" |} |}.

(** A round whose trace is not created, and a round answered at once. *)
Definition failingRound : RoundEvents :=
  {| traceCreated := None; firstCompletion := None; toolClock := λ _, (zero, zero);
     secondCompletion := None; turnClock := zero |}.

Definition answeredRound : RoundEvents :=
  {| traceCreated := Some "trace-1";
     firstCompletion :=
       Some {| Choices := [literal "assistant" "Sunny" ""];
               ResponseUsage := {| Usage_PromptTokens := 10; Usage_CompletionTokens := 2;
                                   Usage_TotalTokens := 12 |} |};
     toolClock := λ _, (zero, zero);
     secondCompletion := None;
     turnClock := zero |}.

(** A round in which the assistant asks for a tool it does not have and
    then answers; the tool runs for two and a half milliseconds. *)
Definition toolRequest : LiveMessage :=
  {| message := {| Role := "assistant"; Content := ""; ToolCallID := "" |};
     ToolCalls := Some [unknownCall];
     Others := ∅ |}.

Definition toolRound : RoundEvents :=
  {| traceCreated := Some "trace-2";
     firstCompletion :=
       Some {| Choices := [toolRequest];
               ResponseUsage := {| Usage_PromptTokens := 10; Usage_CompletionTokens := 2;
                                   Usage_TotalTokens := 12 |} |};
     toolClock := λ _, (toolStart, toolEnd);
     secondCompletion :=
       Some {| Choices := [literal "assistant" "Done" ""];
               ResponseUsage := {| Usage_PromptTokens := 20; Usage_CompletionTokens := 1;
                                   Usage_TotalTokens := 21 |} |};
     turnClock := zero |}.

(** The first round fails, the later ones are answered. *)
Definition laterRounds (k : nat) : RoundEvents :=
  match k with 0 => failingRound | _ => answeredRound end.

Definition evalConfig : Config := LoadConfig ∅.

(** The example context with a total cost of negative zero. *)
Definition negativeZeroCost : ReplayContext :=
  {| ReplayContext_SessionID := ReplayContext_SessionID exampleContext;
     ReplayContext_UserID := ReplayContext_UserID exampleContext;
     ReplayContext_TraceID := ReplayContext_TraceID exampleContext;
     ReplayContext_Timestamp := ReplayContext_Timestamp exampleContext;
     ReplayContext_ModelConfig := ReplayContext_ModelConfig exampleContext;
     ReplayContext_SystemPrompt := ReplayContext_SystemPrompt exampleContext;
     ReplayContext_Tools := ReplayContext_Tools exampleContext;
     ReplayContext_ConversationHistory := ReplayContext_ConversationHistory exampleContext;
     ReplayContext_Metadata :=
       {| SessionMetadata_Environment := "";
          SessionMetadata_Tags := None;
          SessionMetadata_CustomFields := None;
          SessionMetadata_ResponseTimeMs := 0;
          SessionMetadata_TotalCost := S754_zero true;
          SessionMetadata_AdditionalInfo := None |} |}.

Definition objectTemplate : json := JObject {[ "user" := JString "u" ]}.

Lemma recordToolExecution_duration_witness :
  ToolCallExecution_DurationMs
    (@recordToolExecution evalRuntime "noop" "t1" None "ok" toolStart toolEnd) = 2%Z
  ∧ ∃ l',
      @round evalRuntime evalText 0 {| question := "Q"; category := "" |} toolRound
        {| messages := []; contextBuilder := NewContextBuilder emptyHeap "" "" "" |}
      = Continues l'
      ∧ (λ t, (λ x, (ToolCallExecution_ToolName x, ToolCallExecution_DurationMs x))
                <$> elems (ConversationTurn_ToolCalls t))
        <$> history (contextBuilder l')
        = [[("search", 2%Z)]].
Proof.
  destruct (@recordToolExecution_duration evalRuntime evalText "noop" "t1" None "ok"
              toolStart toolEnd 1000000 3500000 [] emptyHeap "" "" "" []
              zero 1 "" "" None zero "")
    as ([Hduration _] & _ & _ & _ & _ & _ & Hround).
  - reflexivity.
  - reflexivity.
  - unfold maxInt64. lia.
  - split; [exact Hduration|].
    destruct (Hround 0 {| question := "Q"; category := "" |} toolRound [] "trace-2"
                {| Choices := [toolRequest];
                   ResponseUsage := {| Usage_PromptTokens := 10; Usage_CompletionTokens := 2;
                                       Usage_TotalTokens := 12 |} |}
                {| Choices := [literal "assistant" "Done" ""];
                   ResponseUsage := {| Usage_PromptTokens := 20; Usage_CompletionTokens := 1;
                                       Usage_TotalTokens := 21 |} |}
                toolRequest (literal "assistant" "Done" "") [] []
                eq_refl eq_refl eq_refl (le_n 1) eq_refl eq_refl)
      as (l' & Hl' & Hhistory).
    exists l'. split; [exact Hl'|]. rewrite Hhistory. reflexivity.
Defined.

Lemma run_history_witness :
  history (stateOf (@run evalRuntime (NewContextBuilder emptyHeap "u" "" "m") quietCalls))
  = history (NewContextBuilder emptyHeap "u" "" "m") ++ @turnsOf evalRuntime quietCalls.
Proof.
  apply (@run_history evalRuntime emptyHeap "u" "" "m" [] quietCalls). reflexivity.
Defined.

Lemma setters_last_write_wins_witness :
  ReplayContext_SessionID
    (Build (stateOf (@run evalRuntime
                       (SetSessionID (NewContextBuilder emptyHeap "u" "" "m") "s")
                       [CallAddTurn zero 1 "Hi" "Hello" None zero "trace-1"]))
           zero "trace-1")
  = "s".
Proof.
  destruct (@setters_last_write_wins evalRuntime (NewContextBuilder emptyHeap "u" "" "m")
              [CallAddTurn zero 1 "Hi" "Hello" None zero "trace-1"] zero "trace-1"
              "" None "s" zero 0) as (_ & Hsession & _).
  apply Hsession. reflexivity.
Defined.

Lemma roundtrip_keeps_fields_witness :
  ∃ doc r', @ToJSON evalRuntime negativeZeroCost = Some doc
    ∧ @FromJSON evalRuntime doc = Some r'
    ∧ keptContext negativeZeroCost r'
    ∧ SessionMetadata_TotalCost (ReplayContext_Metadata r') = float64_zero.
Proof.
  destruct (@ToJSON evalRuntime negativeZeroCost) as [doc|] eqn:Hdoc;
    [|vm_compute in Hdoc; discriminate].
  destruct (@roundtrip_keeps_fields evalRuntime negativeZeroCost doc) as (r' & Hr' & Hkept).
  - intros t s _. eexists. reflexivity.
  - reflexivity.
  - exact Hdoc.
  - exists doc, r'. split; [reflexivity|]. split; [exact Hr'|]. split; [exact Hkept|].
    destruct Hkept as (_ & _ & _ & _ & _ & _ & _ & _ & _ & _ & _ & _ & _ & Hcost).
    exact Hcost.
Defined.


Lemma executeTool_division_by_zero_witness :
  @executeTool evalText divideCall = "Error: division by zero".
Proof.
  apply (@executeTool_division_by_zero evalText divideCall).
  - reflexivity.
  - reflexivity.
  - intros b Hb. vm_compute in Hb. discriminate.
Defined.

Lemma executeTool_without_arguments_witness :
  @executeTool evalText emptyCall = "0.00".
Proof.
  apply (@executeTool_without_arguments evalText emptyCall). reflexivity.
Defined.

Lemma unknown_tool_recorded_as_success_witness :
  ∃ e, elems (@recordToolExecutions evalRuntime
                (@toolRuns evalText [divideCall; unknownCall] (λ _, (toolStart, toolEnd))))
         !! 1 = Some e
       ∧ ToolCallExecution_ToolName e = "search"
       ∧ ToolCallExecution_Result e = "Unknown tool: search"
       ∧ ToolCallExecution_Success e = true
       ∧ ToolCallExecution_Error e = "".
Proof.
  apply (@unknown_tool_recorded_as_success evalRuntime evalText
           [divideCall; unknownCall] (λ _, (toolStart, toolEnd)) 1 unknownCall).
  - reflexivity.
  - discriminate.
  - discriminate.
Defined.

Lemma main_history_completed_witness :
  ∃ t, t ∈ history (contextBuilder
                      (loopOf (@rounds evalRuntime evalText 0 questions laterRounds
                                 (start emptyHeap evalConfig "session"))))
       ∧ ConversationTurn_Round t = 2%Z.
Proof.
  apply (@main_history_completed evalRuntime evalText emptyHeap evalConfig "session"
           questions laterRounds
           (loopOf (@rounds evalRuntime evalText 0 questions laterRounds
                      (start emptyHeap evalConfig "session")))
           eq_refl 1).
  eexists. split; [reflexivity|]. eexists. reflexivity.
Defined.

Lemma plain_conversation_replayed_witness :
  ∃ final,
    @rounds evalRuntime evalText 0 questions (λ _, answeredRound)
      (start emptyHeap evalConfig "session") = Continues final
    ∧ lifted <$> ToOpenAIMessages
                   (load (heap (contextBuilder final))
                         (Build (contextBuilder final) zero "trace-1"))
      = messages final.
Proof.
  apply (@plain_conversation_replayed evalRuntime evalText emptyHeap evalConfig "session"
           questions (λ _, answeredRound) zero "trace-1").
  intros k _. reflexivity.
Defined.

Lemma projection_no_longer_witness :
  length (ToOpenAIMessages
            (load (heap (contextBuilder
                           (loopOf (@rounds evalRuntime evalText 0 questions laterRounds
                                      (start emptyHeap evalConfig "session")))))
                  (Build (contextBuilder
                            (loopOf (@rounds evalRuntime evalText 0 questions laterRounds
                                       (start emptyHeap evalConfig "session"))))
                         zero "trace-1")))
  ≤ length (messages (loopOf (@rounds evalRuntime evalText 0 questions laterRounds
                                (start emptyHeap evalConfig "session")))).
Proof.
  destruct (@projection_no_longer evalRuntime evalText emptyHeap evalConfig "session"
              questions laterRounds
              (loopOf (@rounds evalRuntime evalText 0 questions laterRounds
                         (start emptyHeap evalConfig "session")))
              zero "trace-1" eq_refl) as [Hle _].
  exact Hle.
Defined.

Lemma main_context_encodes_witness :
  is_Some (@ToJSON evalRuntime
             (load (heap (contextBuilder
                            (loopOf (@rounds evalRuntime evalText 0 questions laterRounds
                                       (start emptyHeap evalConfig "session")))))
                   (Build (contextBuilder
                             (loopOf (@rounds evalRuntime evalText 0 questions laterRounds
                                        (start emptyHeap evalConfig "session"))))
                          zero "trace-1"))).
Proof.
  apply (@main_context_encodes evalRuntime evalText emptyHeap evalConfig "session"
           questions laterRounds zero "trace-1").
  - intros text. unfold Unmarshal, evalText.
    destruct (decide (text = "divide")); [reflexivity|].
    destruct (decide (text = "Tokyo")); reflexivity.
  - eexists. reflexivity.
Defined.

Lemma prepareRequest_outcomes_witness :
  ∃ doc,
    prepareRequest (Some objectTemplate)
      [ ({[ "role" := AnyString "user"; "content" := AnyString "Q" ]} : Message);
        ({[ "role" := AnyString "assistant"; "content" := AnyString "A" ]} : Message) ]
    = RequestBody doc.
Proof.
  destruct (prepareRequest_outcomes objectTemplate exampleTrace
              [ ({[ "role" := AnyString "user"; "content" := AnyString "Q" ]} : Message);
                ({[ "role" := AnyString "assistant"; "content" := AnyString "A" ]} : Message) ])
    as [[Hnone _]|Hdoc].
  - reflexivity.
  - repeat constructor.
  - reflexivity.
  - vm_compute in Hnone. discriminate.
  - exact Hdoc.
Defined.

End FurtherEvaluations.
